(** * Summarize for Obsidian: content extraction and completion client

    A shallow embedding of the TypeScript sources
    - [test/cli-test.ts]                   (ContentExtractor with link following),
    - [src/services/content-extractor.ts]  (plugin ContentExtractor),
    - [src/services/llm-service.ts]        (LLMService),
    - [src/actions/summarize.ts]           (SummarizeAction, streaming insertion),
    together with the properties of the specification that concern them.

    JavaScript strings are sequences of UTF-16 code units; they are modelled
    as lists of [N].  Asynchronous code is modelled by explicit state passing
    over an abstract outside world that answers the network requests. *)

From Stdlib Require Import String Ascii DecimalString.
From Stdlib Require Import NArith Bool Lia Arith List.
Import ListNotations.

Set Implicit Arguments.

(* ================================================================== *)
(** * JavaScript strings *)
(* ================================================================== *)

Module JS.

Definition char := N.
Definition jsstring := list char.

(** A string literal of the source. *)
Definition lit (s : string) : jsstring :=
  map N_of_ascii (list_ascii_of_string s).

(** A literal in which every apostrophe stands for a quotation mark
    (code unit 34); used to write JSON text. *)
Definition litq (s : string) : jsstring :=
  map (fun c => if N.eqb c 39 then 34%N else c) (lit s).

Definition LF : char := 10%N.

Open Scope N_scope.

(** ECMAScript [LineTerminator]: LF, CR, LS, PS. *)
Definition isLineTerminator (c : char) : bool :=
  (c =? 10) || (c =? 13) || (c =? 8232) || (c =? 8233).

(** ECMAScript [WhiteSpace] or [LineTerminator]: the characters matched by
    the regular-expression class [\s] and removed by [String.prototype.trim]. *)
Definition isSpace (c : char) : bool :=
  (c =? 9) || (c =? 10) || (c =? 11) || (c =? 12) || (c =? 13) || (c =? 32)
  || (c =? 160) || (c =? 5760)
  || ((8192 <=? c) && (c <=? 8202))
  || (c =? 8232) || (c =? 8233) || (c =? 8239) || (c =? 8287)
  || (c =? 12288) || (c =? 65279).

Close Scope N_scope.

Fixpoint str_eqb (a b : jsstring) : bool :=
  match a, b with
  | [], [] => true
  | x :: a', y :: b' => N.eqb x y && str_eqb a' b'
  | _, _ => false
  end.

(** [s.startsWith(p)] *)
Fixpoint startsWith (p s : jsstring) : bool :=
  match p, s with
  | [], _ => true
  | x :: p', y :: s' => N.eqb x y && startsWith p' s'
  | _ :: _, [] => false
  end.

(** [s.includes(p)] *)
Fixpoint includes (p s : jsstring) : bool :=
  startsWith p s || match s with [] => false | _ :: s' => includes p s' end.

(** [s.endsWith(p)] *)
Definition endsWith (p s : jsstring) : bool :=
  startsWith (rev p) (rev s).

(** [s.slice(n)] for a non-negative [n]. *)
Definition slice (n : nat) (s : jsstring) : jsstring := skipn n s.

(** [s.replace(p, r)] for a string pattern [p] and a replacement [r] free of
    dollar signs: the first occurrence of [p] is replaced. *)
Fixpoint replace_first (p r s : jsstring) : jsstring :=
  if startsWith p s then r ++ skipn (length p) s
  else match s with
       | [] => []
       | c :: s' => c :: replace_first p r s'
       end.

(** [s.split(sep)] for a one-character separator. *)
Fixpoint split_char_go (sep : char) (cur : jsstring) (s : jsstring) : list jsstring :=
  match s with
  | [] => [rev cur]
  | c :: s' =>
      if N.eqb c sep then rev cur :: split_char_go sep [] s'
      else split_char_go sep (c :: cur) s'
  end.

Definition split_char (sep : char) (s : jsstring) : list jsstring :=
  split_char_go sep [] s.

(** [s.trimStart()], [s.trimEnd()], [s.trim()] *)
Fixpoint trimStart (s : jsstring) : jsstring :=
  match s with
  | [] => []
  | c :: s' => if isSpace c then trimStart s' else s
  end.

(** The string without its longest suffix of characters satisfying [f]. *)
Fixpoint dropEndWhile (f : char -> bool) (s : jsstring) : jsstring :=
  match s with
  | [] => []
  | c :: s' =>
      match dropEndWhile f s' with
      | [] => if f c then [] else [c]
      | t => c :: t
      end
  end.

Definition trimEnd (s : jsstring) : jsstring := dropEndWhile isSpace s.

Definition trim (s : jsstring) : jsstring := trimEnd (trimStart s).

(** [s.split(/\s+/)]: the pieces between the maximal runs of white space.
    [inrun] tells that the current position is inside a separator. *)
Fixpoint split_ws_go (inrun : bool) (cur : jsstring) (s : jsstring) : list jsstring :=
  match s with
  | [] => [rev cur]
  | c :: s' =>
      if isSpace c then
        if inrun then split_ws_go true cur s'
        else rev cur :: split_ws_go true [] s'
      else split_ws_go false (c :: cur) s'
  end.

Definition split_ws (s : jsstring) : list jsstring := split_ws_go false [] s.

(** [Boolean(s)] for a string. *)
Definition nonempty (s : jsstring) : bool :=
  match s with [] => false | _ => true end.

(** Decimal rendering of a non-negative integer, as in a template literal. *)
Definition decimal (n : N) : jsstring :=
  lit (NilZero.string_of_uint (N.to_uint n)).

(** ASCII case folding of the letters A to Z. *)
Definition asciiLower (c : char) : char :=
  if (N.leb 65 c && N.leb c 90)%bool then (c + 32)%N else c.

(** The longest prefix of characters satisfying [f]. *)
Fixpoint takeWhile (f : char -> bool) (s : jsstring) : jsstring :=
  match s with
  | [] => []
  | c :: s' => if f c then c :: takeWhile f s' else []
  end.

(** [a || b] on strings: the empty string is falsy. *)
Definition str_or (a b : jsstring) : jsstring :=
  match a with [] => b | _ => a end.

End JS.

Import JS.

(* ================================================================== *)
(** * Text helpers of the extractor *)
(* ================================================================== *)

(** [countWords]: [text.trim().split(/\s+/).filter(Boolean).length] *)
Definition countWords (text : jsstring) : nat :=
  length (filter nonempty (split_ws (trim text))).

(** The specification's reading of a word count: the number of maximal
    runs of non-white-space characters. *)
Fixpoint token_count_from (inword : bool) (s : jsstring) : nat :=
  match s with
  | [] => 0
  | c :: s' =>
      if isSpace c then token_count_from false s'
      else (if inword then 0 else 1) + token_count_from true s'
  end.

Definition token_count (s : jsstring) : nat := token_count_from false s.

(** The state of the token scan after a text. *)
Definition inword_after (b : bool) (s : jsstring) : bool :=
  fold_left (fun _ c => negb (isSpace c)) s b.

(** The first [replace] of [cleanMarkdown], which turns every run of three
    or more line feeds into two: [run] counts the line feeds read and not
    yet written. *)
Definition flush_newlines (run : nat) : jsstring :=
  if 3 <=? run then [LF; LF] else repeat LF run.

Fixpoint collapse_go (run : nat) (s : jsstring) : jsstring :=
  match s with
  | [] => flush_newlines run
  | c :: s' =>
      if N.eqb c LF then collapse_go (S run) s'
      else flush_newlines run ++ c :: collapse_go 0 s'
  end.

Definition collapse_newlines (s : jsstring) : jsstring := collapse_go 0 s.

(** [$] under the [m] flag: at the end of the input or before a line
    terminator. *)
Definition at_line_end (s : jsstring) : bool :=
  match s with
  | [] => true
  | c :: _ => isLineTerminator c
  end.

(** [^] under the [m] flag: at the start of the input or after a line
    terminator; [prev] is the character before the position. *)
Definition at_line_start (prev : option char) : bool :=
  match prev with
  | None => true
  | Some c => isLineTerminator c
  end.

(** The match of [\s+$] (flag [m]) at the head of [s]: the length of the
    longest non-empty white-space prefix that ends at a line end.  The greedy
    quantifier tries the longest prefix first and backtracks. *)
Fixpoint blank_match (s : jsstring) : option nat :=
  match s with
  | [] => None
  | c :: s' =>
      if isSpace c then
        match blank_match s' with
        | Some k => Some (S k)
        | None => if at_line_end s' then Some 1 else None
        end
      else None
  end.

(** The second [replace] of [cleanMarkdown], which deletes every match of
    [/^\s+$/gm]: the scan of a global replace.  [skip] counts
    the characters of the current match still to be dropped. *)
Fixpoint strip_blank_go (prev : option char) (skip : nat) (s : jsstring) : jsstring :=
  match s with
  | [] => []
  | c :: s' =>
      match skip with
      | S k => strip_blank_go (Some c) k s'
      | O =>
          if at_line_start prev then
            match blank_match s with
            | Some (S k) => strip_blank_go (Some c) k s'
            | _ => c :: strip_blank_go (Some c) 0 s'
            end
          else c :: strip_blank_go (Some c) 0 s'
      end
  end.

Definition strip_blank_lines (s : jsstring) : jsstring := strip_blank_go None 0 s.

(** [cleanMarkdown] *)
Definition cleanMarkdown (markdown : jsstring) : jsstring :=
  trim (strip_blank_lines (collapse_newlines markdown)).

(** No leading and no trailing white space. *)
Definition is_trimmed (s : jsstring) : bool :=
  match s with
  | [] => true
  | c :: _ => negb (isSpace c) && negb (isSpace (last s c))
  end.

(** A run of at least three line feeds somewhere in the string. *)
Definition has_newline_run3 (s : jsstring) : bool := includes [LF; LF; LF] s.

(** The number of line feeds at the head of a string. *)
Fixpoint leading_newlines (s : jsstring) : nat :=
  match s with
  | [] => 0
  | c :: s' => if N.eqb c LF then S (leading_newlines s') else 0
  end.

(* ================================================================== *)
(** * Values, exceptions and the platform *)
(* ================================================================== *)

(** The values [JSON.parse] produces, and [undefined].  A number is kept as
    its source text, together with the fact of being zero. *)
#[warnings="-register-all"] Inductive value : Type :=
| VUndefined
| VNull
| VBool (b : bool)
| VNum (zero : bool) (text : jsstring)
| VStr (s : jsstring)
| VArr (items : list value)
| VObj (fields : list (jsstring * value)).

(** [Boolean(v)] *)
Definition truthy (v : value) : bool :=
  match v with
  | VUndefined | VNull => false
  | VBool b => b
  | VNum zero _ => negb zero
  | VStr s => nonempty s
  | VArr _ | VObj _ => true
  end.

(** [a || b] *)
Definition or_else (a b : value) : value := if truthy a then a else b.

Fixpoint lookup_field (k : jsstring) (fs : list (jsstring * value)) : value :=
  match fs with
  | [] => VUndefined
  | (k', v) :: fs' => if str_eqb k k' then v else lookup_field k fs'
  end.

(** [v?.k] for one of the property names the sources read ([error],
    [message], [choices], [delta], [content], [model], [usage]); none of
    them is a property of a primitive or of an array. *)
Definition opt_prop (v : value) (k : jsstring) : value :=
  match v with
  | VObj fs => lookup_field k fs
  | _ => VUndefined
  end.

(** [v?.[0]] *)
Definition opt_index0 (v : value) : value :=
  match v with
  | VArr items => match items with x :: _ => x | [] => VUndefined end
  | VObj fs => lookup_field (lit "0") fs
  | VStr s => match s with c :: _ => VStr [c] | [] => VUndefined end
  | _ => VUndefined
  end.

(** A thrown value. *)
Inductive thrown : Type :=
| JsError (name message : jsstring)        (* an Error: Error, TypeError, SyntaxError *)
| JsDOMException (name message : jsstring) (* a DOMException *)
| JsOther (text : jsstring).               (* any other value; [text] is [String(value)] *)

Definition instanceofError (e : thrown) : bool :=
  match e with
  | JsError _ _ | JsDOMException _ _ => true
  | JsOther _ => false
  end.

(** [e.message] of an Error. *)
Definition message (e : thrown) : jsstring :=
  match e with
  | JsError _ m | JsDOMException _ m => m
  | JsOther _ => []
  end.

(** [new Error(m)] *)
Definition newError (m : jsstring) : thrown := JsError (lit "Error") m.

Inductive outcome (A : Type) : Type :=
| Return (a : A)
| Throw (e : thrown).

Arguments Return {A} a.
Arguments Throw {A} e.

(** What [new URL(s)] exposes to the sources. *)
Record URL : Type := mkURL {
  hostname : jsstring;
  pathname : jsstring
}.

(** The built-in and library functions the sources call.  They are not
    part of the repository and are left abstract. *)
Record Platform : Type := mkPlatform {
  (** [new URL(s)]; [None] when the constructor throws *)
  URL_parse : jsstring -> option URL;
  (** [JSON.parse] *)
  JSON_parse : jsstring -> outcome value;
  (** [JSON.stringify] *)
  JSON_stringify : value -> jsstring;
  (** [String(v)] for numbers, arrays and objects *)
  stringOf : value -> jsstring;
  (** [String.prototype.toLowerCase] *)
  toLowerCase : jsstring -> jsstring;
  (** the message of the TypeError raised by reading a property of
      [null] or [undefined] *)
  nullReadMessage : value -> jsstring -> jsstring;
  (** the DOM: [DOMParser] or linkedom *)
  Document : Type;
  Element : Type;
  parseHTML : jsstring -> Document;
  querySelector : Document -> jsstring -> option Element;
  getAttribute : Element -> jsstring -> option jsstring;
  textContent : Element -> jsstring;
  innerHTML : Element -> jsstring;
  body : Document -> option Element;
  (** the element after [querySelectorAll(sel).forEach(el => el.remove())] *)
  removeMatching : Element -> jsstring -> Element;
  (** [TurndownService.turndown] as configured by the constructor *)
  turndown : jsstring -> jsstring
}.

(** [String(v)] *)
Definition ToString (P : Platform) (v : value) : jsstring :=
  match v with
  | VStr s => s
  | VUndefined => lit "undefined"
  | VNull => lit "null"
  | VBool true => lit "true"
  | VBool false => lit "false"
  | _ => stringOf P v
  end.

(** [v.k] where [v] may be [null] or [undefined]. *)
Definition read_prop (P : Platform) (v : value) (k : jsstring) : outcome value :=
  match v with
  | VUndefined | VNull => Throw (JsError (lit "TypeError") (nullReadMessage P v k))
  | _ => Return (opt_prop v k)
  end.

(* ================================================================== *)
(** * The outside world *)
(* ================================================================== *)

Definition headers := list (jsstring * jsstring).

(** The arguments of a [fetch] call. *)
Record FetchInit : Type := mkFetch {
  f_url : jsstring;
  f_method : option jsstring;
  f_redirect : option jsstring;
  f_headers : headers;
  f_body : option jsstring
}.

(** What happens while the body of a streamed response is read: a read
    delivers a decoded chunk, a read fails, or the user presses a key while
    the read is pending. *)
Inductive BodyEvent : Type :=
| Read (chunk : jsstring)
| ReadFails (e : thrown)
| KeyDown (key : jsstring).

(** A [fetch] response. *)
Record Response : Type := mkResponse {
  r_status : N;
  r_statusText : jsstring;
  r_url : jsstring;
  r_text : outcome jsstring;
  r_body : option (list BodyEvent)
}.

(** A status from 200 to 299. *)
Definition r_ok_status (status : N) : bool :=
  (N.leb 200 status && N.leb status 299)%bool.

(** [response.ok] *)
Definition r_ok (r : Response) : bool := r_ok_status (r_status r).

(** The parameter and the response of Obsidian's [requestUrl]. *)
Record RequestUrlParam : Type := mkRequest {
  q_url : jsstring;
  q_method : option jsstring;
  q_headers : headers;
  q_body : option jsstring;
  q_throw : option bool
}.

Record RequestUrlResponse : Type := mkRequestResponse {
  q_status : N;
  q_text : jsstring;
  q_json : outcome value
}.

(** The network, as a state transformer over the world [W]. *)
Record Net (W : Type) : Type := mkNet {
  net_fetch : FetchInit -> W -> outcome Response * W;
  net_requestUrl : RequestUrlParam -> W -> outcome RequestUrlResponse * W
}.

(** Observable effects, in the order they happen. *)
Inductive Effect : Type :=
| EFetch (init : FetchInit)
| ERequestUrl (param : RequestUrlParam)
| ENotice (text : jsstring)
| EStream (chunk : value).

(** The state threaded through the asynchronous code: the world, the state
    [U] of the caller's callbacks and listeners, and the effects so far. *)
Record State (W U : Type) : Type := mkState {
  world : W;
  host : U;
  trace : list Effect
}.

Definition M (W U A : Type) : Type := State W U -> outcome A * State W U.

Section Monad.
Variables W U : Type.

Definition ret {A} (a : A) : M W U A := fun st => (Return a, st).

Definition throw {A} (e : thrown) : M W U A := fun st => (Throw e, st).

Definition bind {A B} (m : M W U A) (k : A -> M W U B) : M W U B :=
  fun st =>
    match m st with
    | (Return a, st') => k a st'
    | (Throw e, st') => (Throw e, st')
    end.

(** [try { m } catch (e) { h e }] *)
Definition try_catch {A} (m : M W U A) (h : thrown -> M W U A) : M W U A :=
  fun st =>
    match m st with
    | (Return a, st') => (Return a, st')
    | (Throw e, st') => h e st'
    end.

(** [try { m } finally { f }] for a clean-up that does not throw. *)
Definition try_finally {A} (m : M W U A) (f : U -> U) : M W U A :=
  fun st =>
    let '(r, st') := m st in
    (r, mkState (world st') (f (host st')) (trace st')).

Definition lift {A} (o : outcome A) : M W U A := fun st => (o, st).

Definition emit (e : Effect) : M W U unit :=
  fun st => (Return tt, mkState (world st) (host st) (trace st ++ [e])).

Definition on_host (f : U -> U) : M W U unit :=
  fun st => (Return tt, mkState (world st) (f (host st)) (trace st)).

Definition get_host : M W U U := fun st => (Return (host st), st).

Variable net : Net W.

(** [await fetch(url, init)] *)
Definition fetch (init : FetchInit) : M W U Response :=
  fun st =>
    let '(r, w') := net_fetch net init (world st) in
    (r, mkState w' (host st) (trace st ++ [EFetch init])).

(** [await requestUrl(param)] *)
Definition requestUrl (param : RequestUrlParam) : M W U RequestUrlResponse :=
  fun st =>
    let '(r, w') := net_requestUrl net param (world st) in
    (r, mkState w' (host st) (trace st ++ [ERequestUrl param])).

End Monad.

(** The state after a [fetch], a [requestUrl] or a notice. *)
Definition fetched {W U} (init : FetchInit) (w : W) (st : State W U) : State W U :=
  mkState w (host st) (trace st ++ [EFetch init]).

Definition requested {W U} (param : RequestUrlParam) (w : W) (st : State W U)
  : State W U :=
  mkState w (host st) (trace st ++ [ERequestUrl param]).

Definition noticed {W U} (text : jsstring) (st : State W U) : State W U :=
  mkState (world st) (host st) (trace st ++ [ENotice text]).

(** The state with the caller's part changed by [g]. *)
Definition map_host {W U} (g : U -> U) (st : State W U) : State W U :=
  mkState (world st) (g (host st)) (trace st).

Arguments ret {W U A} a.
Arguments throw {W U A} e.
Arguments lift {W U A} o.
Arguments emit {W U} e.
Arguments get_host {W U}.
Arguments on_host {W U} f.
Arguments bind {W U A B} m k.
Arguments try_catch {W U A} m h.
Arguments try_finally {W U A} m f.
Arguments fetch {W U} net init.
Arguments requestUrl {W U} net param.

Notation "x <- m ;; k" := (bind m (fun x => k))
  (at level 61, m at next level, right associativity).
Notation "m ;;; k" := (bind m (fun _ => k))
  (at level 61, right associativity).

(* ================================================================== *)
(** * ContentExtractor *)
(* ================================================================== *)

Record ExtractedContent : Type := mkExtracted {
  title : jsstring;
  content : jsstring;
  url : jsstring;
  wordCount : nat
}.

Definition notLineTerminator (c : char) : bool := negb (isLineTerminator c).

(** [(.+)$] under the [m] flag at the head of [s]: the rest of the line,
    which has to be non-empty. *)
Definition line_capture (s : jsstring) : option jsstring :=
  match takeWhile notLineTerminator s with
  | [] => None
  | g => Some g
  end.

(** [\s+(.+)$] at the head of [s]: the greedy [\s+] takes the longest run
    of white space after which the rest matches. *)
Fixpoint spaces_then_line (s : jsstring) : option jsstring :=
  match s with
  | [] => None
  | c :: s' =>
      if isSpace c then
        match spaces_then_line s' with
        | Some g => Some g
        | None => line_capture s'
        end
      else None
  end.

(** [#\s+(.+)$] at the head of [s]. *)
Definition heading_at (s : jsstring) : option jsstring :=
  match s with
  | c :: s' => if N.eqb c 35 then spaces_then_line s' else None
  | [] => None
  end.

(** Group 1 of the first match of a pattern anchored by [^] (flag [m]);
    [at_pos] matches the rest of the pattern at a position. *)
Fixpoint first_line_match (at_pos : jsstring -> option jsstring)
    (prev : option char) (s : jsstring) : option jsstring :=
  match s with
  | [] => None
  | c :: s' =>
      match (if at_line_start prev then at_pos s else None) with
      | Some g => Some g
      | None => first_line_match at_pos (Some c) s'
      end
  end.

(** [text.match(/^#\s+(.+)$/m)], group 1 *)
Definition match_heading (text : jsstring) : option jsstring :=
  first_line_match heading_at None text.

(** [text.match(/^(.+)$/m)], group 1 *)
Definition match_first_line (text : jsstring) : option jsstring :=
  first_line_match line_capture None text.

(** A character outside the excluded class of the URL pattern: no white
    space, angle bracket, quotation mark, closing parenthesis or closing
    square bracket. *)
Definition isUrlChar (c : char) : bool :=
  negb (isSpace c || N.eqb c 60 || N.eqb c 62 || N.eqb c 34 || N.eqb c 41 || N.eqb c 93).

(** The match of the URL pattern (http or https, the two slashes, then one
    or more URL characters, greedy) at the head of [s]: its length. *)
Definition url_match (s : jsstring) : option nat :=
  let rest n :=
    match length (takeWhile isUrlChar (skipn n s)) with
    | O => None
    | m => Some (n + m)
    end in
  if startsWith (lit "https://") s then rest 8
  else if startsWith (lit "http://") s then rest 7
  else None.

(** [content.match(urlRegex)] with the [g] flag: all the matches, from left
    to right; [skip] counts the characters of the current match still to be
    passed. *)
Fixpoint url_matches_go (skip : nat) (s : jsstring) : list jsstring :=
  match s with
  | [] => []
  | _ :: s' =>
      match skip with
      | S k => url_matches_go k s'
      | O =>
          match url_match s with
          | Some (S k) => firstn (S k) s :: url_matches_go k s'
          | _ => url_matches_go 0 s'
          end
      end
  end.

Definition url_matches (s : jsstring) : list jsstring := url_matches_go 0 s.

(** A character of the class [[.,;:!?)]]. *)
Definition isTrailingPunct (c : char) : bool :=
  N.eqb c 46 || N.eqb c 44 || N.eqb c 59 || N.eqb c 58 || N.eqb c 33
  || N.eqb c 63 || N.eqb c 41.

(** The four [skipPatterns]; the first three carry the [i] flag. *)
Definition hasExtension (exts : list string) (u : jsstring) : bool :=
  existsb (fun e => endsWith (lit "." ++ lit e) (map asciiLower u)) exts.

Definition isVideoSite (u : jsstring) : bool :=
  existsb (fun scheme =>
    existsb (fun www =>
      existsb (fun site => startsWith (lit scheme ++ lit www ++ lit site) u)
              ["youtube.com"; "youtu.be"]%string)
            [""; "www."]%string)
          ["http://"; "https://"]%string.

Definition matchesSkipPattern (u : jsstring) : bool :=
  hasExtension ["jpg"; "jpeg"; "png"; "gif"; "webp"; "svg"; "ico"]%string u
  || hasExtension ["mp4"; "webm"; "mov"; "avi"]%string u
  || hasExtension ["pdf"]%string u
  || isVideoSite u.

Definition shorteners : list jsstring :=
  map lit ["t.co"; "bit.ly"; "tinyurl.com"; "goo.gl"; "ow.ly"; "is.gd"]%string.

Definition jsHeavyDomains : list jsstring :=
  map lit ["twitter.com"; "x.com"; "mobile.twitter.com"; "mobile.x.com"]%string.

Definition contentSelectors : list jsstring :=
  [lit "article"; litq "[role='main']"; lit "main"; lit ".post-content";
   lit ".article-content"; lit ".entry-content"; lit ".content";
   lit "#content"; lit ".post"; lit ".article"].

Definition removeSelectors : list jsstring :=
  map lit ["nav"; "header"; "footer"; "aside"; ".sidebar"; ".navigation";
           ".menu"; ".comments"; ".related"; ".share"; ".social";
           "#sidebar"; "#navigation"; "#menu"; "#comments"]%string.

Definition userAgent : jsstring * jsstring :=
  (lit "User-Agent", lit "Mozilla/5.0 (compatible; Obsidian Summarize Plugin)").

Definition htmlHeaders : headers :=
  [userAgent;
   (lit "Accept", lit "text/html,application/xhtml+xml,application/xml;q=0.9,*/*;q=0.8");
   (lit "Accept-Language", lit "en-US,en;q=0.5")].

(** The two requests of [resolveShortUrl]: a HEAD request that follows
    redirects, and a request with the default method that follows them. *)
Definition headRequest (url : jsstring) : FetchInit :=
  mkFetch url (Some (lit "HEAD")) (Some (lit "follow")) [] None.

Definition followRequest (url : jsstring) : FetchInit :=
  mkFetch url None (Some (lit "follow")) [] None.

(** The marker of the appended article. *)
Definition linkedArticleMarker : jsstring := lit "## Linked Article:".

(** The text between the tweet and the linked article, up to the title. *)
Definition linkedArticleHeader : jsstring :=
  [LF; LF] ++ lit "---" ++ [LF; LF] ++ lit "## Linked Article: ".

Section Extractor.

Variable P : Platform.
Variables W U : Type.
Variable net : Net W.

(** [new URL(s)] outside a [try] *)
Definition new_URL (s : jsstring) : M W U URL :=
  match URL_parse P s with
  | Some parsed => ret parsed
  | None => throw (JsError (lit "TypeError") (lit "Invalid URL"))
  end.

Definition isUrlShortener (url : jsstring) : bool :=
  match URL_parse P url with
  | Some parsed => existsb (fun s => str_eqb s (hostname parsed)) shorteners
  | None => false
  end.

Definition resolveShortUrl (url : jsstring) : M W U jsstring :=
  try_catch
    (response <- fetch net (headRequest url) ;;
     ret (r_url response))
    (fun _ =>
       try_catch
         (response <- fetch net (followRequest url) ;;
          ret (r_url response))
         (fun _ => ret url)).

(** The first step of [extractFromUrl]. *)
Definition resolveStep (url : jsstring) : M W U jsstring :=
  if isUrlShortener url then resolveShortUrl url else ret url.

Definition convertGitHubUrl (url : jsstring) : jsstring :=
  match URL_parse P url with
  | Some parsed =>
      if str_eqb (hostname parsed) (lit "github.com")
         && includes (lit "/blob/") (pathname parsed)
      then
        let newPath := replace_first (lit "/blob/") (lit "/") (pathname parsed) in
        lit "https://raw.githubusercontent.com" ++ newPath
      else url
  | None => url
  end.

Definition isRawTextUrl (url : jsstring) : bool :=
  match URL_parse P url with
  | Some parsed => str_eqb (hostname parsed) (lit "raw.githubusercontent.com")
  | None => false
  end.

Definition needsJsRendering (url : jsstring) : bool :=
  match URL_parse P url with
  | Some parsed =>
      existsb (fun domain =>
                 str_eqb (hostname parsed) domain
                 || endsWith (lit "." ++ domain) (hostname parsed))
              jsHeavyDomains
  | None => false
  end.

Definition extractTitle (doc : Document P) : jsstring :=
  match querySelector P doc (litq "meta[property='og:title']") with
  | Some ogTitle =>
      match getAttribute P ogTitle (lit "content") with
      | Some c => str_or c []
      | None => []
      end
  | None =>
      match querySelector P doc (lit "title") with
      | Some titleEl => str_or (textContent P titleEl) []
      | None =>
          match querySelector P doc (lit "h1") with
          | Some h1 => str_or (textContent P h1) []
          | None => lit "Untitled"
          end
      end
  end.

Definition hasSubstantialContent (element : Element P) : bool :=
  let text := str_or (textContent P element) [] in
  let words := length (split_ws (trim text)) in
  100 <? words.

(** The loop over [selectors] of [extractMainContent]. *)
Fixpoint firstSubstantial (doc : Document P) (selectors : list jsstring) : option jsstring :=
  match selectors with
  | [] => None
  | selector :: rest =>
      match querySelector P doc selector with
      | Some element =>
          if hasSubstantialContent element then Some (innerHTML P element)
          else firstSubstantial doc rest
      | None => firstSubstantial doc rest
      end
  end.

Definition strippedBody (b : Element P) : jsstring :=
  innerHTML P (fold_left (removeMatching P) removeSelectors b).

(** The parsing and conversion steps shared by the generic path:
    [extractTitle], [turndown], [cleanMarkdown], [countWords]. *)
Definition fromMainContent (doc : Document P) (mainContent url : jsstring) : ExtractedContent :=
  let title := extractTitle doc in
  let markdown := turndown P mainContent in
  let cleanedContent := cleanMarkdown markdown in
  mkExtracted title cleanedContent url (countWords cleanedContent).

(** Title and content of a Jina Reader answer. *)
Definition fromJinaMarkdown (markdown url : jsstring) : ExtractedContent :=
  let titleMatch :=
    match match_heading markdown with
    | Some g => Some g
    | None => match_first_line markdown
    end in
  let title := match titleMatch with Some g => trim g | None => lit "Tweet" end in
  let cleanedContent := cleanMarkdown markdown in
  mkExtracted title cleanedContent url (countWords cleanedContent).

(** Title and content of a raw text file. *)
Definition fromRawText (text : jsstring) (parsed : URL) (url : jsstring) : ExtractedContent :=
  let titleMatch := match_heading text in
  let pathParts := split_char 47%N (pathname parsed) in
  let filename := last pathParts [] in
  let title := match titleMatch with Some g => trim g | None => filename end in
  mkExtracted title (trim text) url (countWords text).

(** [extractFirstUrl]: the loop over the matches. *)
Fixpoint firstQualifying (matches : list jsstring) : option jsstring :=
  match matches with
  | [] => None
  | rawUrl :: rest =>
      let url := dropEndWhile isTrailingPunct rawUrl in
      match URL_parse P url with
      | Some parsed =>
          if str_eqb (hostname parsed) (lit "twitter.com")
             || str_eqb (hostname parsed) (lit "x.com")
             || endsWith (lit ".twitter.com") (hostname parsed)
             || endsWith (lit ".x.com") (hostname parsed)
          then firstQualifying rest
          else if matchesSkipPattern url then firstQualifying rest
          else Some url
      | None => firstQualifying rest
      end
  end.

Definition extractFirstUrl (text : jsstring) : option jsstring :=
  firstQualifying (url_matches text).

(** The tests that select the Jina path for [url] in the state [st]; [st1]
    is the state in which the Jina request is sent. *)
Definition takesJinaPath (url : jsstring) (st st1 : State W U) : Prop :=
  exists resolved,
    resolveStep url st = (Return resolved, st1)
    /\ isRawTextUrl (convertGitHubUrl resolved) = false
    /\ needsJsRendering (convertGitHubUrl resolved) = true.

(** ** test/cli-test.ts *)

Definition failedToFetch (prefix : string) (response : Response) : thrown :=
  newError (lit prefix ++ decimal (r_status response) ++ lit " " ++ r_statusText response).

Definition cli_extractRawText (url : jsstring) : M W U ExtractedContent :=
  response <- fetch net (mkFetch url None None [userAgent] None) ;;
  if negb (r_ok response) then throw (failedToFetch "Failed to fetch URL: " response)
  else
    text <- lift (r_text response) ;;
    parsed <- new_URL url ;;
    ret (fromRawText text parsed url).

Definition cli_extractViaJina (url : jsstring) : M W U ExtractedContent :=
  let jinaUrl := lit "https://r.jina.ai/" ++ url in
  response <- fetch net (mkFetch jinaUrl None None [(lit "Accept", lit "text/markdown")] None) ;;
  if negb (r_ok response) then throw (failedToFetch "Jina Reader failed: " response)
  else
    markdown <- lift (r_text response) ;;
    ret (fromJinaMarkdown markdown url).

Definition cli_extractMainContent (doc : Document P) : jsstring :=
  match firstSubstantial doc contentSelectors with
  | Some html => html
  | None =>
      match body P doc with
      | None => []
      | Some b => strippedBody b
      end
  end.

Definition cli_extractGeneric (url : jsstring) : M W U ExtractedContent :=
  response <- fetch net (mkFetch url None None htmlHeaders None) ;;
  if negb (r_ok response) then throw (failedToFetch "Failed to fetch URL: " response)
  else
    html <- lift (r_text response) ;;
    let doc := parseHTML P html in
    ret (fromMainContent doc (cli_extractMainContent doc) url).

(** The tweet and the linked article put together. *)
Definition combine (tweetContent linkedContent : ExtractedContent) : ExtractedContent :=
  mkExtracted
    (title tweetContent)
    (content tweetContent ++ linkedArticleHeader ++ title linkedContent
       ++ [LF; LF] ++ content linkedContent)
    (url tweetContent)
    (wordCount tweetContent + wordCount linkedContent).

(** The body of [extractFromUrl(url, followLinks)]; [self u] stands for the
    recursive call [this.extractFromUrl(u, false)]. *)
Definition cli_extractFromUrl_body (self : jsstring -> M W U ExtractedContent)
    (url : jsstring) (followLinks : bool) : M W U ExtractedContent :=
  resolvedUrl <- resolveStep url ;;
  let processedUrl := convertGitHubUrl resolvedUrl in
  if isRawTextUrl processedUrl then cli_extractRawText processedUrl
  else if needsJsRendering processedUrl then
    tweetContent <- cli_extractViaJina url ;;
    if followLinks then
      match extractFirstUrl (content tweetContent) with
      | Some linkedUrl =>
          try_catch
            (linkedContent <- self linkedUrl ;;
             ret (combine tweetContent linkedContent))
            (fun _ => ret tweetContent)
      | None => ret tweetContent
      end
    else ret tweetContent
  else cli_extractGeneric url.

(** The call with [followLinks = false] never reaches the recursive call, so
    the recursion has depth one. *)
Definition cli_extractFromUrl (url : jsstring) (followLinks : bool) : M W U ExtractedContent :=
  cli_extractFromUrl_body
    (fun u => cli_extractFromUrl_body (fun _ => throw (JsOther [])) u false)
    url followLinks.

(** ** src/services/content-extractor.ts, with shorteners, GitHub and Jina *)

Definition extractRawText (url : jsstring) : M W U ExtractedContent :=
  response <- requestUrl net (mkRequest url None [userAgent] None None) ;;
  let text := q_text response in
  parsed <- new_URL url ;;
  ret (fromRawText text parsed url).

Definition extractViaJina (url : jsstring) : M W U ExtractedContent :=
  let jinaUrl := lit "https://r.jina.ai/" ++ url in
  response <- requestUrl net (mkRequest jinaUrl None [(lit "Accept", lit "text/markdown")] None None) ;;
  ret (fromJinaMarkdown (q_text response) url).

Definition fetchUrl (url : jsstring) : M W U RequestUrlResponse :=
  requestUrl net (mkRequest url None htmlHeaders None None).

(** [doc.body.cloneNode(true)] fails on a document without body. *)
Definition extractMainContent (doc : Document P) : outcome jsstring :=
  match firstSubstantial doc contentSelectors with
  | Some html => Return html
  | None =>
      match body P doc with
      | None => Throw (JsError (lit "TypeError") (nullReadMessage P VNull (lit "cloneNode")))
      | Some b => Return (strippedBody b)
      end
  end.

(** The generic path: fetch [target], report [url]. *)
Definition extractGeneric (target url : jsstring) : M W U ExtractedContent :=
  response <- fetchUrl target ;;
  let html := q_text response in
  let doc := parseHTML P html in
  mainContent <- lift (extractMainContent doc) ;;
  ret (fromMainContent doc mainContent url).

(** [extractFromUrl] after the resolution of a shortener. *)
Definition extractResolved (resolvedUrl url : jsstring) : M W U ExtractedContent :=
  let processedUrl := convertGitHubUrl resolvedUrl in
  if isRawTextUrl processedUrl then extractRawText processedUrl
  else if needsJsRendering processedUrl then extractViaJina url
  else extractGeneric processedUrl url.

Definition extractFromUrl (url : jsstring) : M W U ExtractedContent :=
  resolvedUrl <- resolveStep url ;;
  extractResolved resolvedUrl url.

(** ** src/services/content-extractor.ts, the version without strategies *)

Definition basic_extractFromUrl (url : jsstring) : M W U ExtractedContent :=
  extractGeneric url url.

End Extractor.

(* ================================================================== *)
(** * LLMService (src/services/llm-service.ts) *)
(* ================================================================== *)

Inductive SummaryLength : Type := brief | short | medium | long.

Definition LENGTH_WORD_COUNTS (l : SummaryLength) : N :=
  match l with
  | brief => 50
  | short => 100
  | medium => 250
  | long => 500
  end%N.

Record OpenRouterModel : Type := mkModel {
  model_id : jsstring;
  model_name : jsstring
}.

(** The settings the service reads. *)
Record SummarizeSettings : Type := mkSettings {
  openRouterApiKey : jsstring;
  defaultModel : jsstring;
  defaultLength : SummaryLength;
  outputLanguage : option jsstring;
  customPrompt : jsstring;
  freeModelRank : list jsstring;
  models : list OpenRouterModel
}.

Record LLMResponse : Type := mkLLMResponse {
  res_content : value;
  res_model : value;
  res_usage : value
}.

Definition OPENROUTER_API_URL : jsstring :=
  lit "https://openrouter.ai/api/v1/chat/completions".

Definition DEFAULT_PROMPT : jsstring :=
  lit "Summarize the following content in approximately {{wordCount}} words." ++ [LF; LF]
  ++ lit "Rules:" ++ [LF]
  ++ lit "- Lead with the single most important insight or finding" ++ [LF]
  ++ lit "- Format as bullets: one-liner " ++ litq "'why this matters'" ++ lit ", then elaboration" ++ [LF]
  ++ lit "- Include specific details: numbers, names, concrete examples" ++ [LF]
  ++ lit "- Skip meta-commentary (" ++ litq "'This article discusses...'" ++ lit ")" ++ [LF]
  ++ lit "- Skip obvious context (" ++ litq "'In today" ++ lit "'s world..." ++ litq "'" ++ lit ")" ++ [LF]
  ++ lit "- If something important is NOT covered, note it briefly at the end" ++ [LF; LF]
  ++ lit "{{content}}".

(** The replacement text of one match ([GetSubstitution] for a pattern
    without groups): two dollars give one, dollar-ampersand the match,
    dollar-backtick the text before it, dollar-apostrophe the text after. *)
Fixpoint expand_replacement (matched before after repl : jsstring) : jsstring :=
  match repl with
  | [] => []
  | c :: r =>
      if N.eqb c 36 then
        match r with
        | d :: r' =>
            if N.eqb d 36 then 36%N :: expand_replacement matched before after r'
            else if N.eqb d 38 then matched ++ expand_replacement matched before after r'
            else if N.eqb d 96 then before ++ expand_replacement matched before after r'
            else if N.eqb d 39 then after ++ expand_replacement matched before after r'
            else c :: expand_replacement matched before after r
        | [] => [c]
        end
      else c :: expand_replacement matched before after r
  end.

(** [s.replace(/pat/g, repl)] for a literal, non-empty pattern; [seen] is
    the text already passed, reversed. *)
Fixpoint replace_all_go (pat repl : jsstring) (seen : jsstring) (skip : nat)
    (s : jsstring) : jsstring :=
  match s with
  | [] => []
  | c :: s' =>
      match skip with
      | S k => replace_all_go pat repl (c :: seen) k s'
      | O =>
          if startsWith pat s then
            expand_replacement pat (rev seen) (skipn (length pat) s) repl
              ++ replace_all_go pat repl (c :: seen) (length pat - 1) s'
          else c :: replace_all_go pat repl (c :: seen) 0 s'
      end
  end.

Definition replace_all (pat repl s : jsstring) : jsstring :=
  replace_all_go pat repl [] 0 s.

(** The message of the error thrown on status 429. *)
Definition rateLimitMessage (model : jsstring) : jsstring :=
  lit "Rate limit exceeded (429) for model " ++ model.

(** The catch clause of the streaming loop rethrows an error when it is an
    Error whose message contains the word error. *)
Definition rethrown (e : thrown) : bool :=
  instanceofError e && includes (lit "error") (message e).

(** The failures of a completion in the words of the specification, and
    the exception that stands for each in the code. *)
Inductive CompletionFailure : Type :=
| RateLimited (model : jsstring)
| FatalCompletionError (text : jsstring).

Definition raised (f : CompletionFailure) : thrown :=
  match f with
  | RateLimited model => newError (rateLimitMessage model)
  | FatalCompletionError text => newError text
  end.

Section LLMService.

Variable P : Platform.
Variables W U : Type.
Variable net : Net W.
Variable settings : SummarizeSettings.

(** The key-down listeners registered on the document by the caller; they
    run while the service awaits a read. *)
Variable keydown : jsstring -> U -> U.

(** A streaming callback: it runs on the caller's state and may throw. *)
Definition callback := value -> U -> outcome unit * U.

(** [onStream(chunk)] *)
Definition call (onStream : callback) (chunk : value) : M W U unit :=
  fun st =>
    let '(r, u') := onStream chunk (host st) in
    (r, mkState (world st) u' (trace st ++ [EStream chunk])).

Definition buildSummarizationPrompt (text : jsstring) (length : SummaryLength)
    (language : option jsstring) (promptOption : option jsstring) : jsstring :=
  let wordCount := LENGTH_WORD_COUNTS length in
  let languageInstruction :=
    match language with
    | Some (c :: l) => lit "Write the summary in " ++ (c :: l) ++ lit "."
    | _ => lit "Write the summary in the same language as the source content."
    end in
  let template :=
    str_or (match promptOption with Some p => p | None => [] end)
           (str_or (customPrompt settings) DEFAULT_PROMPT) in
  replace_all (lit "{{language}}") languageInstruction
    (replace_all (lit "{{wordCount}}") (decimal wordCount)
       (replace_all (lit "{{content}}") text template)).

Definition getModelName (modelId : jsstring) : jsstring :=
  match find (fun m => str_eqb (model_id m) modelId) (models settings) with
  | Some m => str_or (model_name m) modelId
  | None => modelId
  end.

Definition apiHeaders : headers :=
  [(lit "Authorization", lit "Bearer " ++ openRouterApiKey settings);
   (lit "Content-Type", lit "application/json");
   (lit "HTTP-Referer", lit "https://obsidian.md");
   (lit "X-Title", lit "Obsidian Summarize Plugin")].

Definition requestBody (model prompt : jsstring) (stream : bool) : jsstring :=
  JSON_stringify P
    (VObj ([(lit "model", VStr model);
            (lit "messages",
             VArr [VObj [(lit "role", VStr (lit "user")); (lit "content", VStr prompt)]]);
            (lit "max_tokens", VNum false (lit "1024"))]
           ++ if stream then [(lit "stream", VBool true)] else [])).

(** [data.choices?.[0]?.message?.content] and
    [parsed.choices?.[0]?.delta?.content] *)
Definition firstChoice (part : string) (data : value) : value :=
  opt_prop (opt_prop (opt_index0 (opt_prop data (lit "choices"))) (lit part))
           (lit "content").

(** [x.message || JSON.stringify(x)] as the argument of [new Error]. *)
Definition errorText (err : value) : jsstring :=
  ToString P (or_else (opt_prop err (lit "message")) (VStr (JSON_stringify P err))).

(** [completion]: one non-streaming request. *)
Definition completionRequest (model prompt : jsstring) : RequestUrlParam :=
  mkRequest OPENROUTER_API_URL (Some (lit "POST")) apiHeaders
    (Some (requestBody model prompt false)) (Some false).

Definition completion (model prompt : jsstring) : M W U LLMResponse :=
  response <- requestUrl net (completionRequest model prompt) ;;
  if N.eqb (q_status response) 429 then
    throw (newError (rateLimitMessage model))
  else if negb (N.eqb (q_status response) 200) then
    let errorText := str_or (q_text response) (lit "HTTP " ++ decimal (q_status response)) in
    throw (newError (lit "OpenRouter API error: " ++ errorText))
  else
    data <- lift (q_json response) ;;
    err <- lift (read_prop P data (lit "error")) ;;
    if truthy err then throw (newError (errorText err))
    else
      let content := or_else (firstChoice "message" data) (VStr []) in
      ret (mkLLMResponse content
             (or_else (opt_prop data (lit "model")) (VStr model))
             (opt_prop data (lit "usage"))).

(** The catch clause of the loop over the lines: [keep] is the value of
    [fullContent] when the exception was raised. *)
Definition swallow (keep : jsstring) (e : thrown) : M W U jsstring :=
  if rethrown e then throw e else ret keep.

(** One line of a decoded chunk; the result is the new [fullContent].  The
    assignment to [fullContent] precedes the call of [onStream], hence the
    inner handler: an exception of the callback that is swallowed leaves the
    longer text. *)
Definition processLine (onStream : callback) (line : jsstring) (fullContent : jsstring)
  : M W U jsstring :=
  if startsWith (lit "data: ") line then
    let data := slice 6 line in
    if str_eqb data (lit "[DONE]") then ret fullContent
    else
      try_catch
        (parsed <- lift (JSON_parse P data) ;;
         err <- lift (read_prop P parsed (lit "error")) ;;
         if truthy err then throw (newError (errorText err))
         else
           let content := firstChoice "delta" parsed in
           if truthy content then
             let fullContent' := fullContent ++ ToString P content in
             try_catch (call onStream content ;;; ret fullContent')
                       (swallow fullContent')
           else ret fullContent)
        (swallow fullContent)
  else ret fullContent.

Fixpoint processLines (onStream : callback) (lines : list jsstring) (fullContent : jsstring)
  : M W U jsstring :=
  match lines with
  | [] => ret fullContent
  | line :: rest =>
      fullContent' <- processLine onStream line fullContent ;;
      processLines onStream rest fullContent'
  end.

(** The [while (true)] loop over [reader.read()]; the end of the list is
    the read that reports [done]. *)
Fixpoint readLoop (onStream : callback) (events : list BodyEvent) (fullContent : jsstring)
  : M W U jsstring :=
  match events with
  | [] => ret fullContent
  | Read chunk :: rest =>
      fullContent' <- processLines onStream (split_char LF chunk) fullContent ;;
      readLoop onStream rest fullContent'
  | ReadFails e :: _ => throw e
  | KeyDown key :: rest =>
      on_host (keydown key) ;;; readLoop onStream rest fullContent
  end.

(** [streamCompletion]: one streaming request. *)
Definition streamRequest (model prompt : jsstring) : FetchInit :=
  mkFetch OPENROUTER_API_URL (Some (lit "POST")) None apiHeaders
    (Some (requestBody model prompt true)).

Definition streamCompletion (model prompt : jsstring) (onStream : callback)
  : M W U LLMResponse :=
  response <- fetch net (streamRequest model prompt) ;;
  if N.eqb (r_status response) 429 then
    throw (newError (rateLimitMessage model))
  else if negb (r_ok response) then
    errorText <- lift (r_text response) ;;
    throw (newError (lit "OpenRouter API error: " ++ decimal (r_status response)
                       ++ lit " - " ++ errorText))
  else
    match r_body response with
    | None => throw (newError (lit "No response body reader available"))
    | Some events =>
        fullContent <- readLoop onStream events [] ;;
        ret (mkLLMResponse (VStr fullContent) (VStr model) VUndefined)
    end.

(** The events of a stream without the keys pressed meanwhile. *)
Definition dropKeys (events : list BodyEvent) : list BodyEvent :=
  filter (fun e => match e with KeyDown _ => false | _ => true end) events.

(** The caller's state after the handlers of the keys [keys] have run. *)
Definition pressAll (keys : list jsstring) (u : U) : U :=
  fold_left (fun u key => keydown key u) keys u.

(** A change [g] of the caller's state that a callback does not notice. *)
Definition unnoticed (g : U -> U) (onStream : callback) : Prop :=
  forall chunk u,
    onStream chunk (g u) = (fst (onStream chunk u), g (snd (onStream chunk u))).

(** The test of [completionWithAutoFree] for a rate-limit error. *)
Definition isRateLimit (lastError : thrown) : bool :=
  includes (lit "429") (message lastError)
  || includes (lit "rate limit") (toLowerCase P (message lastError))
  || includes (lit "too many requests") (toLowerCase P (message lastError)).

(** [error instanceof Error ? error : new Error(String(error))] *)
Definition asError (error : thrown) : thrown :=
  match error with
  | JsOther text => newError text
  | _ => error
  end.

(** One attempt of the fallback loop. *)
Definition attempt (prompt : jsstring) (onStream : option callback) (modelId : jsstring)
  : M W U LLMResponse :=
  match onStream with
  | Some cb => streamCompletion modelId prompt cb
  | None => completion modelId prompt
  end.

Definition allRateLimited (lastError : option thrown) : thrown :=
  newError (lit "All ranked free models are rate limited. Last error: "
              ++ match lastError with
                 | Some e => message e
                 | None => lit "undefined"
                 end).

(** The text of the notice shown before the next model is tried. *)
Definition rateLimitedNotice (modelId : jsstring) : jsstring :=
  lit "Rate limited on " ++ getModelName modelId ++ lit ", trying next...".

(** The [for] loop of [completionWithAutoFree]. *)
Fixpoint autoFreeLoop (prompt : jsstring) (onStream : option callback)
    (freeModels : list jsstring) (lastError : option thrown) : M W U LLMResponse :=
  match freeModels with
  | [] => throw (allRateLimited lastError)
  | modelId :: rest =>
      try_catch (attempt prompt onStream modelId)
        (fun error =>
           let lastError := asError error in
           if isRateLimit lastError then
             emit (ENotice (rateLimitedNotice modelId)) ;;;
             autoFreeLoop prompt onStream rest (Some lastError)
           else throw lastError)
  end.

Definition completionWithAutoFree (prompt : jsstring) (onStream : option callback)
  : M W U LLMResponse :=
  let freeModels := freeModelRank settings in
  match freeModels with
  | [] => throw (newError (lit "No free models ranked. Add models in Settings > Free Rank tab."))
  | _ => autoFreeLoop prompt onStream freeModels None
  end.

(** The options of [summarize].  The method declares and reads no abort
    signal: a caller that passes one is not heard. *)
Record SummarizeOptions : Type := mkOptions {
  opt_length : option SummaryLength;
  opt_language : option jsstring;
  opt_model : option jsstring;
  opt_prompt : option jsstring;
  opt_onStream : option callback
}.

Definition summarize (text : jsstring) (options : SummarizeOptions) : M W U LLMResponse :=
  let requestedModel :=
    str_or (match opt_model options with Some m => m | None => [] end)
           (defaultModel settings) in
  let length :=
    match opt_length options with Some l => l | None => defaultLength settings end in
  let language :=
    match opt_language options with
    | Some (c :: l) => Some (c :: l)
    | _ => outputLanguage settings
    end in
  let prompt := buildSummarizationPrompt text length language (opt_prompt options) in
  if str_eqb requestedModel (lit "auto-free") then
    completionWithAutoFree prompt (opt_onStream options)
  else
    match opt_onStream options with
    | Some cb => streamCompletion requestedModel prompt cb
    | None => completion requestedModel prompt
    end.

End LLMService.

(* ================================================================== *)
(** * SummarizeAction: streaming insertion (src/actions/summarize.ts) *)
(* ================================================================== *)

Record EditorPosition : Type := mkPos {
  line : nat;
  ch : nat
}.

(** The editor as the action sees it: what it answers when asked, and the
    [replaceRange] calls it has received. *)
Record Editor : Type := mkEditor {
  getSelection : jsstring;
  getCursor : EditorPosition;
  getCursorTo : EditorPosition;
  getLine : nat -> jsstring;
  replaced : list (jsstring * EditorPosition)
}.

Definition replaceRange (text : jsstring) (pos : EditorPosition) (e : Editor) : Editor :=
  mkEditor (getSelection e) (getCursor e) (getCursorTo e) (getLine e)
           (replaced e ++ [(text, pos)]).

(** The state of one streaming insertion: the editor, the fields of the
    [StreamingInsertContext], whether the Escape listener is registered on
    the document and whether the abort controller has been aborted. *)
Record ActionHost : Type := mkHost {
  editor : Editor;
  insertPos : EditorPosition;
  indent : jsstring;
  currentContent : jsstring;
  listening : bool;
  aborted : bool
}.

Definition isDigit (c : char) : bool := (N.leb 48 c && N.leb c 57)%bool.

(** [/^\s*[-*+]\s/.test(line) || /^\s*\d+\.\s/.test(line)] *)
Definition isListItemLine (ln : jsstring) : bool :=
  let r := trimStart ln in
  match r with
  | c :: d :: _ =>
      ((N.eqb c 45 || N.eqb c 42 || N.eqb c 43) && isSpace d)
      || match skipn (length (takeWhile isDigit r)) r with
         | p :: q :: _ => nonempty (takeWhile isDigit r) && N.eqb p 46 && isSpace q
         | _ => false
         end
  | _ => false
  end.

(** The Escape handler, as dispatched by the document. *)
Definition escapeHandler (key : jsstring) (h : ActionHost) : ActionHost :=
  if listening h && str_eqb key (lit "Escape") then
    mkHost (editor h) (insertPos h) (indent h) (currentContent h) (listening h) true
  else h.

(** [ctx.cleanup()] *)
Definition cleanup (h : ActionHost) : ActionHost :=
  mkHost (editor h) (insertPos h) (indent h) (currentContent h) false (aborted h).

Definition setupStreamingInsert (e : Editor) : ActionHost :=
  let selection := getSelection e in
  let cursor := if nonempty selection then getCursorTo e else getCursor e in
  let ln := getLine e (line cursor) in
  let insertPos := mkPos (line cursor) (length ln) in
  let baseIndent := takeWhile isSpace ln in
  let isListItem := isListItemLine ln in
  let indent := if isListItem then baseIndent ++ [9%N] else baseIndent in
  mkHost (replaceRange [LF] insertPos e)
         (mkPos (line insertPos + 1) 0) indent [] true false.

(** [chunk.replace(/\n/g, nl + indent)]; the indent is white space, so the
    replacement holds no dollar sign. *)
Definition indentNewlines (ind chunk : jsstring) : jsstring :=
  flat_map (fun c => if N.eqb c LF then LF :: ind else [c]) chunk.

Definition handleStreamChunk (chunk : value) (ctx : ActionHost) : outcome unit * ActionHost :=
  match chunk with
  | VStr chunk =>
      let processedChunk := indentNewlines (indent ctx) chunk in
      let lines := split_char LF (currentContent ctx) in
      let lastLineIndex := length lines - 1 in
      let lastLine := nth lastLineIndex lines [] in
      let endPos :=
        mkPos (line (insertPos ctx) + lastLineIndex)
              (if lastLineIndex =? 0 then length (indent ctx) + length lastLine
               else length lastLine) in
      let textToInsert :=
        match currentContent ctx with
        | [] => indent ctx ++ processedChunk
        | _ => processedChunk
        end in
      (Return tt,
       mkHost (replaceRange textToInsert endPos (editor ctx)) (insertPos ctx)
              (indent ctx) (currentContent ctx ++ chunk) (listening ctx) (aborted ctx))
  | _ => (Throw (JsError (lit "TypeError") (lit "chunk.replace is not a function")), ctx)
  end.

(** The result of [executeStreamingSummarize]. *)
Record StreamingResult : Type := mkStreamingResult {
  sr_content : value;
  sr_cancelled : bool
}.

Definition isAbortError (e : thrown) : bool :=
  match e with
  | JsDOMException name _ => str_eqb name (lit "AbortError")
  | _ => false
  end.

Section SummarizeAction.

Variable P : Platform.
Variable W : Type.
Variable net : Net W.
Variable settings : SummarizeSettings.

(** [executeStreamingSummarize(content, editor, options)], started in the
    state [st] whose host part is replaced by the fresh context.  The object
    handed to [summarize] also carries [abortSignal]; [summarize] has no such
    option. *)
Definition executeStreamingSummarize (text : jsstring) (e : Editor)
    (length : option SummaryLength) (model : option jsstring)
  : M W ActionHost StreamingResult :=
  on_host (fun _ => setupStreamingInsert e) ;;;
  try_finally
    (try_catch
       (response <- summarize P net settings escapeHandler text
          (mkOptions
             (Some match length with Some l => l | None => defaultLength settings end)
             None model None (Some handleStreamChunk)) ;;
        ret (mkStreamingResult (res_content response) false))
       (fun error =>
          if isAbortError error then
            emit (ENotice (lit "Summarization cancelled")) ;;;
            ctx <- get_host ;;
            ret (mkStreamingResult (VStr (currentContent ctx)) true)
          else throw error))
    cleanup.

End SummarizeAction.

(* ================================================================== *)
(** * A concrete platform and scripted worlds *)
(* ================================================================== *)

Module Sample.

(** [new URL] on the URLs of the examples: absolute http or https URLs in
    lower case, without user info, port, query or fragment, whose path needs
    no normalisation.  The host runs up to the first slash; the path is the
    rest, or a single slash. *)
Definition parseUrl (s : jsstring) : option URL :=
  let parse rest :=
    let host := takeWhile (fun c => negb (N.eqb c 47)) rest in
    let path := skipn (length host) rest in
    match host with
    | [] => None
    | _ => Some (mkURL host (match path with [] => [47%N] | _ => path end))
    end in
  if startsWith (lit "https://") s then parse (skipn 8 s)
  else if startsWith (lit "http://") s then parse (skipn 7 s)
  else None.

(** A frame of a completion stream carrying a piece of text, and its
    source text. *)
Definition deltaValue (text : jsstring) : value :=
  VObj [(lit "choices", VArr [VObj [(lit "delta", VObj [(lit "content", VStr text)])]])].

Definition deltaText (text : jsstring) : jsstring :=
  litq "{'choices':[{'delta':{'content':'" ++ text ++ litq "'}}]}".

(** A frame carrying an error, and its source text. *)
Definition errorValue (msg : jsstring) : value :=
  VObj [(lit "error", VObj [(lit "message", VStr msg)])].

Definition errorFrameText (msg : jsstring) : jsstring :=
  litq "{'error':{'message':'" ++ msg ++ litq "'}}".

(** [JSON.parse] on the frames of the examples; any other text is taken
    to be malformed. *)
Definition frames : list (jsstring * value) :=
  [(deltaText (lit "Hello"), deltaValue (lit "Hello"));
   (deltaText (lit " world"), deltaValue (lit " world"));
   (errorFrameText (lit "Rate limit exceeded"), errorValue (lit "Rate limit exceeded"));
   (errorFrameText (lit "Provider returned error"), errorValue (lit "Provider returned error"));
   (litq "{'model':'server/model-x','choices':[{'delta':{'content':'Hello'}}]}",
    VObj [(lit "model", VStr (lit "server/model-x"));
          (lit "choices", VArr [VObj [(lit "delta", VObj [(lit "content", VStr (lit "Hello"))])]])])].

Definition parseFrame (s : jsstring) : outcome value :=
  match find (fun p => str_eqb (fst p) s) frames with
  | Some p => Return (snd p)
  | None => Throw (JsError (lit "SyntaxError") (lit "Unexpected token in JSON"))
  end.

(** [JSON.stringify] on values whose strings need no escape. *)
Fixpoint stringify (v : value) : jsstring :=
  match v with
  | VUndefined => lit "undefined"
  | VNull => lit "null"
  | VBool true => lit "true"
  | VBool false => lit "false"
  | VNum _ text => text
  | VStr s => [34%N] ++ s ++ [34%N]
  | VArr items =>
      lit "["
      ++ (fix go (l : list value) : jsstring :=
            match l with
            | [] => []
            | x :: r =>
                stringify x ++ match r with [] => [] | _ => lit "," ++ go r end
            end) items
      ++ lit "]"
  | VObj fields =>
      lit "{"
      ++ (fix go (l : list (jsstring * value)) : jsstring :=
            match l with
            | [] => []
            | (k, x) :: r =>
                [34%N] ++ k ++ [34%N] ++ lit ":" ++ stringify x
                ++ match r with [] => [] | _ => lit "," ++ go r end
            end) fields
      ++ lit "}"
  end.

(** A platform whose pages are plain text: the document is its source, no
    selector matches, and Turndown returns its input. *)
Definition platform : Platform :=
  @mkPlatform
    parseUrl
    parseFrame
    stringify
    (fun _ => lit "[object Object]")
    (map asciiLower)
    (fun _ k => lit "Cannot read properties of null (reading '" ++ k ++ lit "')")
    jsstring
    jsstring
    (fun html => html)
    (fun _ _ => None)
    (fun _ _ => None)
    (fun e => e)
    (fun e => e)
    (fun doc => Some doc)
    (fun e _ => e)
    (fun html => html).

(** A world that counts the requests it has answered. *)
Definition scripted (fetchAnswer : nat -> FetchInit -> outcome Response)
    (requestAnswer : nat -> RequestUrlParam -> outcome RequestUrlResponse) : Net nat :=
  mkNet (fun init n => (fetchAnswer n init, S n))
        (fun param n => (requestAnswer n param, S n)).

Definition networkError : thrown := JsError (lit "TypeError") (lit "fetch failed").

Definition unreachable {A} : outcome A := Throw networkError.

(** A successful response with a text body. *)
Definition okText (url text : jsstring) : Response :=
  mkResponse 200 (lit "OK") url (Return text) None.

Definition start {U} (u : U) : State nat U := mkState 0 u [].

(** A world that answers every [fetch] by its URL. *)
Definition pages (table : list (jsstring * jsstring)) : Net nat :=
  scripted
    (fun _ init =>
       match find (fun p => str_eqb (fst p) (f_url init)) table with
       | Some p => Return (okText (f_url init) (snd p))
       | None => unreachable
       end)
    (fun _ param =>
       match find (fun p => str_eqb (fst p) (q_url param)) table with
       | Some p => Return (mkRequestResponse 200 (snd p) unreachable)
       | None => unreachable
       end).

Definition settings (rank : list jsstring) : SummarizeSettings :=
  mkSettings (lit "key") (lit "auto-free") medium None [] rank [].

(** *** A tweet with a link to an article *)

Definition tweetUrl : jsstring := lit "https://x.com/u/status/1".
Definition tweetText : jsstring := lit "see https://example.com/a.".
Definition linkUrl : jsstring := lit "https://example.com/a".
Definition linkedText : jsstring := lit "hello world".

Definition tweetNet : Net nat :=
  pages [(lit "https://r.jina.ai/" ++ tweetUrl, tweetText); (linkUrl, linkedText)].

(** The same tweet when the article cannot be fetched. *)
Definition lonelyTweetNet : Net nat :=
  pages [(lit "https://r.jina.ai/" ++ tweetUrl, tweetText)].

Definition tweet : ExtractedContent := mkExtracted tweetText tweetText tweetUrl 2.
Definition linked : ExtractedContent :=
  mkExtracted (lit "Untitled") linkedText linkUrl 2.

(** A tweet whose own text holds the marker of a linked article. *)
Definition markedText : jsstring := lit "## Linked Article: see https://example.com/a".

Definition markedNet : Net nat :=
  pages [(lit "https://r.jina.ai/" ++ tweetUrl, markedText); (linkUrl, linkedText)].

Definition markedTweet : ExtractedContent :=
  mkExtracted markedText markedText tweetUrl 5.

(** *** A file on GitHub *)

Definition blobUrl : jsstring := lit "https://github.com/o/r/blob/main/f.md".
Definition rawUrl : jsstring := lit "https://raw.githubusercontent.com/o/r/main/f.md".
Definition rawBody : jsstring := lit "a" ++ [LF; LF; LF] ++ lit "b".
Definition rawNet : Net nat := pages [(rawUrl, rawBody)].

(** *** A shortener whose destination cannot be reached *)

Definition shortUrl : jsstring := lit "https://t.co/abc".
Definition deadNet : Net nat := pages [].

(** *** Three ranked models, the first two rate limited *)

Definition modelA : jsstring := lit "a/model:free".
Definition modelB : jsstring := lit "b/model:free".
Definition modelC : jsstring := lit "c/model:free".

Definition answerC : value :=
  VObj [(lit "model", VStr (lit "server/model-c"));
        (lit "choices",
         VArr [VObj [(lit "message", VObj [(lit "content", VStr (lit "Summary"))])]])].

Definition rateLimitedResponse : RequestUrlResponse :=
  mkRequestResponse 429 (lit "Too Many Requests") unreachable.

Definition rankedNet : Net nat :=
  scripted (fun _ _ => unreachable)
    (fun n _ =>
       match n with
       | 0 | 1 => Return rateLimitedResponse
       | _ => Return (mkRequestResponse 200 [] (Return answerC))
       end).

(** *** Streams *)

Definition streamSettings : SummarizeSettings :=
  mkSettings (lit "key") (lit "test/model") medium None [] [] [].

Definition dataLine (payload : jsstring) : jsstring :=
  lit "data: " ++ payload ++ [LF; LF].

(** A world whose every [fetch] is answered by a stream with the given
    events. *)
Definition streamNet (events : list BodyEvent) : Net nat :=
  scripted (fun _ init => Return (mkResponse 200 (lit "OK") (f_url init) unreachable
                                    (Some events)))
           (fun _ _ => unreachable).

(** Two chunks of text, with Escape pressed after the first was delivered. *)
Definition cancelledStream : list BodyEvent :=
  [Read (dataLine (deltaText (lit "Hello")));
   KeyDown (lit "Escape");
   Read (dataLine (deltaText (lit " world")) ++ dataLine (lit "[DONE]"))].

(** A stream whose first frame carries an error. *)
Definition failingStream (msg : jsstring) : list BodyEvent :=
  [Read (dataLine (errorFrameText msg) ++ dataLine (deltaText (lit "Hello"))
         ++ dataLine (lit "[DONE]"))].

(** A stream whose frame echoes a model id of the server. *)
Definition echoingStream : list BodyEvent :=
  [Read (dataLine (litq "{'model':'server/model-x','choices':[{'delta':{'content':'Hello'}}]}")
         ++ dataLine (lit "[DONE]"))].

(** A callback that does nothing. *)
Definition quiet : callback unit := fun _ u => (Return tt, u).

Definition noKeys : jsstring -> unit -> unit := fun _ u => u.

(** An editor with the cursor on a list item. *)
Definition listEditor : Editor :=
  mkEditor [] (mkPos 3 0) (mkPos 3 0) (fun _ => lit "- item") [].

Definition isStreamEffect (e : Effect) : bool :=
  match e with EStream _ => true | _ => false end.

End Sample.

(* ================================================================== *)
(** * Further definitions for the properties *)
(* ================================================================== *)

(** No position of [s] at the start of a line carries a match of [\s+$];
    [prev] is the character before [s]. *)
Fixpoint no_blank_match (prev : option char) (s : jsstring) : bool :=
  match s with
  | [] => true
  | c :: s' =>
      (if at_line_start prev
       then match blank_match s with None => true | Some _ => false end
       else true)
      && no_blank_match (Some c) s'
  end.

(** A text of white space only. *)
Definition isBlank (s : jsstring) : bool := forallb isSpace s.

(** A request sent to the network. *)
Definition isRequest (e : Effect) : bool :=
  match e with
  | EFetch _ | ERequestUrl _ => true
  | ENotice _ | EStream _ => false
  end.

(** The number of requests among the effects. *)
Definition requests (t : list Effect) : nat := length (filter isRequest t).

(** A computation that only talks to the network: it leaves the caller's
    part of the state alone and adds at most [n] effects, all of them
    requests. *)
Definition requestsOnly {W U A} (n : nat) (m : M W U A) : Prop :=
  forall st,
    host (snd (m st)) = host st
    /\ exists effs,
         trace (snd (m st)) = trace st ++ effs
         /\ forallb isRequest effs = true
         /\ length effs <= n.

(** A computation that sends at most [n] requests, whatever else it does. *)
Definition sendsAtMost {W U A} (n : nat) (m : M W U A) : Prop :=
  forall st,
    exists effs,
      trace (snd (m st)) = trace st ++ effs /\ requests effs <= n.

(** The chunks handed to the streaming callback, in order. *)
Definition streamed (t : list Effect) : list value :=
  flat_map (fun e => match e with EStream chunk => [chunk] | _ => [] end) t.

(** The effects of a fallback in which every ranked model is rate limited:
    a request and a notice per model. *)
Definition exhaustedTrace (P : Platform) (settings : SummarizeSettings)
    (prompt : jsstring) (rank : list jsstring) : list Effect :=
  flat_map (fun modelId =>
              [ERequestUrl (completionRequest P settings modelId prompt);
               ENotice (rateLimitedNotice settings modelId)])
           rank.

(** A text without an opening brace, and one without a dollar sign. *)
Definition noOpenBrace (s : jsstring) : bool :=
  forallb (fun c => negb (N.eqb c 123)) s.

Definition noDollar (s : jsstring) : bool :=
  forallb (fun c => negb (N.eqb c 36)) s.

(** The default prompt between its two placeholders. *)
Definition defaultPromptRules : jsstring :=
  lit " words." ++ [LF; LF]
  ++ lit "Rules:" ++ [LF]
  ++ lit "- Lead with the single most important insight or finding" ++ [LF]
  ++ lit "- Format as bullets: one-liner " ++ litq "'why this matters'" ++ lit ", then elaboration" ++ [LF]
  ++ lit "- Include specific details: numbers, names, concrete examples" ++ [LF]
  ++ lit "- Skip meta-commentary (" ++ litq "'This article discusses...'" ++ lit ")" ++ [LF]
  ++ lit "- Skip obvious context (" ++ litq "'In today" ++ lit "'s world..." ++ litq "'" ++ lit ")" ++ [LF]
  ++ lit "- If something important is NOT covered, note it briefly at the end" ++ [LF; LF].

(** A computation every run of which relates the state before to the state
    after by [R], whatever its outcome. *)
Definition respects {W U A} (R : State W U -> State W U -> Prop) (m : M W U A) : Prop :=
  forall st, R st (snd (m st)).

(** From one state to a later one only truthy chunks have been handed to
    the callback. *)
Definition truthyChunks {W U} (st st' : State W U) : Prop :=
  exists effs,
    trace st' = trace st ++ effs
    /\ forallb truthy (streamed effs) = true.

(** The text of a chunk that [handleStreamChunk] accepts. *)
Definition chunkText (chunk : value) : jsstring :=
  match chunk with
  | VStr s => s
  | _ => []
  end.

(** The texts handed to [replaceRange], put end to end. *)
Definition insertedText (e : Editor) : jsstring :=
  concat (map fst (replaced e)).

(** The streamed text as it is written: the indent in front and after
    every line feed. *)
Definition writtenText (ind content : jsstring) : jsstring :=
  match content with
  | [] => []
  | _ => ind ++ indentNewlines ind content
  end.

(** What a streaming insertion keeps from one state to a later one: the
    content of the context grows by the string chunks streamed meanwhile, the
    indent stays, and the texts handed to the editor stay the text [base]
    followed by the content as it is written. *)
Definition streamingStep {W} (base : jsstring) (st st' : State W ActionHost) : Prop :=
  (exists effs,
      trace st' = trace st ++ effs
      /\ currentContent (host st')
         = currentContent (host st) ++ flat_map chunkText (streamed effs))
  /\ indent (host st') = indent (host st)
  /\ (insertedText (editor (host st))
        = base ++ writtenText (indent (host st)) (currentContent (host st)) ->
      insertedText (editor (host st'))
        = base ++ writtenText (indent (host st')) (currentContent (host st'))).

(** The number of line feeds of a text, and its last line. *)
Definition lineFeeds (s : jsstring) : nat := length (filter (N.eqb LF) s).

Definition lastLine (s : jsstring) : jsstring := last (split_char LF s) [].

Definition hasLineFeed (s : jsstring) : bool := existsb (N.eqb LF) s.

Definition noLineFeed (s : jsstring) : bool := negb (hasLineFeed s).

(** The [try] and [catch] blocks of [executeStreamingSummarize]. *)
Definition streamingBody (P : Platform) {W} (net : Net W) (settings : SummarizeSettings)
    (text : jsstring) (length : option SummaryLength) (model : option jsstring)
  : M W ActionHost StreamingResult :=
  try_catch
    (response <- summarize P net settings escapeHandler text
       (mkOptions
          (Some match length with Some l => l | None => defaultLength settings end)
          None model None (Some handleStreamChunk)) ;;
     ret (mkStreamingResult (res_content response) false))
    (fun error =>
       if isAbortError error then
         emit (ENotice (lit "Summarization cancelled")) ;;;
         ctx <- get_host ;;
         ret (mkStreamingResult (VStr (currentContent ctx)) true)
       else throw error).

(** The last piece of [split_char_go LF cur s]. *)
Fixpoint lastLine_go (cur s : jsstring) : jsstring :=
  match s with
  | [] => rev cur
  | c :: s' => if N.eqb c LF then lastLine_go [] s' else lastLine_go (c :: cur) s'
  end.

(* ================================================================== *)
(** * SummarizeAction: the URLs of a selection and the insertion of a
      finished summary (src/actions/summarize.ts) *)
(* ================================================================== *)

Definition notCloseBracket (c : char) : bool := negb (N.eqb c 93).

Definition notCloseParen (c : char) : bool := negb (N.eqb c 41).

(** Group 2 of the markdown-link pattern at the head of [s]: http or
    https, the two slashes, then one or more characters other than a closing
    parenthesis, greedy, after which a closing parenthesis has to follow; the
    length of the group. *)
Definition md_target (s : jsstring) : option nat :=
  let rest n :=
    match length (takeWhile notCloseParen (skipn n s)) with
    | O => None
    | m =>
        match skipn (n + m) s with
        | _ :: _ => Some (n + m)
        | [] => None
        end
    end in
  if startsWith (lit "https://") s then rest 8
  else if startsWith (lit "http://") s then rest 7
  else None.

(** The match of the markdown-link pattern (an opening square bracket, any
    characters other than a closing square bracket, the closing bracket, an
    opening parenthesis, group 2, a closing parenthesis) at the head of [s]:
    the length of the match and group 2. *)
Definition md_match (s : jsstring) : option (nat * jsstring) :=
  match s with
  | c :: s1 =>
      if N.eqb c 91 then
        let label := takeWhile notCloseBracket s1 in
        let s2 := skipn (length label) s1 in
        if startsWith (lit "](") s2 then
          let s3 := skipn 2 s2 in
          match md_target s3 with
          | Some n => Some (1 + length label + 2 + n + 1, firstn n s3)
          | None => None
          end
        else None
      else None
  | [] => None
  end.

(** The loop over [mdLinkRegex.exec(text)]: group 2 of every match, from
    left to right. *)
Fixpoint md_links_go (skip : nat) (s : jsstring) : list jsstring :=
  match s with
  | [] => []
  | _ :: s' =>
      match skip with
      | S k => md_links_go k s'
      | O =>
          match md_match s with
          | Some (S k, g) => g :: md_links_go k s'
          | _ => md_links_go 0 s'
          end
      end
  end.

Definition md_links (s : jsstring) : list jsstring := md_links_go 0 s.

(** The body of both loops of [extractUrls]; the state is the array [urls]
    and the set [seen], in insertion order. *)
Definition addUrl (P : Platform) (acc : list jsstring * list jsstring) (url : jsstring)
  : list jsstring * list jsstring :=
  let '(urls, seen) := acc in
  if existsb (str_eqb url) seen then acc
  else
    match URL_parse P url with
    | Some _ => (urls ++ [url], seen ++ [url])
    | None => acc
    end.

Definition extractUrls (P : Platform) (text : jsstring) : list jsstring :=
  let bare := map (dropEndWhile isTrailingPunct) (url_matches text) in
  let afterBare := fold_left (addUrl P) bare ([], []) in
  fst (fold_left (addUrl P) (md_links text) afterBare).

(** The test of the bare-URL pattern of [extractSingleUrl], which is
    anchored at both ends: the scheme, then one or more characters, none of
    them white space, up to the end. *)
Definition isBareUrl (s : jsstring) : bool :=
  let rest n :=
    match skipn n s with
    | [] => false
    | r => forallb (fun c => negb (isSpace c)) r
    end in
  if startsWith (lit "https://") s then rest 8
  else if startsWith (lit "http://") s then rest 7
  else false.

Definition extractSingleUrl (P : Platform) (text : jsstring) : option jsstring :=
  let trimmed := trim text in
  if isBareUrl trimmed then
    match URL_parse P trimmed with
    | Some _ => Some trimmed
    | None => None
    end
  else
    match md_match trimmed with
    | Some (n, g) =>
        if n =? length trimmed then
          match URL_parse P g with
          | Some _ => Some g
          | None => None
          end
        else None
    | None => None
    end.

Definition formatSummary (summary : jsstring) : jsstring := trim summary.

(** [l.trim() ? summaryIndent + l : the empty string] *)
Definition indentLine (summaryIndent l : jsstring) : jsstring :=
  if nonempty (trim l) then summaryIndent ++ l else [].

(** The filter that removes an empty line that follows an empty line of
    the array filtered; [prev] is the element before. *)
Fixpoint dropRepeatedEmpty (prev : option jsstring) (arr : list jsstring)
  : list jsstring :=
  match arr with
  | [] => []
  | l :: rest =>
      if negb (nonempty l)
         && match prev with Some p => negb (nonempty p) | None => false end
      then dropRepeatedEmpty (Some l) rest
      else l :: dropRepeatedEmpty (Some l) rest
  end.

(** [arr.join(sep)] *)
Fixpoint join (sep : jsstring) (arr : list jsstring) : jsstring :=
  match arr with
  | [] => []
  | x :: rest =>
      match rest with
      | [] => x
      | _ => x ++ sep ++ join sep rest
      end
  end.

Definition indentedLines (summaryIndent formattedSummary : jsstring) : list jsstring :=
  dropRepeatedEmpty None
    (map (indentLine summaryIndent) (split_char LF formattedSummary)).

Definition indentedSummary (summaryIndent formattedSummary : jsstring) : jsstring :=
  join [LF] (indentedLines summaryIndent formattedSummary).

(** [insertSummary] with the insert behaviour below, which is the
    default. *)
Definition insertSummaryBelow (summary : jsstring) (e : Editor) : Editor :=
  let formattedSummary := formatSummary summary in
  let selection := getSelection e in
  let cursor := if nonempty selection then getCursorTo e else getCursor e in
  let ln := getLine e (line cursor) in
  let insertPos := mkPos (line cursor) (length ln) in
  let baseIndent := takeWhile isSpace ln in
  let isListItem := isListItemLine ln in
  let summaryIndent := if isListItem then baseIndent ++ [9%N] else baseIndent in
  replaceRange (LF :: indentedSummary summaryIndent formattedSummary) insertPos e.

(* ================================================================== *)
(** * The LLMService of the command-line tool (test/cli-test.ts) *)
(* ================================================================== *)

Definition DEFAULT_FREE_MODELS : list jsstring :=
  map lit ["meta-llama/llama-3.3-70b-instruct:free";
           "google/gemini-2.0-flash-exp:free";
           "mistralai/mistral-small-3.1-24b-instruct:free";
           "qwen/qwen3-32b:free"]%string.

(** [getFreeModelRank]; [configured] is the rank of the settings file
    that [loadPluginSettings] has found, if any. *)
Definition getFreeModelRank (configured : option (list jsstring)) : list jsstring :=
  match configured with
  | Some (m :: rest) => m :: rest
  | _ => DEFAULT_FREE_MODELS
  end.

Definition cli_buildPrompt (text : jsstring) (length : SummaryLength)
    (language : jsstring) : jsstring :=
  let wordCount := LENGTH_WORD_COUNTS length in
  let languageInstruction :=
    match language with
    | [] => lit "Write the summary in the same language as the source content."
    | _ => lit "Write the summary in " ++ language ++ lit "."
    end in
  lit "Summarize the following content in approximately " ++ decimal wordCount
    ++ lit " words." ++ [LF; LF]
    ++ lit "Instructions:" ++ [LF]
    ++ lit "- Focus on the key points and main ideas" ++ [LF]
    ++ lit "- " ++ languageInstruction ++ [LF]
    ++ lit "- Use clear, concise language" ++ [LF]
    ++ lit "- Maintain the original meaning and intent" ++ [LF]
    ++ lit "- Do not include meta-commentary like "
    ++ litq "'This article discusses...'" ++ [LF]
    ++ lit "- Start directly with the summary content" ++ [LF; LF]
    ++ lit "Content to summarize:" ++ [LF]
    ++ lit "---" ++ [LF]
    ++ text ++ [LF]
    ++ lit "---" ++ [LF; LF]
    ++ lit "Summary:".

(** The result of the tool's [summarize]. *)
Record CliResponse : Type := mkCliResponse {
  cli_content : value;
  cli_model : value
}.

Section CliLLMService.

Variable P : Platform.
Variables W U : Type.
Variable net : Net W.
Variable apiKey : jsstring.

(** The rank that [getFreeModelRank] reads from the settings file. *)
Variable configured : option (list jsstring).

Definition cli_completionRequest (model prompt : jsstring) : FetchInit :=
  mkFetch OPENROUTER_API_URL (Some (lit "POST")) None
    [(lit "Authorization", lit "Bearer " ++ apiKey);
     (lit "Content-Type", lit "application/json");
     (lit "HTTP-Referer", lit "https://obsidian.md");
     (lit "X-Title", lit "Obsidian Summarize Plugin Test")]
    (Some (JSON_stringify P
             (VObj [(lit "model", VStr model);
                    (lit "messages",
                     VArr [VObj [(lit "role", VStr (lit "user"));
                                 (lit "content", VStr prompt)]]);
                    (lit "max_tokens", VNum false (lit "1024"))]))).

(** [completion]; [response.json()] reads the body and parses it. *)
Definition cli_completion (model prompt : jsstring) : M W U CliResponse :=
  response <- fetch net (cli_completionRequest model prompt) ;;
  if negb (r_ok response) then
    errorText <- lift (r_text response) ;;
    throw (newError (lit "OpenRouter API error: " ++ decimal (r_status response)
                       ++ lit " - " ++ errorText))
  else
    body <- lift (r_text response) ;;
    data <- lift (JSON_parse P body) ;;
    err <- lift (read_prop P data (lit "error")) ;;
    if truthy err then throw (newError (errorText P err))
    else
      ret (mkCliResponse
             (or_else (firstChoice "message" data) (VStr []))
             (or_else (opt_prop data (lit "model")) (VStr model))).

Definition cli_allRateLimited (lastError : option thrown) : thrown :=
  newError (lit "All free models rate limited. Last error: "
              ++ match lastError with
                 | Some e => message e
                 | None => lit "undefined"
                 end).

(** The [for] loop of [completionWithFallback]. *)
Fixpoint cli_fallbackLoop (prompt : jsstring) (freeModels : list jsstring)
    (lastError : option thrown) : M W U CliResponse :=
  match freeModels with
  | [] => throw (cli_allRateLimited lastError)
  | modelId :: rest =>
      try_catch (cli_completion modelId prompt)
        (fun error =>
           let lastError := asError error in
           if isRateLimit P lastError then
             cli_fallbackLoop prompt rest (Some lastError)
           else throw lastError)
  end.

Definition cli_completionWithFallback (prompt : jsstring) : M W U CliResponse :=
  cli_fallbackLoop prompt (getFreeModelRank configured) None.

Definition cli_summarize (text : jsstring) (length : option SummaryLength)
    (language model : option jsstring) : M W U CliResponse :=
  let model := str_or (match model with Some m => m | None => [] end) (lit "auto-free") in
  let length := match length with Some l => l | None => medium end in
  let language := match language with Some l => l | None => [] end in
  let prompt := cli_buildPrompt text length language in
  if str_eqb model (lit "auto-free") then cli_completionWithFallback prompt
  else cli_completion model prompt.

End CliLLMService.

(* ================================================================== *)
(** * Further scripted worlds *)
(* ================================================================== *)

Module MoreSample.

Import Sample.

(** A world in which every request of the plugin is rate limited. *)
Definition busyNet : Net nat :=
  scripted (fun _ _ => unreachable) (fun _ _ => Return rateLimitedResponse).

(** A world in which every [fetch] is answered with status 429. *)
Definition busyFetchNet : Net nat :=
  scripted
    (fun _ init =>
       Return (mkResponse 429 (lit "Too Many Requests") (f_url init)
                 (Return (lit "slow down")) None))
    (fun _ _ => unreachable).

(** A server error whose body mentions the digits 429. *)
Definition overloadedResponse : RequestUrlResponse :=
  mkRequestResponse 503 (lit "upstream answered 429") unreachable.

Definition overloadedNet : Net nat :=
  scripted (fun _ _ => unreachable) (fun _ _ => Return overloadedResponse).


(** A context in the middle of a streaming insertion below a list item. *)
Definition midStream : ActionHost :=
  mkHost listEditor (mkPos 4 0) [9%N] (lit "a" ++ [LF] ++ lit "b") true false.

(** A selection that holds the same URL bare and as a markdown link. *)
Definition selectionText : jsstring :=
  lit "see https://example.com/a. and [x](https://example.com/a)".

End MoreSample.

(* ================================================================== *)
(** * Properties *)
(* ================================================================== *)

Unset Implicit Arguments.

(* ================================================================== *)
(** * Properties of the text helpers *)
(* ================================================================== *)

Lemma lineTerminator_isSpace (c : char) :
  isLineTerminator c = true -> isSpace c = true.
Proof.
  unfold isLineTerminator. intros H.
  repeat (apply orb_true_iff in H; destruct H as [H | H]);
    apply N.eqb_eq in H; subst c; reflexivity.
Qed.

Lemma LF_isSpace : isSpace LF = true.
Proof. reflexivity. Qed.

Lemma nonempty_rev (s : jsstring) : nonempty (rev s) = nonempty s.
Proof.
  destruct s as [| c s]; [reflexivity |].
  simpl. destruct (rev s); reflexivity.
Qed.

(** The pieces of [split(/\s+/)] that are not empty are the tokens. *)
Lemma split_ws_go_count (s : jsstring) :
  forall inrun cur,
    (inrun = true -> cur = []) ->
    length (filter nonempty (split_ws_go inrun cur s))
    = (if nonempty cur then 1 else 0) + token_count_from (nonempty cur) s.
Proof.
  induction s as [| c s IH]; intros inrun cur Hrun; simpl.
  - rewrite nonempty_rev. destruct (nonempty cur); reflexivity.
  - destruct (isSpace c) eqn:Hc.
    + destruct inrun.
      * rewrite (Hrun eq_refl). rewrite IH by reflexivity. reflexivity.
      * simpl. rewrite nonempty_rev.
        destruct (nonempty cur); simpl; rewrite IH by reflexivity; reflexivity.
    + rewrite IH by discriminate. simpl.
      destruct (nonempty cur); simpl; lia.
Qed.

Lemma token_count_trimStart (s : jsstring) :
  token_count_from false (trimStart s) = token_count_from false s.
Proof.
  induction s as [| c s IH]; simpl; [reflexivity |].
  destruct (isSpace c) eqn:Hc; simpl; [exact IH | rewrite Hc; reflexivity].
Qed.

Lemma dropEndWhile_nil_tokens (s : jsstring) :
  dropEndWhile isSpace s = [] -> forall b, token_count_from b s = 0.
Proof.
  induction s as [| c s IH]; simpl; intros H b; [reflexivity |].
  destruct (dropEndWhile isSpace s) eqn:Hd; [| discriminate].
  destruct (isSpace c); [| discriminate].
  apply IH. reflexivity.
Qed.

Lemma token_count_trimEnd (s : jsstring) :
  forall b, token_count_from b (trimEnd s) = token_count_from b s.
Proof.
  unfold trimEnd.
  induction s as [| c s IH]; simpl; intros b; [reflexivity |].
  destruct (dropEndWhile isSpace s) as [| d t] eqn:Hd.
  - pose proof (dropEndWhile_nil_tokens s Hd) as Hz.
    destruct (isSpace c) eqn:Hc; simpl.
    + rewrite Hz. reflexivity.
    + rewrite Hc, Hz. reflexivity.
  - change (token_count_from b (c :: d :: t)) with
      (if isSpace c then token_count_from false (d :: t)
       else (if b then 0 else 1) + token_count_from true (d :: t)).
    rewrite !IH. reflexivity.
Qed.

Lemma token_count_trim (s : jsstring) :
  token_count (trim s) = token_count s.
Proof.
  unfold token_count, trim.
  rewrite token_count_trimEnd. apply token_count_trimStart.
Qed.

(** [countWords] counts the white-space separated tokens. *)
Lemma countWords_token_count (s : jsstring) :
  countWords s = token_count s.
Proof.
  unfold countWords, split_ws.
  rewrite split_ws_go_count by discriminate.
  simpl. apply token_count_trim.
Qed.

Lemma token_count_app (x y : jsstring) :
  forall b,
    token_count_from b (x ++ y)
    = token_count_from b x + token_count_from (inword_after b x) y.
Proof.
  induction x as [| c x IH]; intros b; simpl; [reflexivity |].
  destruct (isSpace c); simpl; rewrite IH; lia.
Qed.

Lemma token_count_from_space (b : bool) (c : char) (s : jsstring) :
  isSpace c = true -> token_count_from b (c :: s) = token_count_from false s.
Proof. intros H. simpl. rewrite H. reflexivity. Qed.

Lemma trimStart_head (s : jsstring) :
  match trimStart s with
  | [] => True
  | c :: _ => isSpace c = false
  end.
Proof.
  induction s as [| c s IH]; simpl; [exact I |].
  destruct (isSpace c) eqn:Hc; [exact IH | exact Hc].
Qed.

Lemma dropEndWhile_last (f : char -> bool) (s : jsstring) :
  forall d, dropEndWhile f s <> [] -> f (last (dropEndWhile f s) d) = false.
Proof.
  induction s as [| c s IH]; simpl; intros d H; [congruence |].
  destruct (dropEndWhile f s) as [| e t] eqn:Hd.
  - destruct (f c) eqn:Hc; [congruence | exact Hc].
  - change (last (c :: e :: t) d) with (last (e :: t) d).
    apply IH. discriminate.
Qed.

Lemma dropEndWhile_head (f : char -> bool) (c : char) (s : jsstring) :
  f c = false -> exists t, dropEndWhile f (c :: s) = c :: t.
Proof.
  intros Hc. simpl.
  destruct (dropEndWhile f s) as [| e t].
  - rewrite Hc. exists []. reflexivity.
  - exists (e :: t). reflexivity.
Qed.

(** [trim] leaves no white space at either end. *)
Lemma trim_is_trimmed (s : jsstring) : is_trimmed (trim s) = true.
Proof.
  unfold trim, trimEnd.
  pose proof (trimStart_head s) as Hh.
  destruct (trimStart s) as [| c r]; [reflexivity |].
  destruct (dropEndWhile_head isSpace c r Hh) as [t Ht].
  pose proof (dropEndWhile_last isSpace (c :: r) c) as Hl.
  rewrite Ht in *. unfold is_trimmed.
  rewrite Hh. rewrite Hl by discriminate. reflexivity.
Qed.

Lemma trim_idempotent_tokens (s : jsstring) :
  countWords (trim s) = countWords s.
Proof. rewrite !countWords_token_count. apply token_count_trim. Qed.

(** ** No run of three line feeds after [cleanMarkdown] *)

Lemma blank_match_positive (s : jsstring) : blank_match s <> Some 0.
Proof.
  destruct s as [| c s]; simpl; [discriminate |].
  destruct (isSpace c); [| discriminate].
  destruct (blank_match s); [discriminate |].
  destruct (at_line_end s); discriminate.
Qed.

(** The match is the longest one: nothing matches where it ends. *)
Lemma blank_match_longest (s : jsstring) :
  forall k, blank_match s = Some k -> blank_match (skipn k s) = None.
Proof.
  induction s as [| c s IH]; simpl; intros k H; [discriminate |].
  destruct (isSpace c); [| discriminate].
  destruct (blank_match s) as [j |] eqn:Hj.
  - injection H as <-. simpl. apply IH. reflexivity.
  - destruct (at_line_end s); [| discriminate].
    injection H as <-. simpl. exact Hj.
Qed.

Lemma strip_blank_go_emit (prev : option char) (c : char) (s : jsstring) :
  blank_match (c :: s) = None ->
  strip_blank_go prev 0 (c :: s) = c :: strip_blank_go (Some c) 0 s.
Proof.
  intros H.
  change (strip_blank_go prev 0 (c :: s)) with
    (if at_line_start prev then
       match blank_match (c :: s) with
       | Some (S k) => strip_blank_go (Some c) k s
       | _ => c :: strip_blank_go (Some c) 0 s
       end
     else c :: strip_blank_go (Some c) 0 s).
  rewrite H. destruct (at_line_start prev); reflexivity.
Qed.

Lemma blank_match_none_LF (s : jsstring) :
  blank_match (LF :: s) = None ->
  exists d s', s = d :: s' /\ N.eqb d LF = false /\ blank_match s = None.
Proof.
  simpl. destruct (blank_match s) eqn:Hs; [discriminate |].
  destruct (at_line_end s) eqn:He; [discriminate |]. intros _.
  destruct s as [| d s']; [discriminate |].
  exists d, s'. repeat split.
  destruct (N.eqb d LF) eqn:E; [| reflexivity].
  apply N.eqb_eq in E. subst d. discriminate.
Qed.

(** Where nothing matches, a line feed is followed by a character that is
    no line feed. *)
Lemma strip_blank_quiet (s : jsstring) :
  forall prev,
    blank_match s = None ->
    leading_newlines (strip_blank_go prev 0 s) <= 1.
Proof.
  destruct s as [| c s]; intros prev H; [simpl; lia |].
  rewrite (@strip_blank_go_emit prev _ _ H).
  change (leading_newlines (c :: strip_blank_go (Some c) 0 s)) with
    (if N.eqb c LF then S (leading_newlines (strip_blank_go (Some c) 0 s)) else 0).
  destruct (N.eqb c LF) eqn:Hc; [| lia].
  apply N.eqb_eq in Hc. subst c.
  destruct (@blank_match_none_LF _ H) as (d & s' & -> & Hd & Hs).
  rewrite (@strip_blank_go_emit (Some LF) _ _ Hs).
  change (leading_newlines (d :: strip_blank_go (Some d) 0 s')) with
    (if N.eqb d LF then S (leading_newlines (strip_blank_go (Some d) 0 s')) else 0).
  rewrite Hd. lia.
Qed.

Lemma strip_blank_after_match (s : jsstring) :
  forall prev k,
    blank_match (skipn k s) = None ->
    leading_newlines (strip_blank_go prev k s) <= 1.
Proof.
  induction s as [| c s IH]; intros prev k H.
  - simpl. lia.
  - destruct k as [| k].
    + apply strip_blank_quiet. exact H.
    + simpl. apply IH. exact H.
Qed.

(** At the start of a line the output begins with at most one line feed. *)
Lemma strip_blank_line_start (s : jsstring) :
  forall prev,
    at_line_start prev = true ->
    leading_newlines (strip_blank_go prev 0 s) <= 1.
Proof.
  intros prev Hp.
  destruct (blank_match s) as [k |] eqn:Hm.
  - destruct s as [| c s]; [simpl; lia |].
    destruct k as [| k]; [exfalso; exact (@blank_match_positive _ Hm) |].
    pose proof (@blank_match_longest _ _ Hm) as Hl.
    change (strip_blank_go prev 0 (c :: s)) with
      (if at_line_start prev then
         match blank_match (c :: s) with
         | Some (S k) => strip_blank_go (Some c) k s
         | _ => c :: strip_blank_go (Some c) 0 s
         end
       else c :: strip_blank_go (Some c) 0 s).
    rewrite Hp, Hm.
    apply strip_blank_after_match. exact Hl.
  - apply strip_blank_quiet. exact Hm.
Qed.

Lemma startsWith_newlines (n : nat) :
  forall s, startsWith (repeat LF n) s = true -> n <= leading_newlines s.
Proof.
  induction n as [| n IH]; intros s H; [lia |].
  destruct s as [| y s]; [discriminate |].
  cbn [repeat startsWith] in H.
  apply andb_true_iff in H. destruct H as [Hy Hs].
  apply N.eqb_eq in Hy. subst y.
  change (leading_newlines (LF :: s)) with (S (leading_newlines s)).
  apply IH in Hs. lia.
Qed.

Lemma startsWith_LF3 (s : jsstring) :
  startsWith [LF; LF; LF] s = true -> 3 <= leading_newlines s.
Proof. exact (startsWith_newlines 3 s). Qed.

Lemma has_newline_run3_cons (c : char) (s : jsstring) :
  has_newline_run3 s = false ->
  (N.eqb c LF = true -> leading_newlines s <= 1) ->
  has_newline_run3 (c :: s) = false.
Proof.
  intros Hs Hl.
  unfold has_newline_run3 in *.
  change (includes [LF; LF; LF] (c :: s)) with
    (startsWith [LF; LF; LF] (c :: s) || includes [LF; LF; LF] s).
  rewrite Hs, orb_false_r.
  destruct (startsWith [LF; LF; LF] (c :: s)) eqn:E; [| reflexivity].
  apply startsWith_LF3 in E.
  change (leading_newlines (c :: s)) with
    (if N.eqb c LF then S (leading_newlines s) else 0) in E.
  destruct (N.eqb c LF); [| lia].
  specialize (Hl eq_refl). lia.
Qed.

(** The second [replace] leaves no run of three line feeds, whatever its
    input. *)
Lemma strip_blank_go_no_run3 (s : jsstring) :
  forall prev k, has_newline_run3 (strip_blank_go prev k s) = false.
Proof.
  induction s as [| c s IH]; intros prev k; [reflexivity |].
  assert (Hemit : has_newline_run3 (c :: strip_blank_go (Some c) 0 s) = false).
  { apply has_newline_run3_cons; [apply IH |].
    intros Hc. apply N.eqb_eq in Hc. subst c.
    apply strip_blank_line_start. reflexivity. }
  destruct k as [| k]; [| exact (IH (Some c) k)].
  change (strip_blank_go prev 0 (c :: s)) with
    (if at_line_start prev then
       match blank_match (c :: s) with
       | Some (S k) => strip_blank_go (Some c) k s
       | _ => c :: strip_blank_go (Some c) 0 s
       end
     else c :: strip_blank_go (Some c) 0 s).
  destruct (at_line_start prev); [| exact Hemit].
  destruct (blank_match (c :: s)) as [[| j] |]; try exact Hemit.
  apply IH.
Qed.

Lemma startsWith_trans_prefix (p s t : jsstring) :
  startsWith p s = true -> startsWith p (s ++ t) = true.
Proof.
  revert s. induction p as [| x p IH]; intros s H; [reflexivity |].
  destruct s as [| y s]; [discriminate |].
  simpl in *. apply andb_true_iff in H. destruct H as [H1 H2].
  rewrite H1. simpl. apply IH. exact H2.
Qed.

Lemma includes_app_l (p s t : jsstring) :
  includes p s = true -> includes p (s ++ t) = true.
Proof.
  induction s as [| c s IH]; simpl; intros H.
  - rewrite orb_false_r in H. destruct p; [| discriminate].
    destruct t; reflexivity.
  - apply orb_true_iff in H. destruct H as [H | H].
    + change (startsWith p (c :: s ++ t)) with (startsWith p ((c :: s) ++ t)).
      rewrite (@startsWith_trans_prefix _ _ t H). reflexivity.
    + rewrite (IH H). apply orb_true_r.
Qed.

Lemma includes_app_r (p s t : jsstring) :
  includes p t = true -> includes p (s ++ t) = true.
Proof.
  induction s as [| c s IH]; simpl; intros H; [exact H |].
  rewrite (IH H). apply orb_true_r.
Qed.

Lemma trimStart_suffix (s : jsstring) : exists pre, s = pre ++ trimStart s.
Proof.
  induction s as [| c s [pre IH]]; simpl.
  - exists []. reflexivity.
  - destruct (isSpace c).
    + exists (c :: pre). simpl. rewrite <- IH. reflexivity.
    + exists []. reflexivity.
Qed.

Lemma dropEndWhile_prefix (f : char -> bool) (s : jsstring) :
  exists post, s = dropEndWhile f s ++ post.
Proof.
  induction s as [| c s [post IH]]; simpl.
  - exists []. reflexivity.
  - destruct (dropEndWhile f s) as [| e t] eqn:Hd.
    + destruct (f c).
      * exists (c :: s). reflexivity.
      * exists post. simpl. f_equal. exact IH.
    + exists post. simpl. f_equal. exact IH.
Qed.

Lemma includes_trim (p s : jsstring) :
  includes p (trim s) = true -> includes p s = true.
Proof.
  unfold trim, trimEnd. intros H.
  destruct (trimStart_suffix s) as [pre Hpre].
  destruct (dropEndWhile_prefix isSpace (trimStart s)) as [post Hpost].
  rewrite Hpre. apply includes_app_r.
  rewrite Hpost. apply includes_app_l. exact H.
Qed.

(** [cleanMarkdown] yields a trimmed text without a run of three line feeds. *)
Lemma cleanMarkdown_is_trimmed (markdown : jsstring) :
  is_trimmed (cleanMarkdown markdown) = true.
Proof. apply trim_is_trimmed. Qed.

Lemma cleanMarkdown_no_run3 (markdown : jsstring) :
  has_newline_run3 (cleanMarkdown markdown) = false.
Proof.
  unfold cleanMarkdown.
  destruct (has_newline_run3 (trim (strip_blank_lines (collapse_newlines markdown)))) eqn:E;
    [| reflexivity].
  apply includes_trim in E.
  unfold strip_blank_lines in E.
  pose proof (strip_blank_go_no_run3 (collapse_newlines markdown) None 0) as H.
  unfold has_newline_run3 in H. congruence.
Qed.

(* ================================================================== *)
(** * Properties of the extractor *)
(* ================================================================== *)

Lemma str_eqb_refl (s : jsstring) : str_eqb s s = true.
Proof.
  induction s as [| c s IH]; simpl; [reflexivity |].
  rewrite N.eqb_refl. exact IH.
Qed.

Lemma str_eqb_eq (a : jsstring) : forall b, str_eqb a b = true -> a = b.
Proof.
  induction a as [| x a IH]; intros [| y b] H; simpl in H; try discriminate.
  - reflexivity.
  - apply andb_true_iff in H. destruct H as [Hx Hab].
    apply N.eqb_eq in Hx. subst y. f_equal. apply IH. exact Hab.
Qed.

Lemma str_eqb_neq (a b : jsstring) : a <> b -> str_eqb a b = false.
Proof.
  intros H. destruct (str_eqb a b) eqn:E; [| reflexivity].
  exfalso. apply H. apply str_eqb_eq. exact E.
Qed.

Section ExtractorFacts.

Variable P : Platform.
Variables W U : Type.
Variable net : Net W.

Lemma isUrlShortener_listed (url : jsstring) (parsed : URL) :
  URL_parse P url = Some parsed ->
  In (hostname parsed) shorteners ->
  isUrlShortener P url = true.
Proof.
  intros Hp Hin. unfold isUrlShortener. rewrite Hp.
  apply existsb_exists. exists (hostname parsed). split; [exact Hin |].
  apply str_eqb_refl.
Qed.

(** What [resolveShortUrl] does, by the answers of the world. *)
Lemma resolveShortUrl_cases (url : jsstring) (st : State W U) :
  let '(r1, w1) := net_fetch net (headRequest url) (world st) in
  let st1 := fetched (headRequest url) w1 st in
  match r1 with
  | Return response => resolveShortUrl net url st = (Return (r_url response), st1)
  | Throw _ =>
      let '(r2, w2) := net_fetch net (followRequest url) w1 in
      let st2 := fetched (followRequest url) w2 st1 in
      match r2 with
      | Return response => resolveShortUrl net url st = (Return (r_url response), st2)
      | Throw _ => resolveShortUrl net url st = (Return url, st2)
      end
  end.
Proof.
  unfold resolveShortUrl, try_catch, bind, fetch, ret, fetched.
  destruct (net_fetch net (headRequest url) (world st)) as [[r1 | e1] w1]; simpl;
    [reflexivity |].
  destruct (net_fetch net (followRequest url) w1) as [[r2 | e2] w2]; simpl; reflexivity.
Qed.

Lemma resolveShortUrl_returns (url : jsstring) (st : State W U) :
  exists target st', resolveShortUrl net url st = (Return target, st').
Proof.
  pose proof (resolveShortUrl_cases url st) as H.
  destruct (net_fetch net (headRequest url) (world st)) as [[r1 | e1] w1].
  - eauto.
  - destruct (net_fetch net (followRequest url) w1) as [[r2 | e2] w2]; eauto.
Qed.

Lemma resolveStep_returns (url : jsstring) (st : State W U) :
  exists target st', resolveStep P net url st = (Return target, st').
Proof.
  unfold resolveStep. destruct (isUrlShortener P url).
  - apply resolveShortUrl_returns.
  - exists url, st. reflexivity.
Qed.

(** C7.  A URL whose host is one of the listed shorteners is classified as a
    shortener; its resolution sends a HEAD request that follows redirects,
    sends a second request (GET) only when the first fails, never throws,
    and keeps the original URL when both fail, after which the extraction
    goes on with the original URL. *)
Theorem shortener_resolution_never_fails (url : jsstring) (parsed : URL)
    (st : State W U) :
  URL_parse P url = Some parsed ->
  In (hostname parsed) shorteners ->
  isUrlShortener P url = true
  /\ (exists target st', resolveStep P net url st = (Return target, st'))
  /\ (let '(r1, w1) := net_fetch net (headRequest url) (world st) in
      let st1 := fetched (headRequest url) w1 st in
      match r1 with
      | Return response => resolveStep P net url st = (Return (r_url response), st1)
      | Throw _ =>
          let '(r2, w2) := net_fetch net (followRequest url) w1 in
          let st2 := fetched (followRequest url) w2 st1 in
          match r2 with
          | Return response =>
              resolveStep P net url st = (Return (r_url response), st2)
          | Throw _ =>
              resolveStep P net url st = (Return url, st2)
              /\ extractFromUrl P net url st = extractResolved P net url url st2
          end
      end).
Proof.
  intros Hp Hin.
  pose proof (isUrlShortener_listed url parsed Hp Hin) as Hs.
  split; [exact Hs |]. split; [apply resolveStep_returns |].
  pose proof (resolveShortUrl_cases url st) as H.
  unfold extractFromUrl, bind, resolveStep. rewrite Hs.
  destruct (net_fetch net (headRequest url) (world st)) as [[r1 | e1] w1];
    [exact H |].
  destruct (net_fetch net (followRequest url) w1) as [[r2 | e2] w2];
    [exact H |].
  split; [exact H |]. cbv zeta in H. rewrite H. reflexivity.
Qed.

(** C9.  The GitHub blob URL of the example is rewritten to its raw URL; in
    general the host becomes raw.githubusercontent.com and the first /blob/
    of the path becomes a slash; a URL that does not parse, whose host is not
    github.com, or whose path lacks /blob/, is returned unchanged. *)
Theorem convertGitHubUrl_rewrites :
  (URL_parse P (lit "https://github.com/o/r/blob/main/f.md")
     = Some (mkURL (lit "github.com") (lit "/o/r/blob/main/f.md")) ->
   convertGitHubUrl P (lit "https://github.com/o/r/blob/main/f.md")
     = lit "https://raw.githubusercontent.com/o/r/main/f.md")
  /\ (forall url parsed,
        URL_parse P url = Some parsed ->
        hostname parsed = lit "github.com" ->
        includes (lit "/blob/") (pathname parsed) = true ->
        convertGitHubUrl P url
        = lit "https://raw.githubusercontent.com"
            ++ replace_first (lit "/blob/") (lit "/") (pathname parsed))
  /\ (forall url,
        (URL_parse P url = None
         \/ exists parsed,
              URL_parse P url = Some parsed
              /\ (hostname parsed <> lit "github.com"
                  \/ includes (lit "/blob/") (pathname parsed) = false)) ->
        convertGitHubUrl P url = url).
Proof.
  split; [| split].
  - intros H. unfold convertGitHubUrl. rewrite H. reflexivity.
  - intros url parsed Hp Hh Hb. unfold convertGitHubUrl.
    rewrite Hp, Hh, Hb. reflexivity.
  - intros url [Hn | (parsed & Hp & [Hh | Hb])]; unfold convertGitHubUrl.
    + rewrite Hn. reflexivity.
    + rewrite Hp, (str_eqb_neq _ _ Hh). reflexivity.
    + rewrite Hp, Hb, andb_false_r. reflexivity.
Qed.

End ExtractorFacts.

Section ExtractionResults.

Variable P : Platform.
Variables W U : Type.
Variable net : Net W.

(** ** Word counts *)

Lemma fromRawText_wordCount (text : jsstring) (parsed : URL) (url : jsstring) :
  wordCount (fromRawText text parsed url)
  = token_count (content (fromRawText text parsed url)).
Proof.
  unfold fromRawText. simpl.
  rewrite countWords_token_count, token_count_trim. reflexivity.
Qed.

Lemma fromJinaMarkdown_wordCount (markdown url : jsstring) :
  wordCount (fromJinaMarkdown markdown url)
  = token_count (content (fromJinaMarkdown markdown url)).
Proof. unfold fromJinaMarkdown. simpl. apply countWords_token_count. Qed.

Lemma fromMainContent_wordCount (doc : Document P) (main url : jsstring) :
  wordCount (fromMainContent P doc main url)
  = token_count (content (fromMainContent P doc main url)).
Proof. unfold fromMainContent. simpl. apply countWords_token_count. Qed.

Lemma cli_extractRawText_inv (url : jsstring) (st st' : State W U) (r : ExtractedContent) :
  cli_extractRawText P net url st = (Return r, st') ->
  exists text parsed, r = fromRawText text parsed url.
Proof.
  unfold cli_extractRawText, new_URL, bind, fetch, lift, ret, throw. intros H.
  destruct (net_fetch net _ (world st)) as [[response | e] w]; [| discriminate].
  destruct (negb (r_ok response)); [discriminate |].
  destruct (r_text response) as [text | e]; [| discriminate].
  destruct (URL_parse P url) as [parsed |]; [| discriminate].
  injection H as <- _. eauto.
Qed.

Lemma cli_extractViaJina_inv (url : jsstring) (st st' : State W U) (r : ExtractedContent) :
  cli_extractViaJina net url st = (Return r, st') ->
  exists markdown, r = fromJinaMarkdown markdown url.
Proof.
  unfold cli_extractViaJina, bind, fetch, lift, ret, throw. intros H.
  destruct (net_fetch net _ (world st)) as [[response | e] w]; [| discriminate].
  destruct (negb (r_ok response)); [discriminate |].
  destruct (r_text response) as [text | e]; [| discriminate].
  injection H as <- _. eauto.
Qed.

Lemma cli_extractGeneric_inv (url : jsstring) (st st' : State W U) (r : ExtractedContent) :
  cli_extractGeneric P net url st = (Return r, st') ->
  exists doc main, r = fromMainContent P doc main url.
Proof.
  unfold cli_extractGeneric, bind, fetch, lift, ret, throw. intros H.
  destruct (net_fetch net _ (world st)) as [[response | e] w]; [| discriminate].
  destruct (negb (r_ok response)); [discriminate |].
  destruct (r_text response) as [text | e]; [| discriminate].
  injection H as <- _. eauto.
Qed.

(** Without link following a result is a raw text, a Jina answer or a
    converted page. *)
Lemma cli_body_no_follow (self : jsstring -> M W U ExtractedContent)
    (url : jsstring) (st st' : State W U) (r : ExtractedContent) :
  cli_extractFromUrl_body P net self url false st = (Return r, st') ->
  wordCount r = token_count (content r).
Proof.
  unfold cli_extractFromUrl_body, bind. intros H.
  destruct (resolveStep P net url st) as [[resolved | e] st1]; [| discriminate].
  destruct (isRawTextUrl P (convertGitHubUrl P resolved)).
  - apply cli_extractRawText_inv in H. destruct H as (text & parsed & ->).
    apply fromRawText_wordCount.
  - destruct (needsJsRendering P (convertGitHubUrl P resolved)).
    + destruct (cli_extractViaJina net url st1) as [[tweet | e] st2] eqn:Ej;
        [| discriminate].
      unfold ret in H. injection H as <- _.
      apply cli_extractViaJina_inv in Ej. destruct Ej as (md & ->).
      apply fromJinaMarkdown_wordCount.
    + apply cli_extractGeneric_inv in H. destruct H as (doc & main & ->).
      apply fromMainContent_wordCount.
Qed.

(** The recursion of [extractFromUrl] unfolds once. *)
Lemma cli_body_false_indep (self1 self2 : jsstring -> M W U ExtractedContent)
    (url : jsstring) (st : State W U) :
  cli_extractFromUrl_body P net self1 url false st
  = cli_extractFromUrl_body P net self2 url false st.
Proof.
  unfold cli_extractFromUrl_body, bind.
  destruct (resolveStep P net url st) as [[resolved | e] st1]; [| reflexivity].
  destruct (isRawTextUrl P (convertGitHubUrl P resolved)); [reflexivity |].
  destruct (needsJsRendering P (convertGitHubUrl P resolved)); reflexivity.
Qed.

Lemma cli_body_ext (self1 self2 : jsstring -> M W U ExtractedContent) :
  (forall u st, self1 u st = self2 u st) ->
  forall url followLinks st,
    cli_extractFromUrl_body P net self1 url followLinks st
    = cli_extractFromUrl_body P net self2 url followLinks st.
Proof.
  intros Hext url followLinks st.
  unfold cli_extractFromUrl_body, bind.
  destruct (resolveStep P net url st) as [[resolved | e] st1]; [| reflexivity].
  destruct (isRawTextUrl P (convertGitHubUrl P resolved)); [reflexivity |].
  destruct (needsJsRendering P (convertGitHubUrl P resolved)); [| reflexivity].
  destruct (cli_extractViaJina net url st1) as [[tweet | e] st2]; [| reflexivity].
  destruct followLinks; [| reflexivity].
  destruct (extractFirstUrl P (content tweet)) as [linkedUrl |]; [| reflexivity].
  unfold try_catch. rewrite Hext. reflexivity.
Qed.

Lemma cli_extractFromUrl_unfold (url : jsstring) (followLinks : bool) (st : State W U) :
  cli_extractFromUrl P net url followLinks st
  = cli_extractFromUrl_body P net (fun u => cli_extractFromUrl P net u false)
      url followLinks st.
Proof.
  unfold cli_extractFromUrl at 1.
  apply cli_body_ext. intros u st0.
  unfold cli_extractFromUrl. apply cli_body_false_indep.
Qed.

(** The tokens of a tweet followed by a linked article. *)
Lemma combine_token_count (tweet linked : ExtractedContent) :
  token_count (content (combine tweet linked))
  = token_count (content tweet) + 4 + token_count (title linked)
    + token_count (content linked).
Proof.
  unfold combine, token_count. cbn [content].
  rewrite token_count_app.
  replace (token_count_from (inword_after false (content tweet))
     (linkedArticleHeader ++ title linked ++ [LF; LF] ++ content linked))
    with (4 + token_count_from false (title linked ++ [LF; LF] ++ content linked)).
  2:{ unfold linkedArticleHeader.
      destruct (inword_after false (content tweet)); reflexivity. }
  rewrite token_count_app.
  replace (token_count_from (inword_after false (title linked))
             ([LF; LF] ++ content linked))
    with (token_count_from false (content linked))
    by (destruct (inword_after false (title linked)); reflexivity).
  lia.
Qed.

Lemma combine_has_marker (tweet linked : ExtractedContent) :
  includes linkedArticleMarker (content (combine tweet linked)) = true.
Proof.
  unfold combine. cbn [content].
  apply includes_app_r. apply includes_app_l. reflexivity.
Qed.

(** What a call with link following returns. *)
Lemma cli_follow_cases (url : jsstring) (st st' : State W U) (r : ExtractedContent) :
  cli_extractFromUrl P net url true st = (Return r, st') ->
  wordCount r = token_count (content r)
  \/ exists st1 st2 tweet linkedUrl linked,
       takesJinaPath P net url st st1
       /\ cli_extractViaJina net url st1 = (Return tweet, st2)
       /\ extractFirstUrl P (content tweet) = Some linkedUrl
       /\ cli_extractFromUrl P net linkedUrl false st2 = (Return linked, st')
       /\ r = combine tweet linked.
Proof.
  rewrite cli_extractFromUrl_unfold.
  unfold cli_extractFromUrl_body, bind. intros H.
  destruct (resolveStep P net url st) as [[resolved | e] st1] eqn:Er; [| discriminate].
  destruct (isRawTextUrl P (convertGitHubUrl P resolved)) eqn:Eraw.
  { left. apply cli_extractRawText_inv in H. destruct H as (text & parsed & ->).
    apply fromRawText_wordCount. }
  destruct (needsJsRendering P (convertGitHubUrl P resolved)) eqn:Ejs.
  2:{ left. apply cli_extractGeneric_inv in H. destruct H as (doc & main & ->).
      apply fromMainContent_wordCount. }
  destruct (cli_extractViaJina net url st1) as [[tweet | e] st2] eqn:Ej;
    [| discriminate].
  assert (Htweet : wordCount tweet = token_count (content tweet)).
  { destruct (cli_extractViaJina_inv _ _ _ _ Ej) as (md & ->).
    apply fromJinaMarkdown_wordCount. }
  destruct (extractFirstUrl P (content tweet)) as [linkedUrl |] eqn:El.
  2:{ left. unfold ret in H. injection H as <- _. exact Htweet. }
  unfold try_catch, ret in H.
  destruct (cli_extractFromUrl P net linkedUrl false st2) as [[linked | e] st3] eqn:Ek.
  - right. injection H as <- <-.
    exists st1, st2, tweet, linkedUrl, linked.
    repeat split; try assumption.
    exists resolved. repeat split; assumption.
  - left. injection H as <- _. exact Htweet.
Qed.

(** C1, as amended.  The word count of a result equals the number of
    white-space separated tokens of its content, except when a tweet and its
    linked article were put together: then it is the sum of the token counts
    of the two parts, which is the token count of the content less the four
    tokens of the separator and header and the tokens of the linked title. *)
Theorem wordCount_counts_tokens (url : jsstring) (followLinks : bool)
    (st st' : State W U) (r : ExtractedContent) :
  cli_extractFromUrl P net url followLinks st = (Return r, st') ->
  (wordCount r = token_count (content r) /\ countWords (content r) = wordCount r)
  \/ (followLinks = true
      /\ exists tweet linked,
           r = combine tweet linked
           /\ wordCount tweet = token_count (content tweet)
           /\ wordCount linked = token_count (content linked)
           /\ wordCount r = token_count (content tweet) + token_count (content linked)
           /\ token_count (content r) = wordCount r + 4 + token_count (title linked)).
Proof.
  intros H. destruct followLinks.
  - destruct (cli_follow_cases _ _ _ _ H)
      as [Hp | (st1 & st2 & tweet & linkedUrl & linked & Hpath & Ej & El & Ek & ->)].
    + left. split; [exact Hp |]. rewrite countWords_token_count. symmetry. exact Hp.
    + right. split; [reflexivity |]. exists tweet, linked.
      assert (Ht : wordCount tweet = token_count (content tweet)).
      { destruct (cli_extractViaJina_inv _ _ _ _ Ej) as (md & ->).
        apply fromJinaMarkdown_wordCount. }
      assert (Hl : wordCount linked = token_count (content linked)).
      { rewrite cli_extractFromUrl_unfold in Ek.
        exact (cli_body_no_follow _ _ _ _ _ Ek). }
      repeat split; try assumption.
      * cbn [combine wordCount]. lia.
      * rewrite combine_token_count. cbn [combine wordCount]. lia.
  - rewrite cli_extractFromUrl_unfold in H.
    pose proof (cli_body_no_follow _ _ _ _ _ H) as Hp.
    left. split; [exact Hp |]. rewrite countWords_token_count. symmetry. exact Hp.
Qed.

(** C6, as amended.  For a tweet extracted through Jina whose content holds
    a qualifying link: with link following, a successful extraction of the
    link gives the combined result, whose content holds the marker and whose
    word count is the sum of the two word counts, and a failed one gives the
    tweet alone instead of an exception; without link following the result is
    the tweet alone, so its content holds the marker only when the tweet's
    own text does. *)
Theorem linked_article_following (url : jsstring) (st st1 st2 : State W U)
    (tweet : ExtractedContent) (linkedUrl : jsstring) :
  takesJinaPath P net url st st1 ->
  cli_extractViaJina net url st1 = (Return tweet, st2) ->
  extractFirstUrl P (content tweet) = Some linkedUrl ->
  (forall linked st3,
      cli_extractFromUrl P net linkedUrl false st2 = (Return linked, st3) ->
      cli_extractFromUrl P net url true st = (Return (combine tweet linked), st3)
      /\ includes linkedArticleMarker (content (combine tweet linked)) = true
      /\ wordCount (combine tweet linked) = wordCount tweet + wordCount linked)
  /\ (forall e st3,
        cli_extractFromUrl P net linkedUrl false st2 = (Throw e, st3) ->
        cli_extractFromUrl P net url true st = (Return tweet, st3))
  /\ cli_extractFromUrl P net url false st = (Return tweet, st2)
  /\ (includes linkedArticleMarker (content tweet) = false ->
      forall r st', cli_extractFromUrl P net url false st = (Return r, st') ->
                    includes linkedArticleMarker (content r) = false).
Proof.
  intros (resolved & Er & Eraw & Ejs) Ej El.
  assert (Hfalse : cli_extractFromUrl P net url false st = (Return tweet, st2)).
  { rewrite cli_extractFromUrl_unfold.
    unfold cli_extractFromUrl_body, bind. rewrite Er, Eraw, Ejs, Ej. reflexivity. }
  repeat split.
  - rewrite cli_extractFromUrl_unfold.
    unfold cli_extractFromUrl_body, bind. rewrite Er, Eraw, Ejs, Ej, El.
    unfold try_catch. rewrite H. reflexivity.
  - apply combine_has_marker.
  - intros e st3 H.
    rewrite cli_extractFromUrl_unfold.
    unfold cli_extractFromUrl_body, bind. rewrite Er, Eraw, Ejs, Ej, El.
    unfold try_catch. rewrite H. reflexivity.
  - exact Hfalse.
  - intros Hno r st' H. rewrite Hfalse in H. injection H as <- _. exact Hno.
Qed.

(** ** The plugin's extractor *)

Lemma extractRawText_inv (url : jsstring) (st st' : State W U) (r : ExtractedContent) :
  extractRawText P net url st = (Return r, st') ->
  exists text parsed, r = fromRawText text parsed url.
Proof.
  unfold extractRawText, new_URL, bind, requestUrl, ret, throw. intros H.
  destruct (net_requestUrl net _ (world st)) as [[response | e] w]; [| discriminate].
  destruct (URL_parse P url) as [parsed |]; [| discriminate].
  injection H as <- _. eauto.
Qed.

Lemma extractViaJina_inv (url : jsstring) (st st' : State W U) (r : ExtractedContent) :
  extractViaJina net url st = (Return r, st') ->
  exists markdown, r = fromJinaMarkdown markdown url.
Proof.
  unfold extractViaJina, bind, requestUrl, ret. intros H.
  destruct (net_requestUrl net _ (world st)) as [[response | e] w]; [| discriminate].
  injection H as <- _. eauto.
Qed.

Lemma extractGeneric_inv (target url : jsstring) (st st' : State W U)
    (r : ExtractedContent) :
  extractGeneric P net target url st = (Return r, st') ->
  exists doc main, r = fromMainContent P doc main url.
Proof.
  unfold extractGeneric, fetchUrl, bind, requestUrl, lift, ret. intros H.
  destruct (net_requestUrl net _ (world st)) as [[response | e] w]; [| discriminate].
  destruct (extractMainContent P (parseHTML P (q_text response))) as [main | e];
    [| discriminate].
  injection H as <- _. eauto.
Qed.

(** C8, as amended.  The content of every result is trimmed.  On the Jina
    and generic paths it is the output of [cleanMarkdown] and has no run of
    three line feeds; on the raw-text path it is the trimmed body, whose runs
    of line feeds are kept. *)
Theorem content_is_clean (address : jsstring) (st st' : State W U)
    (r : ExtractedContent) :
  extractFromUrl P net address st = (Return r, st') ->
  is_trimmed (content r) = true
  /\ ((exists markdown, content r = cleanMarkdown markdown)
      /\ has_newline_run3 (content r) = false
      \/ (exists text, content r = trim text)
         /\ isRawTextUrl P (url r) = true).
Proof.
  unfold extractFromUrl, extractResolved, bind. intros H.
  destruct (resolveStep P net address st) as [[resolved | e] st1]; [| discriminate].
  destruct (isRawTextUrl P (convertGitHubUrl P resolved)) eqn:Eraw.
  - apply extractRawText_inv in H. destruct H as (text & parsed & ->).
    cbn [fromRawText content url].
    split; [apply trim_is_trimmed |]. right. split; [eauto | exact Eraw].
  - assert (Hclean : exists markdown, content r = cleanMarkdown markdown).
    { destruct (needsJsRendering P (convertGitHubUrl P resolved)).
      - apply extractViaJina_inv in H. destruct H as (md & ->).
        exists md. reflexivity.
      - apply extractGeneric_inv in H. destruct H as (doc & main & ->).
        exists (turndown P main). reflexivity. }
    destruct Hclean as (md & Hmd). rewrite Hmd.
    split; [apply cleanMarkdown_is_trimmed |]. left.
    split; [eauto | apply cleanMarkdown_no_run3].
Qed.

(** The oldest extractor only has the generic path. *)
Lemma basic_content_is_clean (url : jsstring) (st st' : State W U)
    (r : ExtractedContent) :
  basic_extractFromUrl P net url st = (Return r, st') ->
  is_trimmed (content r) = true /\ has_newline_run3 (content r) = false.
Proof.
  unfold basic_extractFromUrl. intros H.
  apply extractGeneric_inv in H. destruct H as (doc & main & ->).
  split; [apply cleanMarkdown_is_trimmed | apply cleanMarkdown_no_run3].
Qed.

End ExtractionResults.

(* ================================================================== *)
(** * Properties of the completion client *)
(* ================================================================== *)

Section CompletionFacts.

Variable P : Platform.
Variables W U : Type.
Variable net : Net W.
Variable settings : SummarizeSettings.
Variable keydown : jsstring -> U -> U.

Lemma isRateLimit_429 (model : jsstring) :
  isRateLimit P (raised (RateLimited model)) = true.
Proof.
  unfold isRateLimit, raised, newError, message, rateLimitMessage.
  rewrite includes_app_l by reflexivity. reflexivity.
Qed.

Lemma completion_429 (model prompt : jsstring) (st : State W U)
    (response : RequestUrlResponse) (w' : W) :
  net_requestUrl net (completionRequest P settings model prompt) (world st)
    = (Return response, w') ->
  q_status response = 429%N ->
  completion P net settings model prompt st
  = (Throw (raised (RateLimited model)),
     requested (completionRequest P settings model prompt) w' st).
Proof.
  intros Hn Hs. unfold completion, bind, requestUrl.
  rewrite Hn, Hs. reflexivity.
Qed.

Lemma completion_not_200 (model prompt : jsstring) (st : State W U)
    (response : RequestUrlResponse) (w' : W) :
  net_requestUrl net (completionRequest P settings model prompt) (world st)
    = (Return response, w') ->
  q_status response <> 429%N ->
  q_status response <> 200%N ->
  completion P net settings model prompt st
  = (Throw (raised (FatalCompletionError
              (lit "OpenRouter API error: "
                 ++ str_or (q_text response) (lit "HTTP " ++ decimal (q_status response))))),
     requested (completionRequest P settings model prompt) w' st).
Proof.
  intros Hn H429 H200. unfold completion, bind, requestUrl. rewrite Hn.
  apply N.eqb_neq in H429. apply N.eqb_neq in H200.
  rewrite H429, H200. reflexivity.
Qed.

Lemma completion_200 (model prompt : jsstring) (st : State W U)
    (response : RequestUrlResponse) (w' : W) (data err : value) :
  net_requestUrl net (completionRequest P settings model prompt) (world st)
    = (Return response, w') ->
  q_status response = 200%N ->
  q_json response = Return data ->
  read_prop P data (lit "error") = Return err ->
  completion P net settings model prompt st
  = (if truthy err then Throw (raised (FatalCompletionError (errorText P err)))
     else Return (mkLLMResponse
                    (or_else (firstChoice "message" data) (VStr []))
                    (or_else (opt_prop data (lit "model")) (VStr model))
                    (opt_prop data (lit "usage"))),
     requested (completionRequest P settings model prompt) w' st).
Proof.
  intros Hn Hs Hj He. unfold completion, bind, requestUrl, lift.
  rewrite Hn, Hs, Hj, He. cbn [N.eqb Pos.eqb negb].
  destruct (truthy err); reflexivity.
Qed.






(** One turn of the fallback loop. *)
Lemma autoFreeLoop_step (prompt : jsstring) (onStream : option (callback U))
    (modelId : jsstring) (rest : list jsstring) (lastError : option thrown)
    (st : State W U) :
  match attempt P net settings keydown prompt onStream modelId st with
  | (Return r, st') =>
      autoFreeLoop P net settings keydown prompt onStream (modelId :: rest) lastError st
      = (Return r, st')
  | (Throw e, st') =>
      if isRateLimit P (asError e) then
        autoFreeLoop P net settings keydown prompt onStream (modelId :: rest) lastError st
        = autoFreeLoop P net settings keydown prompt onStream rest (Some (asError e))
            (noticed (rateLimitedNotice settings modelId) st')
      else
        autoFreeLoop P net settings keydown prompt onStream (modelId :: rest) lastError st
        = (Throw (asError e), st')
  end.
Proof.
  cbn [autoFreeLoop]. unfold try_catch.
  destruct (attempt P net settings keydown prompt onStream modelId st)
    as [[r | e] st']; [reflexivity |].
  destruct (isRateLimit P (asError e)); reflexivity.
Qed.

(** C3.  The fallback tries the ranked models in order.  The result of the
    loop on a list is decided by the attempt on its head: a success is
    returned at once, in the state the attempt left, so that the rest of the
    list is never tried; a failure that is a rate limit is recorded as the
    last error and the loop goes on with the rest; any other failure is
    thrown at once.  When the list is used up the last error is reported.
    With the rank A, B, C where A and B answer with status 429 and C answers
    well, the result is the one of C after exactly three requests, whatever
    follows C in the rank. *)
Theorem fallback_tries_models_in_order (prompt : jsstring)
    (onStream : option (callback U)) :
  (forall modelId rest lastError st,
      match attempt P net settings keydown prompt onStream modelId st with
      | (Return r, st') =>
          autoFreeLoop P net settings keydown prompt onStream (modelId :: rest) lastError st
          = (Return r, st')
      | (Throw e, st') =>
          if isRateLimit P (asError e) then
            autoFreeLoop P net settings keydown prompt onStream (modelId :: rest) lastError st
            = autoFreeLoop P net settings keydown prompt onStream rest (Some (asError e))
                (noticed (rateLimitedNotice settings modelId) st')
          else
            autoFreeLoop P net settings keydown prompt onStream (modelId :: rest) lastError st
            = (Throw (asError e), st')
      end)
  /\ (forall lastError st,
        autoFreeLoop P net settings keydown prompt onStream [] lastError st
        = (Throw (allRateLimited lastError), st))
  /\ (freeModelRank settings <> [] ->
      forall st,
        completionWithAutoFree P net settings keydown prompt onStream st
        = autoFreeLoop P net settings keydown prompt onStream (freeModelRank settings) None st)
  /\ (forall A B C others st respA respB respC w1 w2 w3 data,
        freeModelRank settings = A :: B :: C :: others ->
        net_requestUrl net (completionRequest P settings A prompt) (world st)
          = (Return respA, w1) ->
        q_status respA = 429%N ->
        net_requestUrl net (completionRequest P settings B prompt) w1
          = (Return respB, w2) ->
        q_status respB = 429%N ->
        net_requestUrl net (completionRequest P settings C prompt) w2
          = (Return respC, w3) ->
        q_status respC = 200%N ->
        q_json respC = Return data ->
        (exists err, read_prop P data (lit "error") = Return err /\ truthy err = false) ->
        completionWithAutoFree P net settings keydown prompt None st
        = (Return (mkLLMResponse
                     (or_else (firstChoice "message" data) (VStr []))
                     (or_else (opt_prop data (lit "model")) (VStr C))
                     (opt_prop data (lit "usage"))),
           mkState w3 (host st)
             (trace st
                ++ [ERequestUrl (completionRequest P settings A prompt);
                    ENotice (rateLimitedNotice settings A);
                    ERequestUrl (completionRequest P settings B prompt);
                    ENotice (rateLimitedNotice settings B);
                    ERequestUrl (completionRequest P settings C prompt)]))).
Proof.
  split; [| split; [| split]].
  - intros. apply autoFreeLoop_step.
  - reflexivity.
  - intros Hne st. unfold completionWithAutoFree.
    destruct (freeModelRank settings); [contradiction | reflexivity].
  - intros A B C others st respA respB respC w1 w2 w3 data
      Hrank HA HA429 HB HB429 HC HC200 Hj (err & He & Hf).
    unfold completionWithAutoFree. rewrite Hrank.
    pose proof (autoFreeLoop_step prompt None A (B :: C :: others) None st) as SA.
    cbn [attempt] in SA.
    rewrite (completion_429 A prompt st respA w1 HA HA429) in SA.
    change (asError (raised (RateLimited A))) with (raised (RateLimited A)) in SA.
    rewrite isRateLimit_429 in SA. rewrite SA. clear SA.
    set (stA := noticed _ _).
    pose proof (autoFreeLoop_step prompt None B (C :: others)
                  (Some (raised (RateLimited A))) stA) as SB.
    cbn [attempt] in SB.
    rewrite (completion_429 B prompt stA respB w2 HB HB429) in SB.
    change (asError (raised (RateLimited B))) with (raised (RateLimited B)) in SB.
    rewrite isRateLimit_429 in SB. rewrite SB. clear SB.
    set (stB := noticed _ _).
    pose proof (autoFreeLoop_step prompt None C others
                  (Some (raised (RateLimited B))) stB) as SC.
    cbn [attempt] in SC.
    rewrite (completion_200 C prompt stB respC w3 data err HC HC200 Hj He), Hf in SC.
    rewrite SC. subst stA stB. unfold requested, noticed. cbn [world host trace].
    rewrite <- !app_assoc. reflexivity.
Qed.

(** A frame that parses and carries a truthy [error] aborts the stream
    only when the text of the error holds the word error; otherwise the
    exception raised for it is swallowed by the catch clause. *)
Lemma processLine_error_frame (onStream : callback U) (data fullContent : jsstring)
    (parsed err : value) (st : State W U) :
  str_eqb data (lit "[DONE]") = false ->
  JSON_parse P data = Return parsed ->
  read_prop P parsed (lit "error") = Return err ->
  truthy err = true ->
  processLine P onStream (lit "data: " ++ data) fullContent st
  = (if includes (lit "error") (errorText P err)
     then Throw (newError (errorText P err))
     else Return fullContent, st).
Proof.
  intros Hd Hp He Ht. unfold processLine.
  change (startsWith (lit "data: ") (lit "data: " ++ data)) with true.
  change (slice 6 (lit "data: " ++ data)) with data.
  cbv iota. rewrite Hd.
  unfold try_catch, bind, lift, throw, swallow, rethrown.
  rewrite Hp, He, Ht. cbn [newError instanceofError message andb].
  destruct (includes (lit "error") (errorText P err)); reflexivity.
Qed.

(** A frame that does not parse is skipped when the message of the syntax
    error does not hold the word error. *)
Lemma processLine_malformed_frame (onStream : callback U) (data fullContent : jsstring)
    (e : thrown) (st : State W U) :
  str_eqb data (lit "[DONE]") = false ->
  JSON_parse P data = Throw e ->
  rethrown e = false ->
  processLine P onStream (lit "data: " ++ data) fullContent st
  = (Return fullContent, st).
Proof.
  intros Hd Hp Hr. unfold processLine.
  change (startsWith (lit "data: ") (lit "data: " ++ data)) with true.
  change (slice 6 (lit "data: " ++ data)) with data.
  cbv iota. rewrite Hd.
  unfold try_catch, bind, lift, swallow. rewrite Hp, Hr. reflexivity.
Qed.

(** ** Keys pressed during a stream *)

Lemma call_unnoticed (g : U -> U) (onStream : callback U) (chunk : value)
    (st : State W U) :
  unnoticed g onStream ->
  call onStream chunk (map_host g st)
  = (fst (call onStream chunk st), map_host g (snd (call onStream chunk st))).
Proof.
  intros Hg. unfold call, map_host. cbn [host world trace].
  rewrite Hg. destruct (onStream chunk (host st)) as [r u']. reflexivity.
Qed.

Lemma processLine_unnoticed (g : U -> U) (onStream : callback U)
    (ln fullContent : jsstring) (st : State W U) :
  unnoticed g onStream ->
  processLine P onStream ln fullContent (map_host g st)
  = (fst (processLine P onStream ln fullContent st),
     map_host g (snd (processLine P onStream ln fullContent st))).
Proof.
  intros Hg. unfold processLine.
  destruct (startsWith (lit "data: ") ln); [| reflexivity].
  destruct (str_eqb (slice 6 ln) (lit "[DONE]")); [reflexivity |].
  unfold try_catch, bind, lift, throw, ret, swallow.
  destruct (JSON_parse P (slice 6 ln)) as [parsed | e].
  2:{ destruct (rethrown e); reflexivity. }
  destruct (read_prop P parsed (lit "error")) as [err | e].
  2:{ destruct (rethrown e); reflexivity. }
  destruct (truthy err).
  { destruct (rethrown (newError (errorText P err))); reflexivity. }
  destruct (truthy (firstChoice "delta" parsed)); [| reflexivity].
  rewrite (call_unnoticed g onStream _ st Hg).
  destruct (call onStream (firstChoice "delta" parsed) st) as [[[] | e] st1];
    cbn [fst snd]; [reflexivity |].
  unfold throw, ret.
  destruct (rethrown e) eqn:R; cbn [fst snd]; rewrite ?R; reflexivity.
Qed.

Lemma processLines_unnoticed (g : U -> U) (onStream : callback U)
    (lines : list jsstring) :
  unnoticed g onStream ->
  forall fullContent (st : State W U),
    processLines P onStream lines fullContent (map_host g st)
    = (fst (processLines P onStream lines fullContent st),
       map_host g (snd (processLines P onStream lines fullContent st))).
Proof.
  intros Hg. induction lines as [| ln rest IH]; intros fullContent st;
    [reflexivity |].
  cbn [processLines]. unfold bind.
  rewrite (processLine_unnoticed g onStream ln fullContent st Hg).
  destruct (processLine P onStream ln fullContent st) as [[full' | e] st1];
    cbn [fst snd]; [apply IH | reflexivity].
Qed.

Lemma readLoop_unnoticed (g : U -> U) (onStream : callback U)
    (events : list BodyEvent) :
  unnoticed g onStream ->
  forall fullContent (st : State W U),
    readLoop P keydown onStream (dropKeys events) fullContent (map_host g st)
    = (fst (readLoop P keydown onStream (dropKeys events) fullContent st),
       map_host g (snd (readLoop P keydown onStream (dropKeys events) fullContent st))).
Proof.
  intros Hg. induction events as [| [chunk | e | key] rest IH]; intros fullContent st;
    cbn [dropKeys filter readLoop]; try reflexivity.
  - unfold bind.
    rewrite (processLines_unnoticed g onStream _ Hg fullContent st).
    destruct (processLines P onStream (split_char LF chunk) fullContent st)
      as [[full' | e] st1]; cbn [fst snd]; [apply IH | reflexivity].
  - apply IH.
Qed.

(** The keys pressed while a stream is read change neither its outcome, nor
    the chunks handed to the callback, nor the requests: the loop ends as it
    does on the same stream without keys, up to the changes the key handlers
    make to the caller's state. *)
Lemma readLoop_ignores_keys (onStream : callback U) (events : list BodyEvent) :
  (forall key, unnoticed (keydown key) onStream) ->
  forall fullContent (st : State W U),
  exists keys,
    readLoop P keydown onStream events fullContent st
    = (fst (readLoop P keydown onStream (dropKeys events) fullContent st),
       map_host (pressAll keydown keys)
         (snd (readLoop P keydown onStream (dropKeys events) fullContent st))).
Proof.
  intros Hk. induction events as [| [chunk | e | key] rest IH]; intros fullContent st.
  - exists []. destruct st. reflexivity.
  - cbn [dropKeys filter readLoop]. unfold bind.
    destruct (processLines P onStream (split_char LF chunk) fullContent st)
      as [[full' | e] st1].
    + apply IH.
    + exists []. destruct st1. reflexivity.
  - exists []. destruct st. reflexivity.
  - cbn [dropKeys filter readLoop]. unfold bind, on_host.
    change (mkState (world st) (keydown key (host st)) (trace st))
      with (map_host (keydown key) st).
    destruct (IH fullContent (map_host (keydown key) st)) as (keys & Hg).
    exists (key :: keys).
    fold (dropKeys rest) in *.
    rewrite Hg, (readLoop_unnoticed (keydown key) onStream rest (Hk key) fullContent st).
    cbn [fst snd]. reflexivity.
Qed.

End CompletionFacts.

(** The Escape handler is not noticed by [handleStreamChunk]: the streaming
    insertion goes on as if no key had been pressed. *)
Lemma escape_unnoticed (key : jsstring) :
  unnoticed (escapeHandler key) handleStreamChunk.
Proof.
  intros chunk ctx. unfold escapeHandler.
  destruct chunk; destruct ctx as [e pos ind cur l a];
    cbn [handleStreamChunk listening aborted editor insertPos indent currentContent
         fst snd];
    destruct (l && str_eqb key (lit "Escape")); reflexivity.
Qed.

Lemma pressAll_escape_text (keys : list jsstring) :
  forall ctx,
    currentContent (pressAll escapeHandler keys ctx) = currentContent ctx
    /\ editor (pressAll escapeHandler keys ctx) = editor ctx.
Proof.
  induction keys as [| key keys IH]; intros ctx; [split; reflexivity |].
  cbn [pressAll fold_left]. fold (pressAll escapeHandler keys (escapeHandler key ctx)).
  destruct (IH (escapeHandler key ctx)) as [Hc He]. rewrite Hc, He.
  unfold escapeHandler.
  destruct (listening ctx && str_eqb key (lit "Escape")); split; reflexivity.
Qed.

(** Whatever keys are pressed while the stream is read, the streaming
    insertion ends with the outcome, the effects, the accumulated text and
    the editor it has on the same stream without keys: pressing Escape
    cancels nothing. *)
Lemma insertion_ignores_escape (P : Platform) (W : Type) (events : list BodyEvent)
    (fullContent : jsstring) (st : State W ActionHost) :
  let pressed := readLoop P escapeHandler handleStreamChunk events fullContent st in
  let calm := readLoop P escapeHandler handleStreamChunk (dropKeys events) fullContent st in
  fst pressed = fst calm
  /\ trace (snd pressed) = trace (snd calm)
  /\ currentContent (host (snd pressed)) = currentContent (host (snd calm))
  /\ editor (host (snd pressed)) = editor (host (snd calm)).
Proof.
  intros pressed calm.
  destruct (readLoop_ignores_keys P W ActionHost escapeHandler handleStreamChunk events
              escape_unnoticed fullContent st) as (keys & H).
  subst pressed calm. rewrite H. cbn [fst snd map_host host trace].
  destruct (pressAll_escape_text keys
              (host (snd (readLoop P escapeHandler handleStreamChunk (dropKeys events)
                            fullContent st)))) as [Hc He].
  repeat split; assumption.
Qed.

(* ================================================================== *)
(** * The properties on concrete runs *)
(* ================================================================== *)

Module Runs.

Import Sample.

(** C1 fails as stated: a tweet of two words that links to an article of
    two words gives a result whose word count is 4 while its content has 9
    tokens: the two parts, the separator, the three words of the header and
    the title. *)
Lemma combined_wordCount_is_not_token_count :
  fst (cli_extractFromUrl platform tweetNet tweetUrl true (start tt))
    = Return (combine tweet linked)
  /\ wordCount (combine tweet linked) = 4
  /\ token_count (content (combine tweet linked)) = 9
  /\ countWords (content (combine tweet linked)) = 9.
Proof. repeat split; vm_compute; reflexivity. Qed.

Lemma wordCount_counts_tokens_witness :
  cli_extractFromUrl platform tweetNet tweetUrl true (start tt)
    = (Return (combine tweet linked),
       snd (cli_extractFromUrl platform tweetNet tweetUrl true (start tt)))
  /\ ((wordCount (combine tweet linked) = token_count (content (combine tweet linked))
       /\ countWords (content (combine tweet linked)) = wordCount (combine tweet linked))
      \/ (true = true
          /\ exists t l,
               combine tweet linked = combine t l
               /\ wordCount t = token_count (content t)
               /\ wordCount l = token_count (content l)
               /\ wordCount (combine tweet linked)
                  = token_count (content t) + token_count (content l)
               /\ token_count (content (combine tweet linked))
                  = wordCount (combine tweet linked) + 4 + token_count (title l))).
Proof.
  split; [vm_compute; reflexivity |].
  apply (wordCount_counts_tokens platform nat unit tweetNet tweetUrl true (start tt)
           (snd (cli_extractFromUrl platform tweetNet tweetUrl true (start tt)))
           (combine tweet linked)).
  vm_compute; reflexivity.
Defined.

(** C6 fails as stated: the text of a tweet may itself hold the marker, and
    then the content holds it without link following. *)
Lemma marker_without_following :
  url_matches markedText = [linkUrl]
  /\ extractFirstUrl platform markedText = Some linkUrl
  /\ fst (cli_extractFromUrl platform markedNet tweetUrl false (start tt))
       = Return markedTweet
  /\ includes linkedArticleMarker (content markedTweet) = true.
Proof. repeat split; vm_compute; reflexivity. Qed.

Lemma linked_article_following_witness :
  (takesJinaPath platform tweetNet tweetUrl (start tt) (start tt)
   /\ cli_extractViaJina tweetNet tweetUrl (start tt)
        = (Return tweet, snd (cli_extractViaJina tweetNet tweetUrl (start tt)))
   /\ extractFirstUrl platform (content tweet) = Some linkUrl)
  /\ fst (cli_extractFromUrl platform tweetNet tweetUrl true (start tt))
       = Return (combine tweet linked)
  /\ includes linkedArticleMarker (content (combine tweet linked)) = true
  /\ wordCount (combine tweet linked) = wordCount tweet + wordCount linked
  /\ fst (cli_extractFromUrl platform lonelyTweetNet tweetUrl true (start tt))
       = Return tweet
  /\ fst (cli_extractFromUrl platform tweetNet tweetUrl false (start tt))
       = Return tweet.
Proof.
  assert (Hpath : forall net, takesJinaPath platform net tweetUrl (start tt) (start tt)).
  { intros net. exists tweetUrl. repeat split; vm_compute; reflexivity. }
  assert (Hj : cli_extractViaJina tweetNet tweetUrl (start tt)
               = (Return tweet, snd (cli_extractViaJina tweetNet tweetUrl (start tt))))
    by (vm_compute; reflexivity).
  assert (Hj' : cli_extractViaJina lonelyTweetNet tweetUrl (start tt)
                = (Return tweet, snd (cli_extractViaJina tweetNet tweetUrl (start tt))))
    by (vm_compute; reflexivity).
  assert (Hl : extractFirstUrl platform (content tweet) = Some linkUrl)
    by (vm_compute; reflexivity).
  destruct (linked_article_following platform nat unit tweetNet tweetUrl
              (start tt) (start tt) _ tweet linkUrl (Hpath tweetNet) Hj Hl)
    as (Hok & _ & Hoff & _).
  destruct (linked_article_following platform nat unit lonelyTweetNet tweetUrl
              (start tt) (start tt) _ tweet linkUrl (Hpath lonelyTweetNet) Hj' Hl)
    as (_ & Hfail & _ & _).
  destruct (Hok linked
              (snd (cli_extractFromUrl platform tweetNet tweetUrl true (start tt))))
    as (Hrun & Hmark & Hsum); [vm_compute; reflexivity |].
  pose proof (Hfail networkError
                (snd (cli_extractFromUrl platform lonelyTweetNet tweetUrl true (start tt))))
    as Hrun'.
  refine (conj (conj (Hpath tweetNet) (conj Hj Hl))
            (conj _ (conj Hmark (conj Hsum (conj _ _))))).
  - rewrite Hrun. reflexivity.
  - rewrite Hrun' by (vm_compute; reflexivity). reflexivity.
  - rewrite Hoff. reflexivity.
Defined.

Lemma shortener_resolution_witness :
  (URL_parse platform shortUrl = Some (mkURL (lit "t.co") (lit "/abc"))
   /\ In (lit "t.co") shorteners)
  /\ isUrlShortener platform shortUrl = true
  /\ resolveStep platform deadNet shortUrl (start tt)
     = (Return shortUrl,
        mkState 2 tt [EFetch (headRequest shortUrl); EFetch (followRequest shortUrl)]).
Proof.
  assert (Hp : URL_parse platform shortUrl = Some (mkURL (lit "t.co") (lit "/abc")))
    by (vm_compute; reflexivity).
  assert (Hin : In (lit "t.co") shorteners) by (left; reflexivity).
  destruct (shortener_resolution_never_fails platform nat unit deadNet shortUrl
              (mkURL (lit "t.co") (lit "/abc")) (start tt) Hp Hin)
    as (Hs & _ & Hcases).
  exact (conj (conj Hp Hin) (conj Hs (proj1 Hcases))).
Defined.

(** C8 fails as stated: a raw text file keeps its runs of line feeds. *)
Lemma raw_text_keeps_newline_runs :
  fst (extractFromUrl platform rawNet blobUrl (start tt))
    = Return (mkExtracted (lit "f.md") rawBody rawUrl 2)
  /\ has_newline_run3 rawBody = true.
Proof. split; vm_compute; reflexivity. Qed.

Lemma content_is_clean_witness :
  extractFromUrl platform tweetNet tweetUrl (start tt)
    = (Return tweet, snd (extractFromUrl platform tweetNet tweetUrl (start tt)))
  /\ is_trimmed (content tweet) = true
  /\ ((exists markdown, content tweet = cleanMarkdown markdown)
      /\ has_newline_run3 (content tweet) = false
      \/ (exists text, content tweet = trim text)
         /\ isRawTextUrl platform (url tweet) = true).
Proof.
  split; [vm_compute; reflexivity |].
  apply (content_is_clean platform nat unit tweetNet tweetUrl (start tt)
           (snd (extractFromUrl platform tweetNet tweetUrl (start tt))) tweet).
  vm_compute; reflexivity.
Defined.

Lemma convertGitHubUrl_witness :
  URL_parse platform blobUrl = Some (mkURL (lit "github.com") (lit "/o/r/blob/main/f.md"))
  /\ convertGitHubUrl platform blobUrl = rawUrl
  /\ convertGitHubUrl platform linkUrl = linkUrl.
Proof.
  destruct (convertGitHubUrl_rewrites platform) as (Hblob & _ & Hsame).
  split; [vm_compute; reflexivity |]. split.
  - apply Hblob. vm_compute; reflexivity.
  - apply Hsame. right. exists (mkURL (lit "example.com") (lit "/a")).
    split; [vm_compute; reflexivity |]. left. discriminate.
Defined.

Lemma fallback_witness :
  (freeModelRank (settings [modelA; modelB; modelC]) = [modelA; modelB; modelC]
   /\ q_status rateLimitedResponse = 429%N)
  /\ completionWithAutoFree platform rankedNet (settings [modelA; modelB; modelC])
       noKeys (lit "p") None (start tt)
     = (Return (mkLLMResponse (VStr (lit "Summary")) (VStr (lit "server/model-c"))
                  VUndefined),
        mkState 3 tt
          [ERequestUrl (completionRequest platform (settings [modelA; modelB; modelC])
                          modelA (lit "p"));
           ENotice (lit "Rate limited on a/model:free, trying next...");
           ERequestUrl (completionRequest platform (settings [modelA; modelB; modelC])
                          modelB (lit "p"));
           ENotice (lit "Rate limited on b/model:free, trying next...");
           ERequestUrl (completionRequest platform (settings [modelA; modelB; modelC])
                          modelC (lit "p"))]).
Proof.
  destruct (fallback_tries_models_in_order platform nat unit rankedNet
              (settings [modelA; modelB; modelC]) noKeys (lit "p") None)
    as (_ & _ & _ & Habc).
  split; [split; reflexivity |].
  exact (Habc modelA modelB modelC [] (start tt)
           rateLimitedResponse rateLimitedResponse
           (mkRequestResponse 200 [] (Return answerC)) 1 2 3 answerC
           eq_refl eq_refl eq_refl eq_refl eq_refl eq_refl eq_refl eq_refl
           (ex_intro _ VUndefined (conj eq_refl eq_refl))).
Defined.



(** The non-streaming path on the answer of the third model reports the id
    echoed by the server. *)
Lemma completion_reports_echoed_model :
  fst (completion platform rankedNet (settings []) modelC (lit "p") (mkState 2 tt []))
  = Return (mkLLMResponse (VStr (lit "Summary")) (VStr (lit "server/model-c")) VUndefined).
Proof. vm_compute; reflexivity. Qed.

(** C2.  Cancellation does not stop the stream in this code.  Escape is
    pressed after the first chunk was delivered and the abort controller is
    aborted; yet the second chunk is delivered to the callback and inserted,
    and the operation resolves as not cancelled with the text of both
    chunks. *)
Theorem escape_does_not_stop_the_stream :
  let run :=
    executeStreamingSummarize platform (streamNet cancelledStream) streamSettings
      (lit "text") listEditor None None
      (mkState 0 (setupStreamingInsert listEditor) []) in
  fst run = Return (mkStreamingResult (VStr (lit "Hello world")) false)
  /\ aborted (host (snd run)) = true
  /\ filter isStreamEffect (trace (snd run))
     = [EStream (VStr (lit "Hello")); EStream (VStr (lit " world"))]
  /\ currentContent (host (snd run)) = lit "Hello world"
  /\ map fst (replaced (editor (host (snd run))))
     = [[LF]; [9%N] ++ lit "Hello"; lit " world"].
Proof. repeat split; vm_compute; reflexivity. Qed.

(** C5.  An error frame does not always abort the stream in this code.  A
    frame that parses and carries the error message [Rate limit exceeded] is
    skipped, and the text of the next frame is returned; a frame whose
    message holds the word error does abort the stream. *)
Theorem error_frame_is_swallowed :
  JSON_parse platform (errorFrameText (lit "Rate limit exceeded"))
    = Return (errorValue (lit "Rate limit exceeded"))
  /\ fst (streamCompletion platform
            (streamNet (failingStream (lit "Rate limit exceeded")))
            streamSettings noKeys (lit "m") (lit "p") quiet (start tt))
     = Return (mkLLMResponse (VStr (lit "Hello")) (VStr (lit "m")) VUndefined)
  /\ fst (streamCompletion platform
            (streamNet (failingStream (lit "Provider returned error")))
            streamSettings noKeys (lit "m") (lit "p") quiet (start tt))
     = Throw (newError (lit "Provider returned error")).
Proof. repeat split; vm_compute; reflexivity. Qed.

End Runs.

(* ================================================================== *)
(** * Further properties of the text helpers *)
(* ================================================================== *)

Lemma token_count_blank_prefix (sep : jsstring) :
  isBlank sep = true ->
  forall b s,
    token_count_from b (sep ++ s)
    = token_count_from (match sep with [] => b | _ => false end) s.
Proof.
  unfold isBlank. induction sep as [| c sep IH]; intros H b s; [reflexivity |].
  cbn [forallb] in H. apply andb_true_iff in H. destruct H as [Hc Hs].
  cbn [app]. rewrite token_count_from_space by exact Hc.
  rewrite (IH Hs). destruct sep; reflexivity.
Qed.

(** X1.  The words of two texts joined by white space are the words of the
    one and the words of the other: [countWords] is additive over a
    separator of white space. *)
Theorem countWords_joined (a sep b : jsstring) :
  sep <> [] ->
  isBlank sep = true ->
  countWords (a ++ sep ++ b) = countWords a + countWords b.
Proof.
  intros Hne Hs. rewrite !countWords_token_count. unfold token_count.
  rewrite token_count_app, (token_count_blank_prefix sep Hs).
  destruct sep; [contradiction | reflexivity].
Qed.

Lemma token_count_from_blank (s : jsstring) :
  isBlank s = true -> forall b, token_count_from b s = 0.
Proof.
  intros H b. rewrite <- (app_nil_r s), (token_count_blank_prefix s H).
  reflexivity.
Qed.

Lemma token_count_from_zero (s : jsstring) :
  forall b, token_count_from b s = 0 -> b = false -> isBlank s = true.
Proof.
  induction s as [| c s IH]; intros b H Hb; [reflexivity |].
  subst b. cbn [token_count_from] in H. cbn [isBlank forallb].
  destruct (isSpace c); [| discriminate].
  exact (IH false H eq_refl).
Qed.

(** X2.  [countWords] gives 0 exactly for a text of white space only, the
    empty text included. *)
Theorem countWords_zero_iff_blank (s : jsstring) :
  countWords s = 0 <-> isBlank s = true.
Proof.
  rewrite countWords_token_count. split.
  - intros H. exact (token_count_from_zero s false H eq_refl).
  - intros H. exact (token_count_from_blank s H false).
Qed.

(** ** Cleaning keeps the words *)

Lemma token_count_flush (run : nat) (b : bool) (s : jsstring) :
  token_count_from b (flush_newlines run ++ s)
  = token_count_from (match run with 0 => b | _ => false end) s.
Proof.
  destruct run as [| [| [| n]]]; reflexivity.
Qed.

Lemma token_count_collapse (s : jsstring) :
  forall run b,
    token_count_from b (collapse_go run s)
    = token_count_from (match run with 0 => b | _ => false end) s.
Proof.
  induction s as [| c s IH]; intros run b; cbn [collapse_go].
  - rewrite <- (app_nil_r (flush_newlines run)). apply token_count_flush.
  - destruct (N.eqb c LF) eqn:Hc.
    + apply N.eqb_eq in Hc. subst c. rewrite IH.
      symmetry. apply token_count_from_space. reflexivity.
    + rewrite token_count_flush.
      cbn [token_count_from]. rewrite !IH. reflexivity.
Qed.

Lemma blank_match_spaces (s : jsstring) :
  forall k, blank_match s = Some k -> isBlank (firstn k s) = true.
Proof.
  unfold isBlank.
  induction s as [| c s IH]; intros k H; cbn [blank_match] in H; [discriminate |].
  destruct (isSpace c) eqn:Hc; [| discriminate].
  destruct (blank_match s) as [j |] eqn:Hj.
  - injection H as <-. cbn [firstn forallb]. rewrite Hc. exact (IH j eq_refl).
  - destruct (at_line_end s); [| discriminate].
    injection H as <-. cbn [firstn forallb]. rewrite Hc. reflexivity.
Qed.

Lemma strip_blank_go_unfold (prev : option char) (c : char) (s : jsstring) :
  strip_blank_go prev 0 (c :: s)
  = if at_line_start prev then
      match blank_match (c :: s) with
      | Some (S k) => strip_blank_go (Some c) k s
      | _ => c :: strip_blank_go (Some c) 0 s
      end
    else c :: strip_blank_go (Some c) 0 s.
Proof. reflexivity. Qed.

Lemma token_count_strip (s : jsstring) :
  forall prev skip b,
    (at_line_start prev = true -> b = false) ->
    isBlank (firstn skip s) = true ->
    (skip <> 0 -> b = false) ->
    token_count_from b (strip_blank_go prev skip s) = token_count_from b s.
Proof.
  induction s as [| c s IH]; intros prev skip b Hstart Hskip Hb.
  - destruct skip; reflexivity.
  - assert (Hemit : token_count_from b (c :: strip_blank_go (Some c) 0 s)
                    = token_count_from b (c :: s)).
    { cbn [token_count_from]. destruct (isSpace c) eqn:Hc.
      - apply IH; [reflexivity | reflexivity | congruence].
      - f_equal. apply IH; [| reflexivity | congruence].
        intros Hlt. cbn [at_line_start] in Hlt.
        apply lineTerminator_isSpace in Hlt. congruence. }
    destruct skip as [| k].
    + rewrite strip_blank_go_unfold.
      destruct (at_line_start prev) eqn:Hp; [| exact Hemit].
      destruct (blank_match (c :: s)) as [[| k] |] eqn:Hm; try exact Hemit.
      rewrite (Hstart eq_refl).
      pose proof (blank_match_spaces _ _ Hm) as Hsp.
      unfold isBlank in Hsp. cbn [firstn forallb] in Hsp.
      apply andb_true_iff in Hsp. destruct Hsp as [Hc Hrest].
      rewrite token_count_from_space by exact Hc.
      apply IH; [reflexivity | exact Hrest | reflexivity].
    + cbn [strip_blank_go]. rewrite (Hb ltac:(discriminate)).
      unfold isBlank in Hskip. cbn [firstn forallb] in Hskip.
      apply andb_true_iff in Hskip. destruct Hskip as [Hc Hrest].
      rewrite token_count_from_space by exact Hc.
      apply IH; [reflexivity | exact Hrest | reflexivity].
Qed.

(** X3.  [cleanMarkdown] removes and rewrites white space only: the cleaned
    text has the words of the original, so the word count of an extracted
    page is the word count of the Markdown it was cleaned from. *)
Theorem cleanMarkdown_keeps_words (markdown : jsstring) :
  countWords (cleanMarkdown markdown) = countWords markdown.
Proof.
  rewrite !countWords_token_count. unfold cleanMarkdown.
  rewrite token_count_trim. unfold token_count, strip_blank_lines.
  rewrite token_count_strip by (reflexivity || discriminate || congruence).
  apply (token_count_collapse markdown 0 false).
Qed.

(** ** Cleaning twice is cleaning once *)

Lemma repeat_shift (n : nat) (s : jsstring) :
  repeat LF (S n) ++ s = repeat LF n ++ LF :: s.
Proof.
  induction n as [| n IH]; [reflexivity |].
  cbn [repeat app] in *. f_equal. exact IH.
Qed.

Lemma repeat3_has_run (run : nat) (s : jsstring) :
  3 <= run -> has_newline_run3 (repeat LF run ++ s) = true.
Proof.
  intros H. destruct run as [| [| [| n]]]; try lia. reflexivity.
Qed.

Lemma includes_suffix_false (p a b : jsstring) :
  includes p (a ++ b) = false -> includes p b = false.
Proof.
  intros H. destruct (includes p b) eqn:E; [| reflexivity].
  rewrite (includes_app_r p a b E) in H. discriminate.
Qed.

Lemma includes_prefix_false (p a b : jsstring) :
  includes p (a ++ b) = false -> includes p a = false.
Proof.
  intros H. destruct (includes p a) eqn:E; [| reflexivity].
  rewrite (includes_app_l p a b E) in H. discriminate.
Qed.

Lemma flush_short (run : nat) (s : jsstring) :
  has_newline_run3 (repeat LF run ++ s) = false ->
  flush_newlines run = repeat LF run.
Proof.
  intros H. unfold flush_newlines.
  destruct (3 <=? run) eqn:E; [| reflexivity].
  apply Nat.leb_le in E. rewrite (repeat3_has_run run s E) in H. discriminate.
Qed.

(** The first replacement changes nothing where no run of three line feeds
    stands. *)
Lemma collapse_go_identity (s : jsstring) :
  forall run,
    has_newline_run3 (repeat LF run ++ s) = false ->
    collapse_go run s = repeat LF run ++ s.
Proof.
  induction s as [| c s IH]; intros run H; cbn [collapse_go].
  - rewrite (flush_short run [] H). symmetry. apply app_nil_r.
  - destruct (N.eqb c LF) eqn:Hc.
    + apply N.eqb_eq in Hc. subst c.
      rewrite <- repeat_shift in *. apply IH. exact H.
    + rewrite (flush_short run (c :: s) H). f_equal. f_equal.
      apply (IH 0). cbn [repeat app].
      apply (includes_suffix_false _ (repeat LF run ++ [c]) s).
      rewrite <- app_assoc. exact H.
Qed.

Lemma collapse_newlines_identity (s : jsstring) :
  has_newline_run3 s = false -> collapse_newlines s = s.
Proof. intros H. exact (collapse_go_identity s 0 H). Qed.

(** The second replacement changes nothing where nothing matches. *)
Lemma strip_blank_go_identity (s : jsstring) :
  forall prev, no_blank_match prev s = true -> strip_blank_go prev 0 s = s.
Proof.
  induction s as [| c s IH]; intros prev H; [reflexivity |].
  cbn [no_blank_match] in H. apply andb_true_iff in H. destruct H as [Hm Hs].
  rewrite strip_blank_go_unfold.
  destruct (at_line_start prev).
  - destruct (blank_match (c :: s)); [discriminate |].
    f_equal. exact (IH _ Hs).
  - f_equal. exact (IH _ Hs).
Qed.

Lemma blank_match_cons_none (c : char) (s : jsstring) :
  blank_match (c :: s) = None ->
  isSpace c = true ->
  blank_match s = None /\ at_line_end s = false.
Proof.
  cbn [blank_match]. intros H Hc. rewrite Hc in H.
  destruct (blank_match s); [discriminate |].
  destruct (at_line_end s); [discriminate | split; reflexivity].
Qed.

(** Where nothing matches in the input, nothing matches in the output. *)
Lemma blank_match_strip (s : jsstring) :
  forall prev,
    blank_match s = None ->
    blank_match (strip_blank_go prev 0 s) = None.
Proof.
  induction s as [| c s IH]; intros prev H; [reflexivity |].
  rewrite (strip_blank_go_emit prev c s H).
  cbn [blank_match]. destruct (isSpace c) eqn:Hc; [| reflexivity].
  destruct (blank_match_cons_none c s H Hc) as [Hs He].
  rewrite (IH (Some c) Hs).
  destruct s as [| d s]; [discriminate |].
  rewrite (strip_blank_go_emit (Some c) d s Hs).
  cbn [at_line_end] in *. rewrite He. reflexivity.
Qed.

(** After the second replacement nothing is left to match; [p] is the
    character that precedes the output. *)
Lemma strip_blank_go_quiet (s : jsstring) :
  forall prev skip p,
    (skip = 0 /\ p = prev)
    \/ (at_line_start p = true /\ blank_match (skipn skip s) = None) ->
    no_blank_match p (strip_blank_go prev skip s) = true.
Proof.
  induction s as [| c s IH]; intros prev skip p H.
  - destruct skip; reflexivity.
  - assert (Hemit : blank_match (c :: s) = None \/ at_line_start p = false ->
                    no_blank_match p (c :: strip_blank_go (Some c) 0 s) = true).
    { intros Hc. cbn [no_blank_match]. apply andb_true_iff. split.
      - destruct Hc as [Hc | Hc]; [| rewrite Hc; reflexivity].
        pose proof (blank_match_strip (c :: s) prev Hc) as Hq.
        rewrite (strip_blank_go_emit prev c s Hc) in Hq. rewrite Hq.
        destruct (at_line_start p); reflexivity.
      - apply IH. left. split; reflexivity. }
    destruct skip as [| k].
    + destruct H as [[_ ->] | [Hp Hm]].
      * rewrite strip_blank_go_unfold.
        destruct (at_line_start prev) eqn:Hp; [| apply Hemit; right; reflexivity].
        destruct (blank_match (c :: s)) as [[| k] |] eqn:Hm.
        -- exfalso. exact (blank_match_positive _ Hm).
        -- apply IH. right. split; [exact Hp |].
           exact (blank_match_longest _ _ Hm).
        -- apply Hemit. left. reflexivity.
      * cbn [skipn] in Hm. rewrite (strip_blank_go_emit prev c s Hm).
        apply Hemit. left. exact Hm.
    + destruct H as [[H _] | [Hp Hm]]; [discriminate |].
      cbn [strip_blank_go]. apply IH. right. split; [exact Hp | exact Hm].
Qed.

Lemma blank_match_app_nonblank (x y : jsstring) :
  isBlank x = false -> blank_match (x ++ y) = blank_match x.
Proof.
  unfold isBlank. induction x as [| c x IH]; intros H; [discriminate |].
  cbn [forallb] in H. cbn [app blank_match].
  destruct (isSpace c); [| reflexivity].
  cbn [andb] in H. rewrite (IH H).
  destruct x as [| d x]; [discriminate | reflexivity].
Qed.

Lemma dropEndWhile_not_blank (s : jsstring) :
  dropEndWhile isSpace s <> [] -> isBlank (dropEndWhile isSpace s) = false.
Proof.
  unfold isBlank. induction s as [| c s IH]; cbn [dropEndWhile]; intros H;
    [congruence |].
  destruct (dropEndWhile isSpace s) as [| e t].
  - destruct (isSpace c) eqn:Hc; [congruence |].
    cbn [forallb]. rewrite Hc. reflexivity.
  - cbn [forallb] in *. rewrite IH by discriminate. apply andb_false_r.
Qed.

Lemma no_blank_match_trimStart (s : jsstring) :
  forall prev,
    no_blank_match prev s = true -> no_blank_match None (trimStart s) = true.
Proof.
  induction s as [| c s IH]; intros prev H; [reflexivity |].
  cbn [no_blank_match] in H. apply andb_true_iff in H. destruct H as [_ Hs].
  cbn [trimStart]. destruct (isSpace c) eqn:Hc; [exact (IH _ Hs) |].
  cbn [no_blank_match at_line_start blank_match]. rewrite Hc. exact Hs.
Qed.

Lemma no_blank_match_trimEnd (s : jsstring) :
  forall prev,
    no_blank_match prev s = true ->
    no_blank_match prev (dropEndWhile isSpace s) = true.
Proof.
  induction s as [| c s IH]; intros prev H; [reflexivity |].
  cbn [no_blank_match] in H. apply andb_true_iff in H. destruct H as [Hm Hs].
  pose proof (IH _ Hs) as Hd.
  pose proof (dropEndWhile_not_blank s) as Hnb.
  destruct (dropEndWhile_prefix isSpace s) as [post Hpost].
  cbn [dropEndWhile].
  destruct (dropEndWhile isSpace s) as [| e t].
  - destruct (isSpace c) eqn:Hc; [reflexivity |].
    cbn [no_blank_match blank_match]. rewrite Hc.
    destruct (at_line_start prev); reflexivity.
  - change (no_blank_match prev (c :: e :: t)) with
      ((if at_line_start prev
        then match blank_match (c :: e :: t) with
             | None => true
             | Some _ => false
             end
        else true) && no_blank_match (Some c) (e :: t)).
    rewrite Hd, andb_true_r.
    destruct (at_line_start prev); [| reflexivity].
    assert (Hb : isBlank (c :: e :: t) = false).
    { unfold isBlank in *. cbn [forallb] in *.
      rewrite Hnb by discriminate. apply andb_false_r. }
    rewrite <- (blank_match_app_nonblank (c :: e :: t) post Hb).
    cbn [app] in *. rewrite <- Hpost. exact Hm.
Qed.

Lemma dropEndWhile_idempotent (f : char -> bool) (s : jsstring) :
  dropEndWhile f (dropEndWhile f s) = dropEndWhile f s.
Proof.
  induction s as [| c s IH]; [reflexivity |].
  cbn [dropEndWhile].
  destruct (dropEndWhile f s) as [| e t] eqn:Hd.
  - destruct (f c) eqn:Hc; [reflexivity |].
    cbn [dropEndWhile]. rewrite Hc. reflexivity.
  - change (dropEndWhile f (c :: e :: t)) with
      (match dropEndWhile f (e :: t) with
       | [] => if f c then [] else [c]
       | u => c :: u
       end).
    rewrite IH. reflexivity.
Qed.

Lemma trimStart_trimmed (s : jsstring) :
  is_trimmed s = true -> trimStart s = s.
Proof.
  destruct s as [| c s]; [reflexivity |].
  cbn [is_trimmed trimStart]. intros H.
  apply andb_true_iff in H. destruct H as [Hc _].
  destruct (isSpace c); [discriminate | reflexivity].
Qed.

Lemma trim_idempotent (s : jsstring) : trim (trim s) = trim s.
Proof.
  unfold trim at 1. rewrite (trimStart_trimmed _ (trim_is_trimmed s)).
  unfold trim, trimEnd. apply dropEndWhile_idempotent.
Qed.

Lemma cleanMarkdown_quiet (markdown : jsstring) :
  no_blank_match None (cleanMarkdown markdown) = true.
Proof.
  unfold cleanMarkdown, trim, trimEnd.
  apply no_blank_match_trimEnd.
  apply (no_blank_match_trimStart _ None).
  apply strip_blank_go_quiet. left. split; reflexivity.
Qed.

(** X4.  [cleanMarkdown] is idempotent: a text that has been cleaned is left
    as it is by a second cleaning. *)
Theorem cleanMarkdown_idempotent (markdown : jsstring) :
  cleanMarkdown (cleanMarkdown markdown) = cleanMarkdown markdown.
Proof.
  unfold cleanMarkdown at 1.
  rewrite (collapse_newlines_identity _ (cleanMarkdown_no_run3 markdown)).
  unfold strip_blank_lines.
  rewrite (strip_blank_go_identity _ None (cleanMarkdown_quiet markdown)).
  unfold cleanMarkdown. apply trim_idempotent.
Qed.

(** ** Substantial elements *)

Lemma dropEndWhile_fixed_tail (f : char -> bool) (c : char) (s : jsstring) :
  dropEndWhile f (c :: s) = c :: s -> dropEndWhile f s = s.
Proof.
  cbn [dropEndWhile]. destruct (dropEndWhile f s) as [| e t] eqn:Hd.
  - destruct (f c); intros H; [discriminate |].
    injection H as <-. reflexivity.
  - intros H. injection H as <-. reflexivity.
Qed.

Lemma dropEndWhile_fixed_head (f : char -> bool) (c : char) (s : jsstring) :
  dropEndWhile f (c :: s) = c :: s -> f c = true -> s <> [].
Proof.
  intros H Hc ->. cbn [dropEndWhile] in H. rewrite Hc in H. discriminate.
Qed.

(** In a text without trailing white space, every piece that starts after
    the first character is non-empty. *)
Lemma split_ws_go_pieces (s : jsstring) :
  forall inrun cur,
    (inrun = true /\ cur = [] /\ s <> []) \/ (inrun = false /\ cur <> []) ->
    dropEndWhile isSpace s = s ->
    forallb nonempty (split_ws_go inrun cur s) = true.
Proof.
  induction s as [| c s IH]; intros inrun cur Hst Hend.
  - destruct Hst as [(_ & _ & H) | (_ & H)]; [congruence |].
    cbn [split_ws_go forallb]. rewrite nonempty_rev.
    destruct cur; [congruence | reflexivity].
  - pose proof (dropEndWhile_fixed_tail _ _ _ Hend) as Hs.
    cbn [split_ws_go]. destruct (isSpace c) eqn:Hc.
    + pose proof (dropEndWhile_fixed_head _ _ _ Hend Hc) as Hne.
      destruct Hst as [(-> & -> & _) | (-> & Hcur)].
      * apply IH; [left; auto | exact Hs].
      * cbn [forallb]. rewrite nonempty_rev.
        destruct cur; [congruence |]. cbn [nonempty andb].
        apply IH; [left; auto | exact Hs].
    + apply IH; [right; split; [reflexivity | discriminate] | exact Hs].
Qed.

Lemma filter_all {A : Type} (f : A -> bool) (l : list A) :
  forallb f l = true -> filter f l = l.
Proof.
  induction l as [| x l IH]; cbn [forallb filter]; intros H; [reflexivity |].
  apply andb_true_iff in H. destruct H as [Hx Hl].
  rewrite Hx, (IH Hl). reflexivity.
Qed.

Lemma split_ws_trim_length (text : jsstring) :
  length (split_ws (trim text))
  = match trim text with [] => 1 | _ => countWords text end.
Proof.
  unfold countWords.
  pose proof (trim_is_trimmed text) as Ht.
  pose proof (dropEndWhile_idempotent isSpace (trimStart text)) as Hend.
  fold (trimEnd (trimStart text)) in Hend. fold (trim text) in Hend.
  destruct (trim text) as [| c t] eqn:E; [reflexivity |].
  cbn [is_trimmed] in Ht. apply andb_true_iff in Ht. destruct Ht as [Hc _].
  apply negb_true_iff in Hc.
  rewrite filter_all; [reflexivity |].
  unfold split_ws. cbn [split_ws_go]. rewrite Hc.
  apply split_ws_go_pieces.
  - right. split; [reflexivity | discriminate].
  - unfold trimEnd in Hend. exact (dropEndWhile_fixed_tail _ _ _ Hend).
Qed.

Lemma substantial_words (P : Platform) (element : Element P) :
  hasSubstantialContent P element = (100 <? countWords (textContent P element)).
Proof.
  unfold hasSubstantialContent.
  replace (str_or (textContent P element) []) with (textContent P element)
    by (destruct (textContent P element); reflexivity).
  rewrite split_ws_trim_length.
  destruct (trim (textContent P element)) eqn:E; [| reflexivity].
  unfold countWords. rewrite E. reflexivity.
Qed.

(** X5.  An element has substantial content exactly when its text has more
    than 100 words as [countWords] counts them; on a text of white space
    only the split yields one empty piece, which changes nothing. *)
Theorem hasSubstantialContent_counts_words (P : Platform) (element : Element P) :
  hasSubstantialContent P element = true
  <-> 100 < countWords (textContent P element).
Proof. rewrite substantial_words. apply Nat.ltb_lt. Qed.



(** ** The link taken from a tweet *)

Lemma startsWith_split (p : jsstring) :
  forall s, startsWith p s = true -> s = p ++ skipn (length p) s.
Proof.
  induction p as [| x p IH]; intros s H; [reflexivity |].
  destruct s as [| y s]; [discriminate |].
  cbn [startsWith] in H. apply andb_true_iff in H. destruct H as [Hx Hp].
  apply N.eqb_eq in Hx. subst y. cbn [length skipn app]. f_equal.
  exact (IH s Hp).
Qed.

Lemma startsWith_self_app (p t : jsstring) : startsWith p (p ++ t) = true.
Proof.
  induction p as [| x p IH]; [reflexivity |].
  cbn [app startsWith]. rewrite N.eqb_refl. exact IH.
Qed.

Lemma startsWith_app_l (a b : jsstring) :
  forall s, startsWith (a ++ b) s = true -> startsWith a s = true.
Proof.
  induction a as [| x a IH]; intros s H; [reflexivity |].
  destruct s as [| y s]; [discriminate |].
  cbn [app startsWith] in *. apply andb_true_iff in H. destruct H as [Hx Hp].
  rewrite Hx. exact (IH s Hp).
Qed.

Lemma startsWith_firstn (p : jsstring) :
  forall n s,
    startsWith p s = true -> length p <= n -> startsWith p (firstn n s) = true.
Proof.
  induction p as [| x p IH]; intros n s H Hn; [reflexivity |].
  destruct s as [| y s]; [discriminate |].
  destruct n as [| n]; [cbn [length] in Hn; lia |].
  cbn [startsWith firstn] in *. apply andb_true_iff in H. destruct H as [Hx Hp].
  rewrite Hx. apply IH; [exact Hp | cbn [length] in Hn; lia].
Qed.

(** A suffix of stripped characters never reaches into a prefix that ends
    with a character that is kept. *)
Lemma dropEndWhile_app_keep (f : char -> bool) (a b : jsstring) :
  a <> [] -> dropEndWhile f a = a ->
  dropEndWhile f (a ++ b) = a ++ dropEndWhile f b.
Proof.
  induction a as [| x a IH]; intros Hne Hfix; [congruence |].
  destruct a as [| y a].
  - cbn [dropEndWhile] in Hfix. cbn [app dropEndWhile].
    destruct (f x); [discriminate |].
    destruct (dropEndWhile f b); reflexivity.
  - pose proof (dropEndWhile_fixed_tail _ _ _ Hfix) as Ht.
    specialize (IH ltac:(discriminate) Ht).
    change ((x :: y :: a) ++ b) with (x :: ((y :: a) ++ b)).
    cbn [dropEndWhile]. rewrite IH. reflexivity.
Qed.

Lemma url_match_scheme (s : jsstring) (n : nat) :
  url_match s = Some n ->
  startsWith (lit "https://") (firstn n s) = true
  \/ startsWith (lit "http://") (firstn n s) = true.
Proof.
  unfold url_match.
  destruct (startsWith (lit "https://") s) eqn:Hs.
  - destruct (length (takeWhile isUrlChar (skipn 8 s))); [discriminate |].
    intros H. injection H as <-. left.
    apply startsWith_firstn; [exact Hs | cbn; lia].
  - destruct (startsWith (lit "http://") s) eqn:Hp; [| discriminate].
    destruct (length (takeWhile isUrlChar (skipn 7 s))); [discriminate |].
    intros H. injection H as <-. right.
    apply startsWith_firstn; [exact Hp | cbn; lia].
Qed.

(** Every match of the URL pattern is a piece of the text that begins with
    the scheme. *)
Lemma url_matches_go_sound (s : jsstring) :
  forall skip m,
    In m (url_matches_go skip s) ->
    (exists pre post, s = pre ++ m ++ post)
    /\ (startsWith (lit "https://") m = true
        \/ startsWith (lit "http://") m = true).
Proof.
  induction s as [| c s IH]; intros skip m Hin; [destruct Hin |].
  assert (Hrest : forall k, In m (url_matches_go k s) ->
            (exists pre post, c :: s = pre ++ m ++ post)
            /\ (startsWith (lit "https://") m = true
                \/ startsWith (lit "http://") m = true)).
  { intros k Hk. destruct (IH k m Hk) as [(pre & post & ->) Hsch].
    split; [| exact Hsch]. exists (c :: pre), post. reflexivity. }
  cbn [url_matches_go] in Hin. destruct skip as [| k]; [| exact (Hrest _ Hin)].
  destruct (url_match (c :: s)) as [[| k] |] eqn:Hm; try exact (Hrest _ Hin).
  destruct Hin as [<- | Hin]; [| exact (Hrest _ Hin)].
  split; [| exact (url_match_scheme _ _ Hm)].
  exists [], (skipn (S k) (c :: s)).
  rewrite app_nil_l. symmetry. apply firstn_skipn.
Qed.

Lemma firstQualifying_sound (P : Platform) (matches : list jsstring) (u : jsstring) :
  firstQualifying P matches = Some u ->
  exists rawUrl parsed,
    In rawUrl matches
    /\ u = dropEndWhile isTrailingPunct rawUrl
    /\ URL_parse P u = Some parsed
    /\ str_eqb (hostname parsed) (lit "twitter.com") = false
    /\ str_eqb (hostname parsed) (lit "x.com") = false
    /\ endsWith (lit ".twitter.com") (hostname parsed) = false
    /\ endsWith (lit ".x.com") (hostname parsed) = false
    /\ matchesSkipPattern u = false.
Proof.
  induction matches as [| rawUrl rest IH]; cbn [firstQualifying]; intros H;
    [discriminate |].
  assert (Hrest : firstQualifying P rest = Some u ->
            exists rawUrl0 parsed,
              In rawUrl0 (rawUrl :: rest)
              /\ u = dropEndWhile isTrailingPunct rawUrl0
              /\ URL_parse P u = Some parsed
              /\ str_eqb (hostname parsed) (lit "twitter.com") = false
              /\ str_eqb (hostname parsed) (lit "x.com") = false
              /\ endsWith (lit ".twitter.com") (hostname parsed) = false
              /\ endsWith (lit ".x.com") (hostname parsed) = false
              /\ matchesSkipPattern u = false).
  { intros Hr. destruct (IH Hr) as (r & p & Hin & Hrest).
    exists r, p. split; [right; exact Hin | exact Hrest]. }
  destruct (URL_parse P (dropEndWhile isTrailingPunct rawUrl)) as [parsed |] eqn:Hp;
    [| exact (Hrest H)].
  destruct (str_eqb (hostname parsed) (lit "twitter.com")) eqn:H1;
    [exact (Hrest H) |].
  destruct (str_eqb (hostname parsed) (lit "x.com")) eqn:H2;
    [exact (Hrest H) |].
  destruct (endsWith (lit ".twitter.com") (hostname parsed)) eqn:H3;
    [exact (Hrest H) |].
  destruct (endsWith (lit ".x.com") (hostname parsed)) eqn:H4;
    [exact (Hrest H) |].
  cbn [orb] in H.
  destruct (matchesSkipPattern (dropEndWhile isTrailingPunct rawUrl)) eqn:H5;
    [exact (Hrest H) |].
  injection H as <-. exists rawUrl, parsed.
  repeat split; try assumption. left. reflexivity.
Qed.

(** A host that is neither twitter.com nor x.com nor below one of them is
    none of the hosts rendered through Jina. *)
Lemma not_twitter_not_jsHeavy (P : Platform) (u : jsstring) (parsed : URL) :
  URL_parse P u = Some parsed ->
  str_eqb (hostname parsed) (lit "twitter.com") = false ->
  str_eqb (hostname parsed) (lit "x.com") = false ->
  endsWith (lit ".twitter.com") (hostname parsed) = false ->
  endsWith (lit ".x.com") (hostname parsed) = false ->
  needsJsRendering P u = false.
Proof.
  intros Hp H1 H2 H3 H4. unfold needsJsRendering. rewrite Hp.
  unfold jsHeavyDomains. cbn [map existsb].
  rewrite H1, H2.
  change (lit "." ++ lit "twitter.com") with (lit ".twitter.com").
  change (lit "." ++ lit "x.com") with (lit ".x.com").
  rewrite H3, H4. cbn [orb].
  assert (Hm1 : str_eqb (hostname parsed) (lit "mobile.twitter.com") = false).
  { destruct (str_eqb (hostname parsed) (lit "mobile.twitter.com")) eqn:E;
      [| reflexivity].
    apply str_eqb_eq in E. rewrite E in H3. discriminate. }
  assert (Hm2 : str_eqb (hostname parsed) (lit "mobile.x.com") = false).
  { destruct (str_eqb (hostname parsed) (lit "mobile.x.com")) eqn:E;
      [| reflexivity].
    apply str_eqb_eq in E. rewrite E in H4. discriminate. }
  rewrite Hm1, Hm2. cbn [orb].
  assert (He1 : endsWith (lit "." ++ lit "mobile.twitter.com") (hostname parsed) = false).
  { destruct (endsWith (lit "." ++ lit "mobile.twitter.com") (hostname parsed)) eqn:E;
      [| reflexivity].
    unfold endsWith in E, H3.
    change (rev (lit "." ++ lit "mobile.twitter.com"))
      with (rev (lit ".twitter.com") ++ rev (lit ".mobile")) in E.
    rewrite (startsWith_app_l _ _ _ E) in H3. discriminate. }
  assert (He2 : endsWith (lit "." ++ lit "mobile.x.com") (hostname parsed) = false).
  { destruct (endsWith (lit "." ++ lit "mobile.x.com") (hostname parsed)) eqn:E;
      [| reflexivity].
    unfold endsWith in E, H4.
    change (rev (lit "." ++ lit "mobile.x.com"))
      with (rev (lit ".x.com") ++ rev (lit ".mobile")) in E.
    rewrite (startsWith_app_l _ _ _ E) in H4. discriminate. }
  rewrite He1, He2. reflexivity.
Qed.

Lemma scheme_survives_punctuation (scheme m : jsstring) :
  scheme <> [] ->
  dropEndWhile isTrailingPunct scheme = scheme ->
  startsWith scheme m = true ->
  startsWith scheme (dropEndWhile isTrailingPunct m) = true.
Proof.
  intros Hne Hfix Hs.
  rewrite (startsWith_split _ _ Hs).
  rewrite (dropEndWhile_app_keep _ _ _ Hne Hfix).
  apply startsWith_self_app.
Qed.

(** X7.  The link that [extractFirstUrl] takes out of a text is a piece of
    that text; it begins with http:// or https://, ends with none of the
    punctuation characters, parses as a URL, matches no skip pattern (image,
    video, PDF, YouTube), and its host is none of those rendered through
    Jina, so that it is never a tweet itself. *)
Theorem extractFirstUrl_sound (P : Platform) (text u : jsstring) :
  extractFirstUrl P text = Some u ->
  (exists pre post, text = pre ++ u ++ post)
  /\ (startsWith (lit "https://") u = true \/ startsWith (lit "http://") u = true)
  /\ dropEndWhile isTrailingPunct u = u
  /\ (exists parsed, URL_parse P u = Some parsed)
  /\ matchesSkipPattern u = false
  /\ needsJsRendering P u = false.
Proof.
  unfold extractFirstUrl, url_matches. intros H.
  destruct (firstQualifying_sound P _ _ H)
    as (rawUrl & parsed & Hin & -> & Hp & H1 & H2 & H3 & H4 & H5).
  destruct (url_matches_go_sound _ _ _ Hin) as [(pre & post & ->) Hsch].
  split; [| split; [| split; [| split; [| split]]]].
  - destruct (dropEndWhile_prefix isTrailingPunct rawUrl) as [tail Ht].
    exists pre, (tail ++ post). f_equal.
    rewrite app_assoc. f_equal. exact Ht.
  - destruct Hsch as [Hs | Hs]; [left | right];
      apply scheme_survives_punctuation; try exact Hs;
      try discriminate; reflexivity.
  - apply dropEndWhile_idempotent.
  - exists parsed. exact Hp.
  - exact H5.
  - exact (not_twitter_not_jsHeavy P _ parsed Hp H1 H2 H3 H4).
Qed.

(** ** The requests of an extraction *)

Section RequestsOnly.

Variables W U : Type.
Variable net : Net W.

Lemma ro_weaken {A} (n k : nat) (m : M W U A) :
  n <= k -> requestsOnly n m -> requestsOnly k m.
Proof.
  intros Hle Hm st. destruct (Hm st) as [Hh (effs & Ht & Ha & Hl)].
  split; [exact Hh |]. exists effs. repeat split; try assumption. lia.
Qed.

Lemma ro_pure {A} (o : outcome A) : requestsOnly 0 (fun st : State W U => (o, st)).
Proof.
  intros st. split; [reflexivity |]. exists [].
  cbn [snd]. rewrite app_nil_r. repeat split. reflexivity.
Qed.

Lemma ro_ret {A} (a : A) : requestsOnly 0 (@ret W U A a).
Proof. exact (ro_pure (Return a)). Qed.

Lemma ro_throw {A} (e : thrown) : requestsOnly 0 (@throw W U A e).
Proof. exact (ro_pure (Throw e)). Qed.

Lemma ro_lift {A} (o : outcome A) : requestsOnly 0 (@lift W U A o).
Proof. exact (ro_pure o). Qed.

Lemma ro_fetch (init : FetchInit) : requestsOnly 1 (@fetch W U net init).
Proof.
  intros st. unfold fetch.
  destruct (net_fetch net init (world st)) as [r w]. cbn [snd host trace].
  split; [reflexivity |]. exists [EFetch init]. repeat split. reflexivity.
Qed.

Lemma ro_requestUrl (param : RequestUrlParam) :
  requestsOnly 1 (@requestUrl W U net param).
Proof.
  intros st. unfold requestUrl.
  destruct (net_requestUrl net param (world st)) as [r w]. cbn [snd host trace].
  split; [reflexivity |]. exists [ERequestUrl param]. repeat split. reflexivity.
Qed.

Lemma ro_seq (n k : nat) (st st1 st2 : State W U) :
  (host st1 = host st
   /\ exists effs, trace st1 = trace st ++ effs
                   /\ forallb isRequest effs = true /\ length effs <= n) ->
  (host st2 = host st1
   /\ exists effs, trace st2 = trace st1 ++ effs
                   /\ forallb isRequest effs = true /\ length effs <= k) ->
  host st2 = host st
  /\ exists effs, trace st2 = trace st ++ effs
                  /\ forallb isRequest effs = true /\ length effs <= n + k.
Proof.
  intros [Hh1 (e1 & Ht1 & Ha1 & Hl1)] [Hh2 (e2 & Ht2 & Ha2 & Hl2)].
  split; [congruence |]. exists (e1 ++ e2).
  rewrite Ht2, Ht1, app_assoc, forallb_app, Ha1, Ha2, length_app.
  repeat split. lia.
Qed.

Lemma ro_bind {A B} (n k : nat) (m : M W U A) (f : A -> M W U B) :
  requestsOnly n m -> (forall a, requestsOnly k (f a)) ->
  requestsOnly (n + k) (bind m f).
Proof.
  intros Hm Hf st. specialize (Hm st). unfold bind.
  destruct (m st) as [[a | e] st1]; cbn [snd] in Hm.
  - exact (ro_seq n k st st1 _ Hm (Hf a st1)).
  - cbn [snd]. apply (ro_seq n k st st1 st1 Hm).
    split; [reflexivity |]. exists []. rewrite app_nil_r.
    repeat split. cbn. lia.
Qed.

Lemma ro_try_catch {A} (n k : nat) (m : M W U A) (h : thrown -> M W U A) :
  requestsOnly n m -> (forall e, requestsOnly k (h e)) ->
  requestsOnly (n + k) (try_catch m h).
Proof.
  intros Hm Hh st. specialize (Hm st). unfold try_catch.
  destruct (m st) as [[a | e] st1]; cbn [snd] in Hm.
  - cbn [snd]. apply (ro_seq n k st st1 st1 Hm).
    split; [reflexivity |]. exists []. rewrite app_nil_r.
    repeat split. cbn. lia.
  - exact (ro_seq n k st st1 _ Hm (Hh e st1)).
Qed.

Variable P : Platform.

Lemma ro_new_URL (s : jsstring) : requestsOnly 0 (@new_URL P W U s).
Proof.
  unfold new_URL. destruct (URL_parse P s); [apply ro_ret | apply ro_throw].
Qed.

Lemma ro_resolveShortUrl (url : jsstring) :
  requestsOnly 2 (@resolveShortUrl W U net url).
Proof.
  unfold resolveShortUrl.
  apply (@ro_try_catch _ 1 1).
  - apply (@ro_bind _ _ 1 0); [apply ro_fetch | intros; apply ro_ret].
  - intros _. apply (@ro_try_catch _ 1 0).
    + apply (@ro_bind _ _ 1 0); [apply ro_fetch | intros; apply ro_ret].
    + intros _. apply ro_ret.
Qed.

Lemma ro_resolveStep (url : jsstring) : requestsOnly 2 (@resolveStep P W U net url).
Proof.
  unfold resolveStep. destruct (isUrlShortener P url).
  - apply ro_resolveShortUrl.
  - apply (@ro_weaken _ 0); [lia | apply ro_ret].
Qed.

Lemma ro_cli_extractRawText (url : jsstring) :
  requestsOnly 1 (@cli_extractRawText P W U net url).
Proof.
  unfold cli_extractRawText.
  apply (@ro_bind _ _ 1 0); [apply ro_fetch |]. intros response.
  destruct (negb (r_ok response)); [apply ro_throw |].
  apply (@ro_bind _ _ 0 0); [apply ro_lift |]. intros text.
  apply (@ro_bind _ _ 0 0); [apply ro_new_URL |]. intros parsed. apply ro_ret.
Qed.

Lemma ro_cli_extractViaJina (url : jsstring) :
  requestsOnly 1 (@cli_extractViaJina W U net url).
Proof.
  unfold cli_extractViaJina.
  apply (@ro_bind _ _ 1 0); [apply ro_fetch |]. intros response.
  destruct (negb (r_ok response)); [apply ro_throw |].
  apply (@ro_bind _ _ 0 0); [apply ro_lift |]. intros text. apply ro_ret.
Qed.

Lemma ro_cli_extractGeneric (url : jsstring) :
  requestsOnly 1 (@cli_extractGeneric P W U net url).
Proof.
  unfold cli_extractGeneric.
  apply (@ro_bind _ _ 1 0); [apply ro_fetch |]. intros response.
  destruct (negb (r_ok response)); [apply ro_throw |].
  apply (@ro_bind _ _ 0 0); [apply ro_lift |]. intros text. apply ro_ret.
Qed.

Lemma ro_cli_body (k : nat) (self : jsstring -> M W U ExtractedContent)
    (url : jsstring) (followLinks : bool) :
  (followLinks = true -> forall u, requestsOnly k (self u)) ->
  requestsOnly (3 + if followLinks then k else 0)
    (@cli_extractFromUrl_body P W U net self url followLinks).
Proof.
  intros Hself. unfold cli_extractFromUrl_body.
  apply (@ro_bind _ _ 2 (1 + if followLinks then k else 0));
    [apply ro_resolveStep |].
  intros resolved.
  destruct (isRawTextUrl P (convertGitHubUrl P resolved)).
  { apply (@ro_weaken _ 1); [lia | apply ro_cli_extractRawText]. }
  destruct (needsJsRendering P (convertGitHubUrl P resolved)).
  2:{ apply (@ro_weaken _ 1); [lia | apply ro_cli_extractGeneric]. }
  apply (@ro_bind _ _ 1); [apply ro_cli_extractViaJina |]. intros tweet.
  destruct followLinks; [| apply ro_ret].
  destruct (extractFirstUrl P (content tweet)) as [linkedUrl |].
  - apply (@ro_weaken _ (k + 0)); [lia |].
    apply (@ro_try_catch _ k 0).
    + apply (@ro_weaken _ (k + 0)); [lia |].
      apply (@ro_bind _ _ k 0); [apply Hself; reflexivity | intros; apply ro_ret].
    + intros _. apply ro_ret.
  - apply (@ro_weaken _ 0); [lia | apply ro_ret].
Qed.

Lemma ro_cli_extractFromUrl_false (url : jsstring) :
  requestsOnly 3 (@cli_extractFromUrl P W U net url false).
Proof.
  unfold cli_extractFromUrl.
  apply (@ro_cli_body 0 _ url false). discriminate.
Qed.

(** X8.  An extraction of the command-line tool only talks to the network:
    it leaves the rest of the state alone and sends at most three requests
    (two to resolve a shortener, one for the page) when links are not
    followed, and at most six when they are, whatever the network answers. *)
Theorem cli_extractFromUrl_request_bound (url : jsstring) (followLinks : bool) :
  requestsOnly (if followLinks then 6 else 3)
    (@cli_extractFromUrl P W U net url followLinks).
Proof.
  destruct followLinks; [| apply ro_cli_extractFromUrl_false].
  unfold cli_extractFromUrl.
  apply (@ro_cli_body 3 _ url true). intros _ u.
  apply (@ro_cli_body 0 _ u false). discriminate.
Qed.

Lemma ro_extractRawText (url : jsstring) :
  requestsOnly 1 (@extractRawText P W U net url).
Proof.
  unfold extractRawText.
  apply (@ro_bind _ _ 1 0); [apply ro_requestUrl |]. intros response.
  apply (@ro_bind _ _ 0 0); [apply ro_new_URL |]. intros parsed. apply ro_ret.
Qed.

Lemma ro_extractViaJina (url : jsstring) :
  requestsOnly 1 (@extractViaJina W U net url).
Proof.
  unfold extractViaJina.
  apply (@ro_bind _ _ 1 0); [apply ro_requestUrl |]. intros response. apply ro_ret.
Qed.

Lemma ro_extractGeneric (target url : jsstring) :
  requestsOnly 1 (@extractGeneric P W U net target url).
Proof.
  unfold extractGeneric, fetchUrl.
  apply (@ro_bind _ _ 1 0); [apply ro_requestUrl |]. intros response.
  apply (@ro_bind _ _ 0 0); [apply ro_lift |]. intros main. apply ro_ret.
Qed.

(** X9.  An extraction of the plugin only talks to the network: it leaves
    the rest of the state alone and sends at most three requests, two to
    resolve a shortener and one for the page; the extractor without
    strategies sends at most one. *)
Theorem extractFromUrl_request_bound (url : jsstring) :
  requestsOnly 3 (@extractFromUrl P W U net url)
  /\ requestsOnly 1 (@basic_extractFromUrl P W U net url).
Proof.
  split; [| apply ro_extractGeneric].
  unfold extractFromUrl, extractResolved.
  apply (@ro_bind _ _ 2 1); [apply ro_resolveStep |]. intros resolved.
  destruct (isRawTextUrl P (convertGitHubUrl P resolved));
    [apply ro_extractRawText |].
  destruct (needsJsRendering P (convertGitHubUrl P resolved));
    [apply ro_extractViaJina | apply ro_extractGeneric].
Qed.

(** X10.  In the plugin the word count of every result is the number of
    words of its content: no path puts two results together. *)
Theorem extractFromUrl_wordCount (url : jsstring) (st st' : State W U)
    (r : ExtractedContent) :
  extractFromUrl P net url st = (Return r, st')
  \/ basic_extractFromUrl P net url st = (Return r, st') ->
  wordCount r = countWords (content r).
Proof.
  rewrite countWords_token_count.
  intros [H | H].
  - unfold extractFromUrl, extractResolved, bind in H.
    destruct (@resolveStep P W U net url st) as [[resolved | e] st1]; [| discriminate].
    destruct (isRawTextUrl P (convertGitHubUrl P resolved)).
    + apply extractRawText_inv in H. destruct H as (text & parsed & ->).
      apply fromRawText_wordCount.
    + destruct (needsJsRendering P (convertGitHubUrl P resolved)).
      * apply extractViaJina_inv in H. destruct H as (md & ->).
        apply fromJinaMarkdown_wordCount.
      * apply extractGeneric_inv in H. destruct H as (doc & main & ->).
        apply fromMainContent_wordCount.
  - unfold basic_extractFromUrl in H.
    apply extractGeneric_inv in H. destruct H as (doc & main & ->).
    apply fromMainContent_wordCount.
Qed.

End RequestsOnly.

(** ** The requests of a summarisation *)

Section SendsAtMost.

Variables W U : Type.
Variable net : Net W.



Lemma sa_silent {A} (m : M W U A) :
  (forall st, exists e,
      trace (snd (m st)) = trace st ++ e /\ requests e = 0) ->
  sendsAtMost 0 m.
Proof.
  intros H st. destruct (H st) as (e & Ht & Hr).
  exists e. split; [exact Ht | lia].
Qed.







Lemma sa_get_host : sendsAtMost 0 (@get_host W U).
Proof.
  apply sa_silent. intros st. exists []. cbn [get_host snd].
  rewrite app_nil_r. split; reflexivity.
Qed.








Lemma sa_try_finally {A} (n : nat) (m : M W U A) (f : U -> U) :
  sendsAtMost n m -> sendsAtMost n (try_finally m f).
Proof.
  intros Hm st. specialize (Hm st). unfold try_finally.
  destruct (m st) as [r st1]. exact Hm.
Qed.

Variable P : Platform.
Variable settings : SummarizeSettings.
Variable keydown : jsstring -> U -> U.











End SendsAtMost.

(** ** The fallback when every model is rate limited *)

Section FallbackFacts.

Variable P : Platform.
Variables W U : Type.
Variable net : Net W.
Variable settings : SummarizeSettings.
Variable keydown : jsstring -> U -> U.

Lemma autoFreeLoop_exhausted (prompt : jsstring) (models : list jsstring) :
  (forall param w, exists response w',
      net_requestUrl net param w = (Return response, w')
      /\ q_status response = 429%N) ->
  forall lastError (st : State W U),
  exists w',
    autoFreeLoop P net settings keydown prompt None models lastError st
    = (Throw (allRateLimited
                match models with
                | [] => lastError
                | _ => Some (raised (RateLimited (last models [])))
                end),
       mkState w' (host st) (trace st ++ exhaustedTrace P settings prompt models)).
Proof.
  intros Hnet. induction models as [| modelId rest IH]; intros lastError st.
  - exists (world st). cbn [autoFreeLoop exhaustedTrace flat_map].
    rewrite app_nil_r. destruct st; reflexivity.
  - destruct (Hnet (completionRequest P settings modelId prompt) (world st))
      as (response & w1 & Hn & H429).
    pose proof (autoFreeLoop_step P W U net settings keydown prompt None modelId rest
                  lastError st) as Hstep.
    cbn [attempt] in Hstep.
    rewrite (completion_429 P W U net settings modelId prompt st response w1 Hn H429)
      in Hstep.
    change (asError (raised (RateLimited modelId)))
      with (raised (RateLimited modelId)) in Hstep.
    rewrite isRateLimit_429 in Hstep. rewrite Hstep.
    destruct (IH (Some (raised (RateLimited modelId)))
                 (noticed (rateLimitedNotice settings modelId)
                    (requested (completionRequest P settings modelId prompt) w1 st)))
      as (w' & Hrest).
    exists w'. rewrite Hrest. f_equal.
    + destruct rest; reflexivity.
    + unfold noticed, requested. cbn [host trace exhaustedTrace flat_map].
      rewrite <- !app_assoc. reflexivity.
Qed.

(** X12.  When every ranked model answers with status 429, the fallback
    asks each model once, in the order of the rank, shows the notice after
    each of them, the last one included, and then fails with the error that
    names the last model of the rank; the caller's state is left alone. *)
Theorem fallback_exhausted (prompt : jsstring) (st : State W U) :
  freeModelRank settings <> [] ->
  (forall param w, exists response w',
      net_requestUrl net param w = (Return response, w')
      /\ q_status response = 429%N) ->
  exists w',
    completionWithAutoFree P net settings keydown prompt None st
    = (Throw (newError
                (lit "All ranked free models are rate limited. Last error: "
                   ++ rateLimitMessage (last (freeModelRank settings) []))),
       mkState w' (host st)
         (trace st ++ exhaustedTrace P settings prompt (freeModelRank settings))).
Proof.
  intros Hne Hnet. unfold completionWithAutoFree.
  destruct (autoFreeLoop_exhausted prompt (freeModelRank settings) Hnet None st)
    as (w' & H).
  exists w'. destruct (freeModelRank settings) as [| m rest]; [congruence |].
  exact H.
Qed.

Lemma includes_nonempty (p s : jsstring) :
  p <> [] -> includes p s = true -> s <> [].
Proof. intros Hp H ->. destruct p; [congruence | discriminate]. Qed.

(** X13.  The fallback recognises a rate limit by the text of the error: a
    response with a status other than 200 and 429 whose body holds the
    digits 429 anywhere makes the loop show the notice and go on with the
    next model, as a response with status 429 does. *)
Theorem body_mentioning_429_is_rate_limit (prompt modelId : jsstring)
    (rest : list jsstring) (lastError : option thrown) (st : State W U)
    (response : RequestUrlResponse) (w' : W) :
  net_requestUrl net (completionRequest P settings modelId prompt) (world st)
    = (Return response, w') ->
  q_status response <> 429%N ->
  q_status response <> 200%N ->
  includes (lit "429") (q_text response) = true ->
  autoFreeLoop P net settings keydown prompt None (modelId :: rest) lastError st
  = autoFreeLoop P net settings keydown prompt None rest
      (Some (newError (lit "OpenRouter API error: " ++ q_text response)))
      (noticed (rateLimitedNotice settings modelId)
         (requested (completionRequest P settings modelId prompt) w' st)).
Proof.
  intros Hn H429 H200 Hinc.
  pose proof (autoFreeLoop_step P W U net settings keydown prompt None modelId rest
                lastError st) as Hstep.
  cbn [attempt] in Hstep.
  rewrite (completion_not_200 P W U net settings modelId prompt st response w' Hn H429 H200)
    in Hstep.
  assert (Ht : str_or (q_text response) (lit "HTTP " ++ decimal (q_status response))
               = q_text response).
  { destruct (q_text response) eqn:E; [| reflexivity].
    exfalso. exact (includes_nonempty (lit "429") [] ltac:(discriminate) Hinc eq_refl). }
  rewrite Ht in Hstep.
  change (asError (raised (FatalCompletionError
                             (lit "OpenRouter API error: " ++ q_text response))))
    with (newError (lit "OpenRouter API error: " ++ q_text response)) in Hstep.
  assert (Hr : isRateLimit P (newError (lit "OpenRouter API error: " ++ q_text response))
               = true).
  { unfold isRateLimit, newError, message.
    rewrite (includes_app_r _ _ _ Hinc). reflexivity. }
  rewrite Hr in Hstep. exact Hstep.
Qed.

(** ** The text a stream returns *)

Lemma processLine_appends (onStream : callback U) (line fullContent : jsstring)
    (st st' : State W U) (full' : jsstring) :
  processLine P onStream line fullContent st = (Return full', st') ->
  exists effs,
    trace st' = trace st ++ effs
    /\ full' = fullContent ++ flat_map (ToString P) (streamed effs).
Proof.
  assert (Hstay : forall (s : State W U) (full : jsstring),
            exists effs, trace s = trace s ++ effs
                         /\ full = full ++ flat_map (ToString P) (streamed effs)).
  { intros s full. exists []. cbn. rewrite !app_nil_r. split; reflexivity. }
  unfold processLine.
  destruct (startsWith (lit "data: ") line);
    [| unfold ret; intros H; injection H as <- <-; apply Hstay].
  destruct (str_eqb (slice 6 line) (lit "[DONE]"));
    [unfold ret; intros H; injection H as <- <-; apply Hstay |].
  unfold try_catch, bind, lift, swallow, throw, ret, call.
  destruct (JSON_parse P (slice 6 line)) as [parsed | e].
  2:{ destruct (rethrown e); intros H; [discriminate |].
      injection H as <- <-. apply Hstay. }
  destruct (read_prop P parsed (lit "error")) as [err | e].
  2:{ destruct (rethrown e); intros H; [discriminate |].
      injection H as <- <-. apply Hstay. }
  destruct (truthy err).
  { destruct (rethrown _); intros H; [discriminate |].
    injection H as <- <-. apply Hstay. }
  destruct (truthy (firstChoice "delta" parsed)).
  2:{ intros H. injection H as <- <-. apply Hstay. }
  destruct (onStream (firstChoice "delta" parsed) (host st)) as [[[] | e] u].
  - intros H. injection H as <- <-.
    exists [EStream (firstChoice "delta" parsed)]. cbn [trace streamed flat_map app].
    rewrite app_nil_r. split; reflexivity.
  - destruct (rethrown e) eqn:R; cbv beta iota; rewrite ?R; intros H;
      [discriminate |].
    injection H as <- <-.
    exists [EStream (firstChoice "delta" parsed)]. cbn [trace streamed flat_map app].
    rewrite app_nil_r. split; reflexivity.
Qed.

Lemma streamed_app (a b : list Effect) : streamed (a ++ b) = streamed a ++ streamed b.
Proof. unfold streamed. apply flat_map_app. Qed.

Lemma appends_trans (full0 full1 full2 : jsstring) (t0 t1 t2 : list Effect) :
  (exists effs, t1 = t0 ++ effs
                /\ full1 = full0 ++ flat_map (ToString P) (streamed effs)) ->
  (exists effs, t2 = t1 ++ effs
                /\ full2 = full1 ++ flat_map (ToString P) (streamed effs)) ->
  exists effs, t2 = t0 ++ effs
               /\ full2 = full0 ++ flat_map (ToString P) (streamed effs).
Proof.
  intros (e1 & -> & ->) (e2 & -> & ->). exists (e1 ++ e2).
  rewrite streamed_app, flat_map_app, !app_assoc. split; reflexivity.
Qed.

Lemma processLines_appends (onStream : callback U) (lines : list jsstring) :
  forall fullContent (st st' : State W U) full',
    processLines P onStream lines fullContent st = (Return full', st') ->
    exists effs,
      trace st' = trace st ++ effs
      /\ full' = fullContent ++ flat_map (ToString P) (streamed effs).
Proof.
  induction lines as [| ln rest IH]; intros fullContent st st' full';
    cbn [processLines].
  - unfold ret. intros H. injection H as <- <-.
    exists []. cbn. rewrite !app_nil_r. split; reflexivity.
  - unfold bind.
    destruct (processLine P onStream ln fullContent st) as [[full1 | e] st1] eqn:E;
      [| discriminate].
    intros H.
    exact (appends_trans _ _ _ _ _ _ (processLine_appends _ _ _ _ _ _ E)
             (IH _ _ _ _ H)).
Qed.

Lemma readLoop_appends (onStream : callback U) (events : list BodyEvent) :
  forall fullContent (st st' : State W U) full',
    readLoop P keydown onStream events fullContent st = (Return full', st') ->
    exists effs,
      trace st' = trace st ++ effs
      /\ full' = fullContent ++ flat_map (ToString P) (streamed effs).
Proof.
  induction events as [| [chunk | e | key] rest IH];
    intros fullContent st st' full'; cbn [readLoop].
  - unfold ret. intros H. injection H as <- <-.
    exists []. cbn. rewrite !app_nil_r. split; reflexivity.
  - unfold bind.
    destruct (processLines P onStream (split_char LF chunk) fullContent st)
      as [[full1 | e] st1] eqn:E; [| discriminate].
    intros H.
    exact (appends_trans _ _ _ _ _ _ (processLines_appends _ _ _ _ _ _ E)
             (IH _ _ _ _ H)).
  - discriminate.
  - unfold bind, on_host. intros H. exact (IH _ _ _ _ H).
Qed.

(** X14.  The content a streaming completion returns is the text of the
    chunks it has handed to the callback, put end to end in the order of
    the calls; this holds as well when the callback has thrown an exception
    that the loop swallowed. *)
Theorem streamCompletion_content (model prompt : jsstring) (onStream : callback U)
    (st st' : State W U) (r : LLMResponse) :
  streamCompletion P net settings keydown model prompt onStream st = (Return r, st') ->
  exists effs,
    trace st' = trace st ++ effs
    /\ res_content r = VStr (flat_map (ToString P) (streamed effs)).
Proof.
  unfold streamCompletion, bind, fetch, lift, throw, ret. intros H.
  destruct (net_fetch net _ (world st)) as [[response | e] w']; [| discriminate].
  destruct (N.eqb (r_status response) 429); [discriminate |].
  destruct (negb (r_ok response)).
  { destruct (r_text response); discriminate. }
  destruct (r_body response) as [events |]; [| discriminate].
  destruct (readLoop P keydown onStream events [] _) as [[full | e] st2] eqn:E;
    [| discriminate].
  injection H as <- <-.
  destruct (readLoop_appends _ _ _ _ _ _ E) as (effs & Ht & ->).
  cbn [trace] in Ht.
  exists (EFetch (streamRequest P settings model prompt) :: effs).
  cbn [res_content app]. rewrite Ht, <- app_assoc. split; reflexivity.
Qed.

End FallbackFacts.

(** ** The prompt *)

Lemma replace_all_go_absent (pat repl : jsstring) (s : jsstring) :
  forall seen,
    includes pat s = false -> replace_all_go pat repl seen 0 s = s.
Proof.
  induction s as [| c s IH]; intros seen H; [reflexivity |].
  cbn [includes] in H. apply orb_false_iff in H. destruct H as [Hs Hi].
  cbn [replace_all_go]. rewrite Hs. f_equal. exact (IH _ Hi).
Qed.

Lemma expand_replacement_plain (matched before after repl : jsstring) :
  noDollar repl = true -> expand_replacement matched before after repl = repl.
Proof.
  unfold noDollar. induction repl as [| c r IH]; intros H; [reflexivity |].
  cbn [forallb] in H. apply andb_true_iff in H. destruct H as [Hc Hr].
  apply negb_true_iff in Hc. cbn [expand_replacement]. rewrite Hc.
  f_equal. exact (IH Hr).
Qed.

Lemma replace_all_go_seen (pat repl : jsstring) (s : jsstring) :
  noDollar repl = true ->
  forall skip seen1 seen2,
    replace_all_go pat repl seen1 skip s = replace_all_go pat repl seen2 skip s.
Proof.
  intros Hd. induction s as [| c s IH]; intros skip seen1 seen2; [reflexivity |].
  cbn [replace_all_go]. destruct skip as [| k]; [| apply IH].
  destruct (startsWith pat (c :: s)).
  - rewrite !(expand_replacement_plain _ _ _ _ Hd). f_equal. apply IH.
  - f_equal. apply IH.
Qed.

Lemma replace_all_go_skip (pat repl : jsstring) (x : jsstring) :
  forall seen rest,
    replace_all_go pat repl seen (length x) (x ++ rest)
    = replace_all_go pat repl (rev x ++ seen) 0 rest.
Proof.
  induction x as [| c x IH]; intros seen rest; [reflexivity |].
  cbn [length app rev]. rewrite <- app_assoc. cbn [app].
  rewrite <- IH. reflexivity.
Qed.

Lemma startsWith_open (pat' : jsstring) (c : char) (s : jsstring) :
  N.eqb c 123 = false -> startsWith (123%N :: pat') (c :: s) = false.
Proof.
  intros H. cbn [startsWith]. rewrite N.eqb_sym, H. reflexivity.
Qed.

(** A text without an opening brace is passed unchanged by the replacement
    of a placeholder. *)
Lemma replace_all_go_noOpen (pat' repl : jsstring) (pre : jsstring) :
  noOpenBrace pre = true ->
  forall seen s,
    replace_all_go (123%N :: pat') repl seen 0 (pre ++ s)
    = pre ++ replace_all_go (123%N :: pat') repl (rev pre ++ seen) 0 s.
Proof.
  unfold noOpenBrace. induction pre as [| c pre IH]; intros H seen s;
    [reflexivity |].
  cbn [forallb] in H. apply andb_true_iff in H. destruct H as [Hc Hp].
  apply negb_true_iff in Hc.
  change ((c :: pre) ++ s) with (c :: (pre ++ s)).
  cbn [replace_all_go]. rewrite (startsWith_open pat' c (pre ++ s) Hc).
  cbn [app rev]. f_equal. rewrite <- app_assoc. exact (IH Hp _ _).
Qed.

Lemma replace_all_noOpen (pat' repl pre s : jsstring) :
  noDollar repl = true -> noOpenBrace pre = true ->
  replace_all (123%N :: pat') repl (pre ++ s)
  = pre ++ replace_all (123%N :: pat') repl s.
Proof.
  intros Hd Hp. unfold replace_all.
  rewrite (replace_all_go_noOpen pat' repl pre Hp). f_equal.
  apply replace_all_go_seen. exact Hd.
Qed.

Lemma replace_all_keeps (pat' repl s : jsstring) :
  noOpenBrace s = true -> replace_all (123%N :: pat') repl s = s.
Proof.
  intros Hs. unfold replace_all.
  pose proof (replace_all_go_noOpen pat' repl s Hs [] []) as H.
  rewrite !app_nil_r in H. exact H.
Qed.

Lemma skipn_own_length (x rest : jsstring) : skipn (length x) (x ++ rest) = rest.
Proof. induction x as [| c x IH]; [reflexivity | exact IH]. Qed.

Lemma replace_all_match (c : char) (pat' repl rest : jsstring) :
  noDollar repl = true ->
  replace_all (c :: pat') repl ((c :: pat') ++ rest)
  = repl ++ replace_all (c :: pat') repl rest.
Proof.
  intros Hd. unfold replace_all.
  change ((c :: pat') ++ rest) with (c :: (pat' ++ rest)).
  cbn [replace_all_go].
  change (c :: (pat' ++ rest)) with ((c :: pat') ++ rest).
  rewrite startsWith_self_app, (expand_replacement_plain _ _ _ _ Hd).
  f_equal. cbn [length].
  replace (S (length pat') - 1) with (length pat') by lia.
  rewrite replace_all_go_skip.
  apply replace_all_go_seen. exact Hd.
Qed.

Lemma replace_all_step (pat repl : jsstring) (c : char) (s : jsstring) :
  noDollar repl = true ->
  startsWith pat (c :: s) = false ->
  replace_all pat repl (c :: s) = c :: replace_all pat repl s.
Proof.
  intros Hd Hs. unfold replace_all. cbn [replace_all_go]. rewrite Hs.
  f_equal. apply replace_all_go_seen. exact Hd.
Qed.

Lemma noOpenBrace_app (a b : jsstring) :
  noOpenBrace (a ++ b) = noOpenBrace a && noOpenBrace b.
Proof. apply forallb_app. Qed.

Lemma decimal_wordCount_plain (length : SummaryLength) :
  noDollar (decimal (LENGTH_WORD_COUNTS length)) = true
  /\ noOpenBrace (decimal (LENGTH_WORD_COUNTS length)) = true.
Proof. destruct length; split; reflexivity. Qed.

Section PromptFacts.

Variable P : Platform.
Variables W U : Type.
Variable settings : SummarizeSettings.

Lemma fill_template (text a b c : jsstring) (length : SummaryLength)
    (languageInstruction : jsstring) :
  noOpenBrace a = true -> noOpenBrace b = true -> noOpenBrace c = true ->
  noOpenBrace text = true -> noDollar text = true ->
  replace_all (lit "{{language}}") languageInstruction
    (replace_all (lit "{{wordCount}}") (decimal (LENGTH_WORD_COUNTS length))
       (replace_all (lit "{{content}}") text
          (a ++ lit "{{wordCount}}" ++ b ++ lit "{{content}}" ++ c)))
  = a ++ decimal (LENGTH_WORD_COUNTS length) ++ b ++ text ++ c.
Proof.
  intros Ha Hb Hc Ht Hd.
  destruct (decimal_wordCount_plain length) as [Hnd Hno].
  assert (H1 : replace_all (lit "{{content}}") text
                 (a ++ lit "{{wordCount}}" ++ b ++ lit "{{content}}" ++ c)
               = a ++ lit "{{wordCount}}" ++ b ++ text ++ c).
  { change (lit "{{content}}") with (123%N :: lit "{content}}").
    rewrite (replace_all_noOpen _ _ a _ Hd Ha). f_equal.
    change (lit "{{wordCount}}" ++ b ++ (123%N :: lit "{content}}") ++ c)
      with (123%N :: 123%N :: (lit "wordCount}}"
                                 ++ b ++ (123%N :: lit "{content}}") ++ c)).
    rewrite (replace_all_step _ _ _ _ Hd) by reflexivity.
    rewrite (replace_all_step _ _ _ _ Hd) by reflexivity.
    rewrite (replace_all_noOpen _ _ (lit "wordCount}}") _ Hd) by reflexivity.
    rewrite (replace_all_noOpen _ _ b _ Hd Hb).
    rewrite (replace_all_match _ _ _ _ Hd).
    rewrite (replace_all_keeps _ _ c Hc). reflexivity. }
  rewrite H1.
  assert (H2 : replace_all (lit "{{wordCount}}") (decimal (LENGTH_WORD_COUNTS length))
                 (a ++ lit "{{wordCount}}" ++ b ++ text ++ c)
               = a ++ decimal (LENGTH_WORD_COUNTS length) ++ b ++ text ++ c).
  { change (lit "{{wordCount}}") with (123%N :: lit "{wordCount}}").
    rewrite (replace_all_noOpen _ _ a _ Hnd Ha). f_equal.
    rewrite (replace_all_match _ _ _ _ Hnd). f_equal.
    apply replace_all_keeps.
    rewrite !noOpenBrace_app, Hb, Ht, Hc. reflexivity. }
  rewrite H2.
  change (lit "{{language}}") with (123%N :: lit "{language}}").
  apply replace_all_keeps.
  rewrite !noOpenBrace_app, Ha, Hno, Hb, Ht, Hc. reflexivity.
Qed.

(** X15.  For a template that holds the word-count placeholder and then
    the content placeholder and no other opening brace, and a text without
    opening brace and without dollar sign, the prompt is the template with
    the number of words and the text in the places of the placeholders. *)
Theorem prompt_fills_template (text a b c : jsstring) (length : SummaryLength)
    (language promptOption : option jsstring) :
  str_or (match promptOption with Some p => p | None => [] end)
         (str_or (customPrompt settings) DEFAULT_PROMPT)
  = a ++ lit "{{wordCount}}" ++ b ++ lit "{{content}}" ++ c ->
  noOpenBrace a = true -> noOpenBrace b = true -> noOpenBrace c = true ->
  noOpenBrace text = true -> noDollar text = true ->
  buildSummarizationPrompt settings text length language promptOption
  = a ++ decimal (LENGTH_WORD_COUNTS length) ++ b ++ text ++ c.
Proof.
  intros HT Ha Hb Hc Ht Hd. unfold buildSummarizationPrompt. rewrite HT.
  apply fill_template; assumption.
Qed.

(** X16.  With the default prompt the output language has no effect: the
    default template has no language placeholder, and for a text without
    opening brace and without dollar sign the prompt is the default text with
    the number of words, followed by the text. *)
Theorem default_prompt_ignores_language (text : jsstring) (length : SummaryLength)
    (language : option jsstring) :
  customPrompt settings = [] ->
  noOpenBrace text = true -> noDollar text = true ->
  buildSummarizationPrompt settings text length language None
  = lit "Summarize the following content in approximately "
      ++ decimal (LENGTH_WORD_COUNTS length) ++ defaultPromptRules ++ text.
Proof.
  intros Hc Ht Hd. unfold buildSummarizationPrompt. rewrite Hc.
  change (str_or [] (str_or [] DEFAULT_PROMPT))
    with (lit "Summarize the following content in approximately "
            ++ lit "{{wordCount}}" ++ defaultPromptRules ++ lit "{{content}}" ++ []).
  rewrite fill_template by (assumption || reflexivity).
  rewrite app_nil_r. reflexivity.
Qed.

(** X17.  A template without any placeholder is sent as it is: the text
    to summarise is then no part of the prompt. *)
Theorem prompt_without_placeholder (text template : jsstring)
    (length : SummaryLength) (language : option jsstring) :
  template <> [] ->
  includes (lit "{{content}}") template = false ->
  includes (lit "{{wordCount}}") template = false ->
  includes (lit "{{language}}") template = false ->
  buildSummarizationPrompt settings text length language (Some template) = template.
Proof.
  intros Hne H1 H2 H3. unfold buildSummarizationPrompt.
  replace (str_or template (str_or (customPrompt settings) DEFAULT_PROMPT))
    with template by (destruct template; [congruence | reflexivity]).
  unfold replace_all.
  rewrite (replace_all_go_absent _ _ _ _ H1).
  rewrite (replace_all_go_absent _ _ _ _ H2).
  exact (replace_all_go_absent _ _ _ _ H3).
Qed.

End PromptFacts.

(** ** Invariants of a summarisation *)

Section Respects.

Variables W U : Type.
Variable R : State W U -> State W U -> Prop.
Hypothesis R_refl : forall st, R st st.
Hypothesis R_trans : forall st1 st2 st3, R st1 st2 -> R st2 st3 -> R st1 st3.

Lemma rs_pure {A} (o : outcome A) : respects R (fun st : State W U => (o, st)).
Proof. intros st. apply R_refl. Qed.

Lemma rs_ret {A} (a : A) : respects R (@ret W U A a).
Proof. exact (rs_pure (Return a)). Qed.

Lemma rs_throw {A} (e : thrown) : respects R (@throw W U A e).
Proof. exact (rs_pure (Throw e)). Qed.

Lemma rs_lift {A} (o : outcome A) : respects R (@lift W U A o).
Proof. exact (rs_pure o). Qed.

Lemma rs_get_host : respects R (@get_host W U).
Proof. intros st. apply R_refl. Qed.

Lemma rs_bind {A B} (m : M W U A) (f : A -> M W U B) :
  respects R m -> (forall a, respects R (f a)) -> respects R (bind m f).
Proof.
  intros Hm Hf st. specialize (Hm st). unfold bind.
  destruct (m st) as [[a | e] st1]; cbn [snd] in Hm.
  - exact (R_trans _ _ _ Hm (Hf a st1)).
  - exact Hm.
Qed.

Lemma rs_try_catch {A} (m : M W U A) (h : thrown -> M W U A) :
  respects R m -> (forall e, respects R (h e)) -> respects R (try_catch m h).
Proof.
  intros Hm Hh st. specialize (Hm st). unfold try_catch.
  destruct (m st) as [[a | e] st1]; cbn [snd] in Hm.
  - exact Hm.
  - exact (R_trans _ _ _ Hm (Hh e st1)).
Qed.

Variable P : Platform.
Variable net : Net W.
Variable settings : SummarizeSettings.
Variable keydown : jsstring -> U -> U.
Variable onStream : callback U.

Hypothesis R_fetch : forall init, respects R (@fetch W U net init).
Hypothesis R_requestUrl : forall param, respects R (@requestUrl W U net param).
Hypothesis R_notice : forall text, respects R (@emit W U (ENotice text)).
Hypothesis R_key : forall key, respects R (@on_host W U (keydown key)).
Hypothesis R_call :
  forall chunk, truthy chunk = true -> respects R (@call W U onStream chunk).

Lemma rs_completion (model prompt : jsstring) :
  respects R (@completion P W U net settings model prompt).
Proof.
  unfold completion.
  apply rs_bind; [apply R_requestUrl |]. intros response.
  destruct (N.eqb (q_status response) 429); [apply rs_throw |].
  destruct (negb (N.eqb (q_status response) 200)); [apply rs_throw |].
  apply rs_bind; [apply rs_lift |]. intros data.
  apply rs_bind; [apply rs_lift |]. intros err.
  destruct (truthy err); [apply rs_throw | apply rs_ret].
Qed.

Lemma rs_swallow (keep : jsstring) (e : thrown) : respects R (@swallow W U keep e).
Proof. unfold swallow. destruct (rethrown e); [apply rs_throw | apply rs_ret]. Qed.

Lemma rs_processLine (line fullContent : jsstring) :
  respects R (@processLine P W U onStream line fullContent).
Proof.
  unfold processLine.
  destruct (startsWith (lit "data: ") line); [| apply rs_ret].
  destruct (str_eqb (slice 6 line) (lit "[DONE]")); [apply rs_ret |].
  apply rs_try_catch; [| intros e; apply rs_swallow].
  apply rs_bind; [apply rs_lift |]. intros parsed.
  apply rs_bind; [apply rs_lift |]. intros err.
  destruct (truthy err); [apply rs_throw |].
  destruct (truthy (firstChoice "delta" parsed)) eqn:Ht; [| apply rs_ret].
  apply rs_try_catch; [| intros e; apply rs_swallow].
  apply rs_bind; [apply R_call; exact Ht | intros; apply rs_ret].
Qed.

Lemma rs_processLines (lines : list jsstring) :
  forall fullContent, respects R (@processLines P W U onStream lines fullContent).
Proof.
  induction lines as [| ln rest IH]; intros fullContent; cbn [processLines].
  - apply rs_ret.
  - apply rs_bind; [apply rs_processLine | intros; apply IH].
Qed.

Lemma rs_readLoop (events : list BodyEvent) :
  forall fullContent,
    respects R (@readLoop P W U keydown onStream events fullContent).
Proof.
  induction events as [| [chunk | e | key] rest IH]; intros fullContent;
    cbn [readLoop].
  - apply rs_ret.
  - apply rs_bind; [apply rs_processLines | intros; apply IH].
  - apply rs_throw.
  - apply rs_bind; [apply R_key | intros; apply IH].
Qed.

Lemma rs_streamCompletion (model prompt : jsstring) :
  respects R (@streamCompletion P W U net settings keydown model prompt onStream).
Proof.
  unfold streamCompletion.
  apply rs_bind; [apply R_fetch |]. intros response.
  destruct (N.eqb (r_status response) 429); [apply rs_throw |].
  destruct (negb (r_ok response)).
  { apply rs_bind; [apply rs_lift | intros; apply rs_throw]. }
  destruct (r_body response) as [events |]; [| apply rs_throw].
  apply rs_bind; [apply rs_readLoop | intros; apply rs_ret].
Qed.

Lemma rs_autoFreeLoop (prompt : jsstring) (freeModels : list jsstring) :
  forall lastError,
    respects R (@autoFreeLoop P W U net settings keydown prompt (Some onStream)
                  freeModels lastError).
Proof.
  induction freeModels as [| modelId rest IH]; intros lastError;
    cbn [autoFreeLoop].
  - apply rs_throw.
  - apply rs_try_catch; [apply rs_streamCompletion |].
    intros e. destruct (isRateLimit P (asError e)).
    + apply rs_bind; [apply R_notice | intros; apply IH].
    + apply rs_throw.
Qed.

(** A summarisation that streams keeps every relation that its steps
    keep. *)
Lemma rs_summarize (text : jsstring) (options : SummarizeOptions U) :
  opt_onStream options = Some onStream ->
  respects R (@summarize P W U net settings keydown text options).
Proof.
  intros Ho. unfold summarize. rewrite Ho.
  destruct (str_eqb _ (lit "auto-free")).
  - unfold completionWithAutoFree.
    destruct (freeModelRank settings) as [| m rest] eqn:E; [apply rs_throw |].
    apply rs_autoFreeLoop.
  - apply rs_streamCompletion.
Qed.

End Respects.

(** ** The streaming insertion *)

Lemma insertedText_replaceRange (text : jsstring) (pos : EditorPosition) (e : Editor) :
  insertedText (replaceRange text pos e) = insertedText e ++ text.
Proof.
  unfold insertedText, replaceRange. cbn [replaced].
  rewrite map_app, concat_app. cbn [map concat fst]. rewrite app_nil_r. reflexivity.
Qed.

Lemma indentNewlines_app (ind a b : jsstring) :
  indentNewlines ind (a ++ b) = indentNewlines ind a ++ indentNewlines ind b.
Proof. unfold indentNewlines. apply flat_map_app. Qed.

Lemma handleStreamChunk_written (base chunk : jsstring) (ctx : ActionHost) :
  chunk <> [] ->
  insertedText (editor ctx) = base ++ writtenText (indent ctx) (currentContent ctx) ->
  insertedText (editor (snd (handleStreamChunk (VStr chunk) ctx)))
  = base ++ writtenText (indent (snd (handleStreamChunk (VStr chunk) ctx)))
                        (currentContent (snd (handleStreamChunk (VStr chunk) ctx))).
Proof.
  intros Hne H. cbn [handleStreamChunk snd editor indent currentContent].
  rewrite insertedText_replaceRange, H.
  destruct (currentContent ctx) as [| c cc] eqn:E.
  - cbn [writtenText app]. rewrite app_nil_r.
    destruct chunk; [congruence | reflexivity].
  - change (writtenText (indent ctx) ((c :: cc) ++ chunk))
      with (indent ctx ++ indentNewlines (indent ctx) ((c :: cc) ++ chunk)).
    cbn [writtenText].
    rewrite indentNewlines_app, <- !app_assoc. reflexivity.
Qed.

Section StreamingInsert.

Variable P : Platform.
Variable W : Type.
Variable net : Net W.
Variable settings : SummarizeSettings.
Variable base : jsstring.

Lemma streamingStep_refl (st : State W ActionHost) : streamingStep base st st.
Proof.
  split; [| split; [reflexivity | auto]].
  exists []. cbn. rewrite !app_nil_r. split; reflexivity.
Qed.

Lemma streamingStep_trans (st1 st2 st3 : State W ActionHost) :
  streamingStep base st1 st2 -> streamingStep base st2 st3 ->
  streamingStep base st1 st3.
Proof.
  intros [(e1 & Ht1 & Hc1) [Hi1 Hw1]] [(e2 & Ht2 & Hc2) [Hi2 Hw2]].
  split; [| split; [congruence | auto]].
  exists (e1 ++ e2).
  rewrite Ht2, Ht1, Hc2, Hc1, streamed_app, flat_map_app, !app_assoc.
  split; reflexivity.
Qed.

(** A step that leaves the context alone and adds an effect that is no
    call of the callback. *)
Lemma streamingStep_quiet (st : State W ActionHost) (w : W) (h : ActionHost)
    (e : Effect) :
  streamed [e] = [] ->
  editor h = editor (host st) -> indent h = indent (host st) ->
  currentContent h = currentContent (host st) ->
  streamingStep base st (mkState w h (trace st ++ [e])).
Proof.
  intros He Hed Hi Hc. unfold streamingStep. cbn [host trace].
  split; [| split; [exact Hi |]].
  - exists [e]. rewrite He, Hc. cbn. rewrite app_nil_r. split; reflexivity.
  - rewrite Hed, Hi, Hc. auto.
Qed.

Lemma step_fetch (init : FetchInit) :
  respects (streamingStep base) (@fetch W ActionHost net init).
Proof.
  intros st. unfold fetch. destruct (net_fetch net init (world st)) as [r w].
  cbn [snd]. apply streamingStep_quiet; reflexivity.
Qed.

Lemma step_requestUrl (param : RequestUrlParam) :
  respects (streamingStep base) (@requestUrl W ActionHost net param).
Proof.
  intros st. unfold requestUrl.
  destruct (net_requestUrl net param (world st)) as [r w].
  cbn [snd]. apply streamingStep_quiet; reflexivity.
Qed.

Lemma step_notice (text : jsstring) :
  respects (streamingStep base) (@emit W ActionHost (ENotice text)).
Proof. intros st. cbn [emit snd]. apply streamingStep_quiet; reflexivity. Qed.

Lemma step_key (key : jsstring) :
  respects (streamingStep base) (@on_host W ActionHost (escapeHandler key)).
Proof.
  intros st. cbn [on_host snd]. unfold streamingStep. cbn [host trace].
  assert (He : editor (escapeHandler key (host st)) = editor (host st)
               /\ indent (escapeHandler key (host st)) = indent (host st)
               /\ currentContent (escapeHandler key (host st))
                  = currentContent (host st)).
  { unfold escapeHandler. destruct (_ && _); repeat split. }
  destruct He as (Hed & Hi & Hc). rewrite Hed, Hi, Hc.
  split; [| split; [reflexivity | auto]].
  exists []. cbn. rewrite !app_nil_r. split; reflexivity.
Qed.

Lemma step_call (chunk : value) :
  truthy chunk = true ->
  respects (streamingStep base) (@call W ActionHost handleStreamChunk chunk).
Proof.
  intros Ht st. unfold call.
  assert (Hother : handleStreamChunk chunk (host st) = (fst (handleStreamChunk chunk (host st)), host st) ->
                   chunkText chunk = [] ->
                   streamingStep base st
                     (snd (let '(r, u') := handleStreamChunk chunk (host st) in
                           (r, mkState (world st) u' (trace st ++ [EStream chunk]))))).
  { intros Hh Hc. rewrite Hh. cbn [snd]. unfold streamingStep. cbn [host trace].
    split; [| split; [reflexivity | auto]].
    exists [EStream chunk]. cbn. rewrite Hc, !app_nil_r. split; reflexivity. }
  destruct chunk as [| | b | z t | s | items | fields];
    try (apply Hother; reflexivity).
  clear Hother. cbn [handleStreamChunk snd]. unfold streamingStep. cbn [host trace].
  split; [| split].
  - exists [EStream (VStr s)]. cbn. rewrite app_nil_r. split; reflexivity.
  - reflexivity.
  - intros Hw.
    assert (Hne : s <> []) by (destruct s; [discriminate | discriminate]).
    exact (handleStreamChunk_written base s (host st) Hne Hw).
Qed.

End StreamingInsert.

Lemma executeStreamingSummarize_run (P : Platform) (W : Type) (net : Net W)
    (settings : SummarizeSettings) (text : jsstring) (e : Editor)
    (length : option SummaryLength) (model : option jsstring)
    (st : State W ActionHost) :
  executeStreamingSummarize P net settings text e length model st
  = (fst (streamingBody P net settings text length model
            (mkState (world st) (setupStreamingInsert e) (trace st))),
     map_host cleanup
       (snd (streamingBody P net settings text length model
               (mkState (world st) (setupStreamingInsert e) (trace st))))).
Proof.
  unfold executeStreamingSummarize. fold (streamingBody P net settings text length model).
  unfold bind, on_host, try_finally, map_host.
  destruct (streamingBody P net settings text length model _) as [r st1].
  reflexivity.
Qed.

Lemma streamingBody_step (P : Platform) (W : Type) (net : Net W)
    (settings : SummarizeSettings) (base text : jsstring)
    (length : option SummaryLength) (model : option jsstring) :
  respects (streamingStep base) (streamingBody P net settings text length model).
Proof.
  pose proof (streamingStep_refl W base) as Hrefl.
  pose proof (streamingStep_trans W base) as Htrans.
  unfold streamingBody.
  apply (rs_try_catch _ _ _ Htrans).
  - apply (rs_bind _ _ _ Htrans).
    + apply (rs_summarize _ _ _ Hrefl Htrans
               P net settings escapeHandler handleStreamChunk
               (step_fetch W net _) (step_notice W _) (step_key W _) (step_call W _)).
      reflexivity.
    + intros response. apply (rs_ret _ _ _ Hrefl).
  - intros error. destruct (isAbortError error).
    + apply (rs_bind _ _ _ Htrans); [apply step_notice |].
      intros _. apply (rs_bind _ _ _ Htrans).
      * apply (rs_get_host _ _ _ Hrefl).
      * intros ctx. apply (rs_ret _ _ _ Hrefl).
    + apply (rs_throw _ _ _ Hrefl).
Qed.

(** X18.  Whatever the outcome of a streaming summarisation, at its end
    the content kept by the context is the text of the string chunks handed
    to the callback, in order and over all the models tried; the texts
    handed to the editor, put end to end, are what the editor had received
    before, a line feed, and that content with the indent in front and after
    every line feed; and the Escape listener is removed. *)
Theorem streaming_insert_accumulates (P : Platform) (W : Type) (net : Net W)
    (settings : SummarizeSettings) (text : jsstring) (e : Editor)
    (length : option SummaryLength) (model : option jsstring)
    (st : State W ActionHost) :
  let st' := snd (executeStreamingSummarize P net settings text e length model st) in
  exists effs,
    trace st' = trace st ++ effs
    /\ currentContent (host st') = flat_map chunkText (streamed effs)
    /\ indent (host st') = indent (setupStreamingInsert e)
    /\ insertedText (editor (host st'))
       = insertedText e ++ [LF]
           ++ writtenText (indent (host st')) (currentContent (host st'))
    /\ listening (host st') = false.
Proof.
  cbv zeta. rewrite executeStreamingSummarize_run. cbn [snd].
  pose proof (streamingBody_step P W net settings (insertedText e ++ [LF])
                text length model
                (mkState (world st) (setupStreamingInsert e) (trace st))) as Hm.
  destruct (snd (streamingBody P net settings text length model _)) as [w1 h1 t1].
  destruct Hm as [(effs & Ht & Hc) [Hi Hw]]. cbn [host trace map_host] in *.
  exists effs. cbn [cleanup indent currentContent editor listening].
  split; [exact Ht |]. split; [exact Hc |]. split; [exact Hi |].
  split; [| reflexivity].
  rewrite app_assoc. apply Hw.
  cbn [setupStreamingInsert editor currentContent writtenText].
  rewrite insertedText_replaceRange, app_nil_r. reflexivity.
Qed.

(** ** Where a chunk is inserted *)

Lemma split_char_go_cons (sep : char) (s : jsstring) :
  forall cur, exists x l, split_char_go sep cur s = x :: l.
Proof.
  induction s as [| c s IH]; intros cur; cbn [split_char_go]; [eauto |].
  destruct (N.eqb c sep); [eauto | apply IH].
Qed.

Lemma split_char_go_length (s : jsstring) :
  forall cur, length (split_char_go LF cur s) = S (lineFeeds s).
Proof.
  unfold lineFeeds.
  induction s as [| c s IH]; intros cur; cbn [split_char_go filter]; [reflexivity |].
  rewrite (N.eqb_sym LF c). destruct (N.eqb c LF); cbn [length]; rewrite IH; reflexivity.
Qed.

Lemma split_char_go_last (s : jsstring) :
  forall cur, last (split_char_go LF cur s) [] = lastLine_go cur s.
Proof.
  induction s as [| c s IH]; intros cur; cbn [split_char_go lastLine_go];
    [reflexivity |].
  destruct (N.eqb c LF); [| apply IH].
  destruct (split_char_go_cons LF s []) as (x & l & E).
  rewrite <- IH, E. reflexivity.
Qed.

Lemma nth_pred_last {A : Type} (l : list A) (d : A) :
  nth (length l - 1) l d = last l d.
Proof.
  induction l as [| x l IH]; [reflexivity |].
  destruct l as [| y l]; [reflexivity |].
  cbn [length last] in *. rewrite <- IH.
  replace (S (S (length l)) - 1) with (S (S (length l) - 1)) by lia.
  reflexivity.
Qed.

Lemma hasLineFeed_lineFeeds (s : jsstring) :
  hasLineFeed s = negb (lineFeeds s =? 0).
Proof.
  unfold hasLineFeed, lineFeeds.
  induction s as [| c s IH]; [reflexivity |].
  cbn [existsb filter]. destruct (N.eqb LF c); [reflexivity | exact IH].
Qed.

Lemma lastLine_go_cur (s : jsstring) :
  forall cur,
    length (lastLine_go cur s)
    = length (lastLine_go [] s) + (if hasLineFeed s then 0 else length cur).
Proof.
  unfold hasLineFeed.
  induction s as [| c s IH]; intros cur; cbn [lastLine_go existsb].
  - rewrite length_rev. reflexivity.
  - rewrite (N.eqb_sym LF c). destruct (N.eqb c LF); cbn [orb]; [lia |].
    rewrite (IH (c :: cur)), (IH [c]). cbn [length].
    destruct (existsb (N.eqb LF) s); lia.
Qed.

Lemma lastLine_go_prefix (x : jsstring) :
  noLineFeed x = true ->
  forall cur s, lastLine_go cur (x ++ s) = lastLine_go (rev x ++ cur) s.
Proof.
  unfold noLineFeed, hasLineFeed.
  induction x as [| c x IH]; intros H cur s; [reflexivity |].
  cbn [existsb] in H. apply negb_true_iff, orb_false_iff in H.
  destruct H as [Hc Hx]. rewrite N.eqb_sym in Hc.
  cbn [app lastLine_go rev]. rewrite Hc, <- app_assoc.
  apply IH. rewrite Hx. reflexivity.
Qed.

Lemma lastLine_go_indent (ind s : jsstring) :
  noLineFeed ind = true ->
  forall cur,
    length (lastLine_go cur (indentNewlines ind s))
    = length (lastLine_go cur s) + (if hasLineFeed s then length ind else 0).
Proof.
  intros Hind. unfold hasLineFeed, indentNewlines.
  induction s as [| c s IH]; intros cur; cbn [flat_map existsb]; [cbn; lia |].
  rewrite (N.eqb_sym LF c). destruct (N.eqb c LF) eqn:Hc; cbn [orb].
  - change ((LF :: ind) ++ flat_map
              (fun c0 => if N.eqb c0 LF then LF :: ind else [c0]) s)
      with (LF :: (ind ++ indentNewlines ind s)).
    apply N.eqb_eq in Hc. subst c. cbn [lastLine_go]. rewrite N.eqb_refl.
    rewrite (lastLine_go_prefix ind Hind), app_nil_r.
    unfold indentNewlines. rewrite IH.
    rewrite (lastLine_go_cur s (rev ind)), length_rev.
    unfold hasLineFeed. destruct (existsb (N.eqb LF) s); lia.
  - cbn [app lastLine_go]. rewrite Hc. apply IH.
Qed.

(** X19.  A string chunk is inserted on the line of the insertion point
    plus the number of line feeds streamed so far, at the column that is the
    length of the last streamed line, to which the length of the indent is
    added only while no line feed has been streamed.  The text written so
    far ends at the column that counts the indent in both cases: after a
    streamed line feed the insertion point lies before the end of the line
    by the length of the indent. *)
Theorem handleStreamChunk_position (chunk : jsstring) (ctx : ActionHost) :
  handleStreamChunk (VStr chunk) ctx
  = (Return tt,
     mkHost
       (replaceRange
          (match currentContent ctx with [] => indent ctx | _ => [] end
             ++ indentNewlines (indent ctx) chunk)
          (mkPos (line (insertPos ctx) + lineFeeds (currentContent ctx))
                 ((if hasLineFeed (currentContent ctx) then 0 else length (indent ctx))
                  + length (lastLine (currentContent ctx))))
          (editor ctx))
       (insertPos ctx) (indent ctx) (currentContent ctx ++ chunk)
       (listening ctx) (aborted ctx))
  /\ (noLineFeed (indent ctx) = true ->
      currentContent ctx <> [] ->
      length (lastLine (writtenText (indent ctx) (currentContent ctx)))
      = length (indent ctx) + length (lastLine (currentContent ctx))).
Proof.
  split.
  - cbn [handleStreamChunk]. f_equal. f_equal.
    + f_equal.
      * destruct (currentContent ctx); reflexivity.
      * unfold split_char. rewrite nth_pred_last, split_char_go_length.
        cbn [length Nat.sub]. rewrite Nat.sub_0_r.
        rewrite hasLineFeed_lineFeeds.
        fold (split_char LF (currentContent ctx)). fold (lastLine (currentContent ctx)).
        destruct (lineFeeds (currentContent ctx) =? 0); reflexivity.
  - intros Hind Hne. unfold lastLine, split_char, writtenText.
    destruct (currentContent ctx) as [| c cc] eqn:E; [congruence |].
    rewrite !split_char_go_last.
    rewrite (lastLine_go_prefix (indent ctx) Hind), app_nil_r.
    rewrite lastLine_go_indent by exact Hind.
    rewrite (lastLine_go_cur (c :: cc) (rev (indent ctx))), length_rev.
    destruct (hasLineFeed (c :: cc)); lia.
Qed.

(** ** The URLs of a selection *)

Lemma existsb_str_eqb_In (url : jsstring) (seen : list jsstring) :
  existsb (str_eqb url) seen = true <-> In url seen.
Proof.
  rewrite existsb_exists. split.
  - intros (x & Hin & Heq). apply str_eqb_eq in Heq. subst x. exact Hin.
  - intros Hin. exists url. split; [exact Hin | apply str_eqb_refl].
Qed.

Lemma NoDup_snoc {A : Type} (l : list A) (x : A) :
  NoDup l -> ~ In x l -> NoDup (l ++ [x]).
Proof.
  induction l as [| y l IH]; intros Hnd Hin; cbn [app].
  - constructor; [intros [] | constructor].
  - inversion Hnd as [| ? ? Hy Hl]; subst. constructor.
    + rewrite in_app_iff. intros [H | [H | []]]; [exact (Hy H) |].
      subst. apply Hin. left. reflexivity.
    + apply IH; [exact Hl |]. intros H. apply Hin. right. exact H.
Qed.

Lemma fold_addUrl (P : Platform) (cands : list jsstring) :
  forall urls,
    NoDup urls ->
    exists urls',
      fold_left (addUrl P) cands (urls, urls) = (urls', urls')
      /\ NoDup urls'
      /\ forall u, In u urls' ->
           In u urls \/ (In u cands /\ exists parsed, URL_parse P u = Some parsed).
Proof.
  induction cands as [| c cands IH]; intros urls Hnd; cbn [fold_left].
  - exists urls. repeat split; auto.
  - assert (Hkeep : exists urls',
              fold_left (addUrl P) cands (urls, urls) = (urls', urls')
              /\ NoDup urls'
              /\ forall u, In u urls' ->
                   In u urls
                   \/ (In u (c :: cands) /\ exists parsed, URL_parse P u = Some parsed)).
    { destruct (IH urls Hnd) as (urls' & Hf & Hn & Hin).
      exists urls'. repeat split; try assumption.
      intros u Hu. destruct (Hin u Hu) as [H | [H Hp]]; [left; exact H |].
      right. split; [right; exact H | exact Hp]. }
    unfold addUrl at 2.
    destruct (existsb (str_eqb c) urls) eqn:Hseen; [exact Hkeep |].
    destruct (URL_parse P c) as [parsed |] eqn:Hp; [| exact Hkeep].
    assert (Hnot : ~ In c urls).
    { intros H. apply existsb_str_eqb_In in H. congruence. }
    destruct (IH (urls ++ [c]) (NoDup_snoc urls c Hnd Hnot)) as (urls' & Hf & Hn & Hin).
    exists urls'. repeat split; try assumption.
    intros u Hu. destruct (Hin u Hu) as [H | [H Hq]].
    + apply in_app_iff in H. destruct H as [H | [<- | []]]; [left; exact H |].
      right. split; [left; reflexivity | exists parsed; exact Hp].
    + right. split; [right; exact H | exact Hq].
Qed.

Lemma md_target_scheme (s : jsstring) (n : nat) :
  md_target s = Some n ->
  startsWith (lit "https://") (firstn n s) = true
  \/ startsWith (lit "http://") (firstn n s) = true.
Proof.
  unfold md_target.
  destruct (startsWith (lit "https://") s) eqn:Hs.
  - destruct (length (takeWhile notCloseParen (skipn 8 s))) as [| m];
      [discriminate |].
    destruct (skipn (8 + S m) s); [discriminate |].
    intros H. injection H as <-. left.
    apply startsWith_firstn; [exact Hs | cbn; lia].
  - destruct (startsWith (lit "http://") s) eqn:Hp; [| discriminate].
    destruct (length (takeWhile notCloseParen (skipn 7 s))) as [| m];
      [discriminate |].
    destruct (skipn (7 + S m) s); [discriminate |].
    intros H. injection H as <-. right.
    apply startsWith_firstn; [exact Hp | cbn; lia].
Qed.

Lemma md_match_sound (s : jsstring) (k : nat) (g : jsstring) :
  md_match s = Some (k, g) ->
  (exists pre post, s = pre ++ g ++ post)
  /\ (startsWith (lit "https://") g = true \/ startsWith (lit "http://") g = true).
Proof.
  unfold md_match. destruct s as [| c s1]; [discriminate |].
  destruct (N.eqb c 91); [| discriminate].
  set (label := takeWhile notCloseBracket s1).
  set (s2 := skipn (length label) s1).
  destruct (startsWith (lit "](") s2); [| discriminate].
  set (s3 := skipn 2 s2).
  destruct (md_target s3) as [n |] eqn:Ht; [| discriminate].
  intros H. injection H as _ <-.
  split; [| exact (md_target_scheme _ _ Ht)].
  exists (c :: firstn (length label) s1 ++ firstn 2 s2), (skipn n s3).
  rewrite (firstn_skipn n s3). subst s3.
  cbn [app]. f_equal. rewrite <- app_assoc.
  rewrite (firstn_skipn 2 s2). subst s2.
  symmetry. apply firstn_skipn.
Qed.

Lemma md_links_go_sound (s : jsstring) :
  forall skip g,
    In g (md_links_go skip s) ->
    (exists pre post, s = pre ++ g ++ post)
    /\ (startsWith (lit "https://") g = true
        \/ startsWith (lit "http://") g = true).
Proof.
  induction s as [| c s IH]; intros skip g Hin; [destruct Hin |].
  assert (Hrest : forall k, In g (md_links_go k s) ->
            (exists pre post, c :: s = pre ++ g ++ post)
            /\ (startsWith (lit "https://") g = true
                \/ startsWith (lit "http://") g = true)).
  { intros k Hk. destruct (IH k g Hk) as [(pre & post & ->) Hsch].
    split; [| exact Hsch]. exists (c :: pre), post. reflexivity. }
  cbn [md_links_go] in Hin. destruct skip as [| k]; [| exact (Hrest _ Hin)].
  destruct (md_match (c :: s)) as [[[| k] g0] |] eqn:Hm; try exact (Hrest _ Hin).
  destruct Hin as [<- | Hin]; [| exact (Hrest _ Hin)].
  exact (md_match_sound _ _ _ Hm).
Qed.

(** X20.  The URLs that [extractUrls] finds in a text are pairwise
    different; each of them parses as a URL, begins with http:// or https://,
    and is a piece of the text. *)
Theorem extractUrls_sound (P : Platform) (text : jsstring) :
  NoDup (extractUrls P text)
  /\ forall u, In u (extractUrls P text) ->
       (exists parsed, URL_parse P u = Some parsed)
       /\ (exists pre post, text = pre ++ u ++ post)
       /\ (startsWith (lit "https://") u = true
           \/ startsWith (lit "http://") u = true).
Proof.
  unfold extractUrls.
  destruct (fold_addUrl P (map (dropEndWhile isTrailingPunct) (url_matches text))
              [] (NoDup_nil _)) as (urls1 & Hf1 & Hn1 & Hin1).
  rewrite Hf1.
  destruct (fold_addUrl P (md_links text) urls1 Hn1) as (urls2 & Hf2 & Hn2 & Hin2).
  rewrite Hf2. cbn [fst]. split; [exact Hn2 |].
  assert (Hbare : forall u, In u urls1 ->
            (exists parsed, URL_parse P u = Some parsed)
            /\ (exists pre post, text = pre ++ u ++ post)
            /\ (startsWith (lit "https://") u = true
                \/ startsWith (lit "http://") u = true)).
  { intros u Hu. destruct (Hin1 u Hu) as [[] | [Hc Hp]].
    split; [exact Hp |].
    apply in_map_iff in Hc. destruct Hc as (rawUrl & <- & Hraw).
    destruct (url_matches_go_sound _ _ _ Hraw) as [(pre & post & ->) Hsch].
    split.
    - destruct (dropEndWhile_prefix isTrailingPunct rawUrl) as [tail Ht].
      exists pre, (tail ++ post). f_equal.
      rewrite app_assoc. f_equal. exact Ht.
    - destruct Hsch as [Hs | Hs]; [left | right];
        apply scheme_survives_punctuation; try exact Hs;
        try discriminate; reflexivity. }
  intros u Hu. destruct (Hin2 u Hu) as [H | [Hc Hp]]; [exact (Hbare u H) |].
  split; [exact Hp |].
  exact (md_links_go_sound _ _ _ Hc).
Qed.

Lemma isBareUrl_scheme (s : jsstring) :
  isBareUrl s = true ->
  startsWith (lit "https://") s = true \/ startsWith (lit "http://") s = true.
Proof.
  unfold isBareUrl.
  destruct (startsWith (lit "https://") s); [left; reflexivity |].
  destruct (startsWith (lit "http://") s); [right; reflexivity | discriminate].
Qed.

(** X21.  When [extractSingleUrl] takes a text for a single URL, the URL
    it returns parses, begins with http:// or https://, and is a piece of
    the text; a bare URL is returned as the text without the white space
    around it. *)
Theorem extractSingleUrl_sound (P : Platform) (text u : jsstring) :
  extractSingleUrl P text = Some u ->
  (exists parsed, URL_parse P u = Some parsed)
  /\ (exists pre post, text = pre ++ u ++ post)
  /\ (startsWith (lit "https://") u = true \/ startsWith (lit "http://") u = true)
  /\ (isBareUrl (trim text) = true -> u = trim text).
Proof.
  unfold extractSingleUrl.
  assert (Htrim : exists pre post, text = pre ++ trim text ++ post).
  { unfold trim, trimEnd.
    destruct (trimStart_suffix text) as [pre Hpre].
    destruct (dropEndWhile_prefix isSpace (trimStart text)) as [post Hpost].
    exists pre, post. rewrite <- Hpost. exact Hpre. }
  destruct (isBareUrl (trim text)) eqn:Hb.
  - destruct (URL_parse P (trim text)) as [parsed |] eqn:Hp; [| discriminate].
    intros H. injection H as <-.
    split; [exists parsed; exact Hp |]. split; [exact Htrim |].
    split; [exact (isBareUrl_scheme _ Hb) | reflexivity].
  - destruct (md_match (trim text)) as [[n g] |] eqn:Hm; [| discriminate].
    destruct (n =? length (trim text)); [| discriminate].
    destruct (URL_parse P g) as [parsed |] eqn:Hp; [| discriminate].
    intros H. injection H as <-.
    destruct (md_match_sound _ _ _ Hm) as [(pre & post & Hg) Hsch].
    split; [exists parsed; exact Hp |]. split; [| split; [exact Hsch | discriminate]].
    destruct Htrim as (pre0 & post0 & Ht).
    exists (pre0 ++ pre), (post ++ post0).
    rewrite Ht at 1. rewrite Hg. rewrite <- !app_assoc. reflexivity.
Qed.

(** ** The insertion of a finished summary *)

Lemma no_run3_plain (x s : jsstring) :
  noLineFeed x = true -> has_newline_run3 s = false ->
  has_newline_run3 (x ++ s) = false.
Proof.
  unfold noLineFeed, hasLineFeed.
  induction x as [| c x IH]; intros Hx Hs; [exact Hs |].
  cbn [existsb] in Hx. apply negb_true_iff, orb_false_iff in Hx.
  destruct Hx as [Hc Hx]. rewrite N.eqb_sym in Hc.
  cbn [app]. apply has_newline_run3_cons.
  - apply IH; [rewrite Hx; reflexivity | exact Hs].
  - intros H. congruence.
Qed.

Lemma leading_plain (x s : jsstring) :
  noLineFeed x = true -> x <> [] -> leading_newlines (x ++ s) = 0.
Proof.
  unfold noLineFeed, hasLineFeed. destruct x as [| c x]; [congruence |].
  intros Hx _. cbn [existsb] in Hx. apply negb_true_iff, orb_false_iff in Hx.
  destruct Hx as [Hc Hx]. rewrite N.eqb_sym in Hc.
  cbn [app leading_newlines]. rewrite Hc. reflexivity.
Qed.

Lemma join_cons (sep x : jsstring) (rest : list jsstring) :
  join sep (x :: rest) = match rest with [] => x | _ => x ++ sep ++ join sep rest end.
Proof. reflexivity. Qed.

Lemma joined_cons (x : jsstring) (D : list jsstring) :
  noLineFeed x = true ->
  has_newline_run3 (join [LF] D) = false ->
  leading_newlines (join [LF] D) <= match x with [] => 0 | _ => 1 end ->
  has_newline_run3 (join [LF] (x :: D)) = false
  /\ leading_newlines (join [LF] (x :: D)) <= match x with [] => 1 | _ => 0 end.
Proof.
  intros Hx Hr Hlead. rewrite join_cons.
  destruct D as [| y ys].
  - destruct x as [| c t]; [split; [reflexivity | cbn; lia] |].
    rewrite <- (app_nil_r (c :: t)). split.
    + apply no_run3_plain; [exact Hx | reflexivity].
    + rewrite (leading_plain _ _ Hx) by discriminate. lia.
  - destruct x as [| c t].
    + cbn [app]. split.
      * apply has_newline_run3_cons; [exact Hr | intros _; lia].
      * cbn [leading_newlines]. rewrite N.eqb_refl. lia.
    + split.
      * apply no_run3_plain; [exact Hx |].
        cbn [app]. apply has_newline_run3_cons; [exact Hr | intros _; exact Hlead].
      * rewrite (leading_plain _ _ Hx) by discriminate. lia.
Qed.

(** After the filter the joined lines begin with at most one line feed,
    with none when the line before was empty, and hold no run of three. *)
Lemma dropRepeatedEmpty_joined (arr : list jsstring) :
  Forall (fun l => noLineFeed l = true) arr ->
  forall prev,
    has_newline_run3 (join [LF] (dropRepeatedEmpty prev arr)) = false
    /\ leading_newlines (join [LF] (dropRepeatedEmpty prev arr))
       <= match prev with Some [] => 0 | _ => 1 end.
Proof.
  induction 1 as [| l rest Hl Hrest IH]; intros prev.
  - cbn. split; [reflexivity | destruct prev as [[| ? ?] |]; lia].
  - cbn [dropRepeatedEmpty].
    destruct (IH (Some l)) as [Hr Hlead].
    pose proof (joined_cons l (dropRepeatedEmpty (Some l) rest) Hl Hr) as Hj.
    destruct l as [| c t]; cbn [nonempty negb andb].
    + destruct prev as [[| pc pt] |]; cbn [nonempty negb].
      * split; [exact Hr | exact Hlead].
      * exact (Hj Hlead).
      * exact (Hj Hlead).
    + destruct (Hj Hlead) as [H1 H2]. split; [exact H1 |].
      destruct prev as [[| ? ?] |]; lia.
Qed.

Lemma hasLineFeed_rev (s : jsstring) : hasLineFeed (rev s) = hasLineFeed s.
Proof.
  unfold hasLineFeed. induction s as [| c s IH]; [reflexivity |].
  cbn [rev existsb]. rewrite existsb_app. cbn [existsb].
  rewrite orb_false_r, orb_comm. f_equal. exact IH.
Qed.

Lemma split_char_go_plain (s : jsstring) :
  forall cur,
    noLineFeed cur = true ->
    Forall (fun l => noLineFeed l = true) (split_char_go LF cur s).
Proof.
  unfold noLineFeed.
  induction s as [| c s IH]; intros cur Hcur; cbn [split_char_go].
  - constructor; [| constructor]. rewrite hasLineFeed_rev. exact Hcur.
  - destruct (N.eqb c LF) eqn:Hc.
    + constructor; [rewrite hasLineFeed_rev; exact Hcur | apply IH; reflexivity].
    + apply IH. unfold hasLineFeed in *. cbn [existsb].
      rewrite N.eqb_sym, Hc. exact Hcur.
Qed.

Lemma noLineFeed_app (a b : jsstring) :
  noLineFeed (a ++ b) = noLineFeed a && noLineFeed b.
Proof.
  unfold noLineFeed, hasLineFeed. rewrite existsb_app, negb_orb. reflexivity.
Qed.

Lemma indentedSummary_tidy (summaryIndent formattedSummary : jsstring) :
  noLineFeed summaryIndent = true ->
  has_newline_run3 (indentedSummary summaryIndent formattedSummary) = false
  /\ leading_newlines (indentedSummary summaryIndent formattedSummary) <= 1.
Proof.
  intros Hind. unfold indentedSummary, indentedLines.
  apply (dropRepeatedEmpty_joined _) with (prev := None).
  apply Forall_map. unfold split_char.
  pose proof (split_char_go_plain formattedSummary [] eq_refl) as Hs.
  induction Hs as [| l ls Hl Hls IH]; constructor; [| exact IH].
  unfold indentLine. destruct (nonempty (trim l)); [| reflexivity].
  rewrite noLineFeed_app, Hind, Hl. reflexivity.
Qed.

Lemma takeWhile_noLineFeed (f : char -> bool) (s : jsstring) :
  noLineFeed s = true -> noLineFeed (takeWhile f s) = true.
Proof.
  unfold noLineFeed, hasLineFeed. induction s as [| c s IH]; intros H; [reflexivity |].
  cbn [existsb] in H. apply negb_true_iff, orb_false_iff in H. destruct H as [Hc Hs].
  cbn [takeWhile]. destruct (f c); [| reflexivity].
  cbn [existsb]. rewrite Hc. apply IH. rewrite Hs. reflexivity.
Qed.

(** X22.  A finished summary is inserted below the line of the cursor
    (or of the end of the selection), at the end of that line, as one text
    that begins with a line feed; for a line without line feed, as an editor
    returns it, the text holds no run of three line feeds, that is no two
    empty lines in a row, whatever the summary. *)
Theorem insertSummary_no_blank_run (summary : jsstring) (e : Editor) :
  let cursor := if nonempty (getSelection e) then getCursorTo e else getCursor e in
  noLineFeed (getLine e (line cursor)) = true ->
  exists inserted,
    replaced (insertSummaryBelow summary e)
    = replaced e ++ [(LF :: inserted,
                      mkPos (line cursor) (length (getLine e (line cursor))))]
    /\ has_newline_run3 (LF :: inserted) = false.
Proof.
  intros cursor Hline. unfold insertSummaryBelow. fold cursor.
  cbn [replaceRange replaced]. eexists. split; [reflexivity |].
  set (ln := getLine e (line cursor)) in *.
  assert (Hind : noLineFeed (if isListItemLine ln
                             then takeWhile isSpace ln ++ [9%N]
                             else takeWhile isSpace ln) = true).
  { destruct (isListItemLine ln).
    - rewrite noLineFeed_app, (takeWhile_noLineFeed _ _ Hline). reflexivity.
    - exact (takeWhile_noLineFeed _ _ Hline). }
  destruct (indentedSummary_tidy _ (formatSummary summary) Hind) as [Hr Hl].
  apply has_newline_run3_cons; [exact Hr | intros _; exact Hl].
Qed.

(** ** The fallback of the command-line tool *)

Section CliFallback.

Variable P : Platform.
Variables W U : Type.
Variable net : Net W.
Variable apiKey : jsstring.
Variable configured : option (list jsstring).

Lemma getFreeModelRank_nonempty : getFreeModelRank configured <> [].
Proof. destruct configured as [[| m rest] |]; discriminate. Qed.

Lemma cli_completion_429 (model prompt body : jsstring) (st : State W U)
    (response : Response) (w' : W) :
  net_fetch net (cli_completionRequest P apiKey model prompt) (world st)
    = (Return response, w') ->
  r_status response = 429%N ->
  r_text response = Return body ->
  cli_completion P net apiKey model prompt st
  = (Throw (newError (lit "OpenRouter API error: 429 - " ++ body)),
     fetched (cli_completionRequest P apiKey model prompt) w' st).
Proof.
  intros Hn Hs Ht. unfold cli_completion, bind, fetch, lift, throw.
  rewrite Hn. unfold r_ok. rewrite Hs, Ht. reflexivity.
Qed.

Lemma cli_fallbackLoop_exhausted (prompt body : jsstring) (models : list jsstring) :
  (forall init w, exists response w',
      net_fetch net init w = (Return response, w')
      /\ r_status response = 429%N
      /\ r_text response = Return body) ->
  forall lastError (st : State W U),
  exists w',
    cli_fallbackLoop P net apiKey prompt models lastError st
    = (Throw (cli_allRateLimited
                match models with
                | [] => lastError
                | _ => Some (newError (lit "OpenRouter API error: 429 - " ++ body))
                end),
       mkState w' (host st)
         (trace st
            ++ map (fun modelId => EFetch (cli_completionRequest P apiKey modelId prompt))
                   models)).
Proof.
  intros Hnet. induction models as [| modelId rest IH]; intros lastError st.
  - exists (world st). cbn [cli_fallbackLoop map].
    rewrite app_nil_r. destruct st; reflexivity.
  - destruct (Hnet (cli_completionRequest P apiKey modelId prompt) (world st))
      as (response & w1 & Hn & H429 & Ht).
    cbn [cli_fallbackLoop]. unfold try_catch.
    rewrite (cli_completion_429 modelId prompt body st response w1 Hn H429 Ht).
    set (E := newError (lit "OpenRouter API error: 429 - " ++ body)) in *.
    change (asError E) with E.
    assert (Hr : isRateLimit P E = true).
    { unfold isRateLimit, E, newError, message.
      change (lit "OpenRouter API error: 429 - ")
        with (lit "OpenRouter API error: " ++ lit "429 - ").
      rewrite <- app_assoc.
      rewrite (includes_app_r (lit "429") (lit "OpenRouter API error: ") _
                 (includes_app_l (lit "429") (lit "429 - ") body eq_refl)).
      reflexivity. }
    rewrite Hr.
    destruct (IH (Some E)
                 (fetched (cli_completionRequest P apiKey modelId prompt) w1 st))
      as (w' & Hrest).
    exists w'. rewrite Hrest. f_equal.
    + destruct rest; reflexivity.
    + unfold fetched. cbn [host trace map]. rewrite <- app_assoc. reflexivity.
Qed.

(** X23.  In the command-line tool a response with status 429 counts as a
    rate limit through the digits in the text of its error.  When every
    request is answered so, a summarisation with the automatic choice asks
    each model of the rank once, in order (the four default models when no
    rank is configured), and fails with the error of the last one; the rank
    is never empty, so that the final error always names a last error. *)
Theorem cli_fallback_exhausted (text body : jsstring) (length : option SummaryLength)
    (language : option jsstring) (st : State W U) :
  (forall init w, exists response w',
      net_fetch net init w = (Return response, w')
      /\ r_status response = 429%N
      /\ r_text response = Return body) ->
  let prompt :=
    cli_buildPrompt text
      (match length with Some l => l | None => medium end)
      (match language with Some l => l | None => [] end) in
  getFreeModelRank configured <> []
  /\ (configured = None -> getFreeModelRank configured = DEFAULT_FREE_MODELS)
  /\ exists w',
       cli_summarize P net apiKey configured text length language None st
       = (Throw (newError
                   (lit "All free models rate limited. Last error: "
                      ++ lit "OpenRouter API error: 429 - " ++ body)),
          mkState w' (host st)
            (trace st
               ++ map (fun modelId =>
                         EFetch (cli_completionRequest P apiKey modelId prompt))
                      (getFreeModelRank configured))).
Proof.
  intros Hnet prompt.
  split; [apply getFreeModelRank_nonempty |].
  split; [intros ->; reflexivity |].
  unfold cli_summarize, cli_completionWithFallback. cbn [str_or str_eqb].
  change (str_eqb (lit "auto-free") (lit "auto-free")) with true. cbv iota.
  fold prompt.
  destruct (cli_fallbackLoop_exhausted prompt body (getFreeModelRank configured)
              Hnet None st) as (w' & H).
  exists w'. rewrite H.
  pose proof getFreeModelRank_nonempty as Hne.
  destruct (getFreeModelRank configured); [congruence | reflexivity].
Qed.

End CliFallback.

(** ** Further facts on the extractors *)

Section ExtractorEdges.

Variable P : Platform.
Variables W U : Type.
Variable net : Net W.

(** X24.  No extractor checks that its argument is a URL: for a text that
    does not parse as one, no shortener is resolved and no strategy is
    chosen; the plugin and the command-line tool send the page request with
    the text as given, and that request is the only effect. *)
Theorem unparsable_url_goes_generic (url : jsstring) (followLinks : bool)
    (st : State W U) :
  URL_parse P url = None ->
  extractFromUrl P net url st = extractGeneric P net url url st
  /\ trace (snd (extractFromUrl P net url st))
     = trace st ++ [ERequestUrl (mkRequest url None htmlHeaders None None)]
  /\ cli_extractFromUrl P net url followLinks st = cli_extractGeneric P net url st
  /\ trace (snd (cli_extractFromUrl P net url followLinks st))
     = trace st ++ [EFetch (mkFetch url None None htmlHeaders None)].
Proof.
  intros Hp.
  assert (Hs : isUrlShortener P url = false) by (unfold isUrlShortener; rewrite Hp; reflexivity).
  assert (Hc : convertGitHubUrl P url = url) by (unfold convertGitHubUrl; rewrite Hp; reflexivity).
  assert (Hr : isRawTextUrl P url = false) by (unfold isRawTextUrl; rewrite Hp; reflexivity).
  assert (Hj : needsJsRendering P url = false) by (unfold needsJsRendering; rewrite Hp; reflexivity).
  assert (H1 : extractFromUrl P net url st = extractGeneric P net url url st).
  { unfold extractFromUrl, extractResolved, resolveStep, bind, ret.
    rewrite Hs, Hc, Hr, Hj. reflexivity. }
  assert (H2 : cli_extractFromUrl P net url followLinks st = cli_extractGeneric P net url st).
  { unfold cli_extractFromUrl, cli_extractFromUrl_body, resolveStep, bind, ret.
    rewrite Hs, Hc, Hr, Hj. reflexivity. }
  split; [exact H1 |]. split; [| split; [exact H2 |]].
  - rewrite H1. unfold extractGeneric, fetchUrl, bind, requestUrl, lift, ret.
    destruct (net_requestUrl net _ (world st)) as [[response | e] w]; [| reflexivity].
    destruct (extractMainContent P (parseHTML P (q_text response))); reflexivity.
  - rewrite H2. unfold cli_extractGeneric, bind, fetch, lift, ret, throw.
    destruct (net_fetch net _ (world st)) as [[response | e] w]; [| reflexivity].
    destruct (negb (r_ok response)); [reflexivity |].
    destruct (r_text response); reflexivity.
Qed.

Lemma cli_body_url (self : jsstring -> M W U ExtractedContent)
    (address : jsstring) (followLinks : bool) (st st' : State W U)
    (r : ExtractedContent) :
  cli_extractFromUrl_body P net self address followLinks st = (Return r, st') ->
  url r = address \/ isRawTextUrl P (url r) = true.
Proof.
  unfold cli_extractFromUrl_body, bind. intros H.
  destruct (resolveStep P net address st) as [[resolved | e] st1]; [| discriminate].
  destruct (isRawTextUrl P (convertGitHubUrl P resolved)) eqn:Eraw.
  { right. apply cli_extractRawText_inv in H. destruct H as (text & parsed & ->).
    exact Eraw. }
  left.
  destruct (needsJsRendering P (convertGitHubUrl P resolved)).
  2:{ apply cli_extractGeneric_inv in H. destruct H as (doc & main & ->). reflexivity. }
  destruct (cli_extractViaJina net address st1) as [[tweet | e] st2] eqn:Ej;
    [| discriminate].
  apply cli_extractViaJina_inv in Ej. destruct Ej as (md & ->).
  assert (Hret : forall s, ret (fromJinaMarkdown md address) st2 = (Return r, s) ->
                           url r = address).
  { unfold ret. intros s Hs. injection Hs as <- _. reflexivity. }
  destruct followLinks; [| exact (Hret _ H)].
  destruct (extractFirstUrl P (content (fromJinaMarkdown md address)))
    as [linkedUrl |]; [| exact (Hret _ H)].
  unfold try_catch, ret in H.
  destruct (self linkedUrl st2) as [[linked | e] st3]; injection H as <- _; reflexivity.
Qed.

(** X25.  A result names the URL that was asked for, not the one a
    shortener resolved to, also when a tweet and its linked article were put
    together; only a raw text file is reported under the URL it was read
    from, whose host is raw.githubusercontent.com. *)
Theorem result_names_requested_url (address : jsstring) (followLinks : bool)
    (st st' : State W U) (r : ExtractedContent) :
  extractFromUrl P net address st = (Return r, st')
  \/ cli_extractFromUrl P net address followLinks st = (Return r, st') ->
  url r = address \/ isRawTextUrl P (url r) = true.
Proof.
  intros [H | H]; [| exact (cli_body_url _ _ _ _ _ _ H)].
  unfold extractFromUrl, extractResolved, bind in H.
  destruct (resolveStep P net address st) as [[resolved | e] st1]; [| discriminate].
  destruct (isRawTextUrl P (convertGitHubUrl P resolved)) eqn:Eraw.
  - right. apply extractRawText_inv in H. destruct H as (text & parsed & ->).
    exact Eraw.
  - left. destruct (needsJsRendering P (convertGitHubUrl P resolved)).
    + apply extractViaJina_inv in H. destruct H as (md & ->). reflexivity.
    + apply extractGeneric_inv in H. destruct H as (doc & main & ->). reflexivity.
Qed.

End ExtractorEdges.

(** ** Titles *)

Lemma takeWhile_all (f : char -> bool) (s : jsstring) :
  forallb f (takeWhile f s) = true.
Proof.
  induction s as [| c s IH]; [reflexivity |].
  cbn [takeWhile]. destruct (f c) eqn:Hc; [| reflexivity].
  cbn [forallb]. rewrite Hc. exact IH.
Qed.

Lemma line_capture_single (s g : jsstring) :
  line_capture s = Some g -> forallb notLineTerminator g = true.
Proof.
  unfold line_capture. pose proof (takeWhile_all notLineTerminator s) as H.
  destruct (takeWhile notLineTerminator s); [discriminate |].
  intros E. injection E as <-. exact H.
Qed.

Lemma spaces_then_line_single (s g : jsstring) :
  spaces_then_line s = Some g -> forallb notLineTerminator g = true.
Proof.
  revert g. induction s as [| c s IH]; intros g; cbn [spaces_then_line];
    [discriminate |].
  destruct (isSpace c); [| discriminate].
  destruct (spaces_then_line s) as [g0 |].
  - intros E. injection E as <-. apply IH. reflexivity.
  - apply line_capture_single.
Qed.

Lemma heading_at_single (s g : jsstring) :
  heading_at s = Some g -> forallb notLineTerminator g = true.
Proof.
  unfold heading_at. destruct s as [| c s]; [discriminate |].
  destruct (N.eqb c 35); [apply spaces_then_line_single | discriminate].
Qed.

Lemma first_line_match_single (at_pos : jsstring -> option jsstring) :
  (forall s g, at_pos s = Some g -> forallb notLineTerminator g = true) ->
  forall s prev g,
    first_line_match at_pos prev s = Some g -> forallb notLineTerminator g = true.
Proof.
  intros Hat. induction s as [| c s IH]; intros prev g; cbn [first_line_match];
    [discriminate |].
  destruct (at_line_start prev).
  - destruct (at_pos (c :: s)) as [g0 |] eqn:E.
    + intros H. injection H as <-. exact (Hat _ _ E).
    + apply IH.
  - apply IH.
Qed.

Lemma forallb_trim (f : char -> bool) (s : jsstring) :
  forallb f s = true -> forallb f (trim s) = true.
Proof.
  unfold trim, trimEnd. intros H.
  destruct (trimStart_suffix s) as [pre Hpre].
  destruct (dropEndWhile_prefix isSpace (trimStart s)) as [post Hpost].
  rewrite Hpre, forallb_app in H. apply andb_true_iff in H. destruct H as [_ H].
  rewrite Hpost, forallb_app in H. apply andb_true_iff in H. exact (proj1 H).
Qed.

(** X26.  The title of a page read through Jina is one line without white
    space at its ends: the text of the first heading or else of the first
    non-empty line, or the word Tweet; so is the title that a raw text file
    takes from its first heading. *)
Theorem titles_are_single_lines (P : Platform) (text url : jsstring) (parsed : URL) :
  (forallb notLineTerminator (title (fromJinaMarkdown text url)) = true
   /\ is_trimmed (title (fromJinaMarkdown text url)) = true)
  /\ (match_heading text <> None ->
      forallb notLineTerminator (title (fromRawText text parsed url)) = true
      /\ is_trimmed (title (fromRawText text parsed url)) = true).
Proof.
  pose proof (first_line_match_single heading_at heading_at_single text None) as Hh.
  pose proof (first_line_match_single line_capture line_capture_single text None) as Hl.
  fold (match_heading text) in Hh. fold (match_first_line text) in Hl.
  split.
  - unfold fromJinaMarkdown. cbn [title].
    destruct (match_heading text) as [g |].
    + split; [apply forallb_trim; apply Hh; reflexivity | apply trim_is_trimmed].
    + destruct (match_first_line text) as [g |].
      * split; [apply forallb_trim; apply Hl; reflexivity | apply trim_is_trimmed].
      * split; reflexivity.
  - intros Hne. unfold fromRawText. cbn [title].
    destruct (match_heading text) as [g |]; [| congruence].
    split; [apply forallb_trim; apply Hh; reflexivity | apply trim_is_trimmed].
Qed.

(** ** The indent of a streaming insertion *)

Lemma isSpace_not_dollar (c : char) : isSpace c = true -> N.eqb c 36 = false.
Proof.
  intros H. destruct (N.eqb_spec c 36) as [-> | Hne]; [discriminate | reflexivity].
Qed.

Lemma isBlank_noDollar (s : jsstring) : isBlank s = true -> noDollar s = true.
Proof.
  unfold isBlank, noDollar. induction s as [| c s IH]; [reflexivity |].
  cbn [forallb]. intros H. apply andb_true_iff in H. destruct H as [Hc Hs].
  rewrite (isSpace_not_dollar c Hc), (IH Hs). reflexivity.
Qed.

(** X27.  The indent of a streaming insertion is white space only, so that
    it holds no dollar sign that the replacement of the line feeds would
    expand, and it holds no line feed when the line of the cursor holds
    none. *)
Theorem setupStreamingInsert_indent (e : Editor) :
  let cursor := if nonempty (getSelection e) then getCursorTo e else getCursor e in
  isBlank (indent (setupStreamingInsert e)) = true
  /\ noDollar (indent (setupStreamingInsert e)) = true
  /\ (noLineFeed (getLine e (line cursor)) = true ->
      noLineFeed (indent (setupStreamingInsert e)) = true).
Proof.
  intros cursor. unfold setupStreamingInsert. fold cursor. cbn [indent].
  set (ln := getLine e (line cursor)).
  assert (Hb : isBlank (if isListItemLine ln then takeWhile isSpace ln ++ [9%N]
                        else takeWhile isSpace ln) = true).
  { unfold isBlank. destruct (isListItemLine ln).
    - rewrite forallb_app, takeWhile_all. reflexivity.
    - apply takeWhile_all. }
  split; [exact Hb |]. split; [exact (isBlank_noDollar _ Hb) |].
  intros Hline. destruct (isListItemLine ln).
  - rewrite noLineFeed_app, (takeWhile_noLineFeed _ _ Hline). reflexivity.
  - exact (takeWhile_noLineFeed _ _ Hline).
Qed.

(** ** Reads cut at a line feed *)

Section StreamCuts.

Variable P : Platform.
Variables W U : Type.
Variable keydown : jsstring -> U -> U.
Variable onStream : callback U.

Lemma split_char_go_app (x y : jsstring) :
  forall cur,
    split_char_go LF cur (x ++ LF :: y)
    = split_char_go LF cur x ++ split_char_go LF [] y.
Proof.
  induction x as [| c x IH]; intros cur; cbn [app split_char_go].
  - rewrite N.eqb_refl. reflexivity.
  - destruct (N.eqb c LF); [| apply IH].
    cbn [app]. f_equal. apply IH.
Qed.

Lemma processLines_app (l1 l2 : list jsstring) :
  forall fullContent (st : State W U),
    processLines P onStream (l1 ++ l2) fullContent st
    = bind (processLines P onStream l1 fullContent)
        (fun full1 => processLines P onStream l2 full1) st.
Proof.
  induction l1 as [| ln l1 IH]; intros fullContent st; [reflexivity |].
  cbn [app processLines]. unfold bind at 1 2 3.
  destruct (processLine P onStream ln fullContent st) as [[full1 | e] st1];
    [| reflexivity].
  rewrite IH. reflexivity.
Qed.

(** X28.  Two reads cut at a line feed are processed as the one read that
    delivers both texts: the same callbacks are called, the same content is
    accumulated and the same outcome is reached.  (Frames are parsed line by
    line within each read, so that only a cut inside a line matters.) *)
Theorem reads_cut_at_line_feed (x y : jsstring) (rest : list BodyEvent)
    (fullContent : jsstring) (st : State W U) :
  readLoop P keydown onStream (Read (x ++ [LF]) :: Read y :: rest) fullContent st
  = readLoop P keydown onStream (Read (x ++ LF :: y) :: rest) fullContent st.
Proof.
  cbn [readLoop]. unfold split_char.
  rewrite !split_char_go_app. cbn [split_char_go rev].
  unfold bind at 1 3. rewrite !processLines_app. unfold bind at 1 3.
  destruct (processLines P onStream (split_char_go LF [] x) fullContent st)
    as [[full1 | e] st1]; [| reflexivity].
  cbn [processLines]. unfold bind at 1. cbn [processLine startsWith lit].
  reflexivity.
Qed.

End StreamCuts.

(** ** The chunks handed to the callback *)

Section TruthyChunks.

Variable P : Platform.
Variables W U : Type.
Variable net : Net W.
Variable settings : SummarizeSettings.
Variable keydown : jsstring -> U -> U.
Variable onStream : callback U.

Lemma truthyChunks_refl (st : State W U) : truthyChunks st st.
Proof. exists []. rewrite app_nil_r. split; reflexivity. Qed.

Lemma truthyChunks_trans (st1 st2 st3 : State W U) :
  truthyChunks st1 st2 -> truthyChunks st2 st3 -> truthyChunks st1 st3.
Proof.
  intros (e1 & Ht1 & Hc1) (e2 & Ht2 & Hc2). exists (e1 ++ e2).
  rewrite Ht2, Ht1, app_assoc, streamed_app, forallb_app, Hc1, Hc2.
  split; reflexivity.
Qed.

Lemma truthyChunks_fetch (init : FetchInit) :
  respects truthyChunks (@fetch W U net init).
Proof.
  intros st. unfold fetch. destruct (net_fetch net init (world st)) as [r w].
  exists [EFetch init]. split; reflexivity.
Qed.

Lemma truthyChunks_notice (text : jsstring) :
  respects truthyChunks (@emit W U (ENotice text)).
Proof. intros st. exists [ENotice text]. split; reflexivity. Qed.

Lemma truthyChunks_key (key : jsstring) :
  respects truthyChunks (@on_host W U (keydown key)).
Proof.
  intros st. exists []. cbn [on_host snd trace]. rewrite app_nil_r.
  split; reflexivity.
Qed.

Lemma truthyChunks_call (chunk : value) :
  truthy chunk = true -> respects truthyChunks (@call W U onStream chunk).
Proof.
  intros Ht st. unfold call. destruct (onStream chunk (host st)) as [r u].
  exists [EStream chunk]. cbn [snd trace streamed flat_map app forallb].
  rewrite Ht. split; reflexivity.
Qed.

(** X29.  A summarisation that streams never hands an empty chunk to the
    callback: every chunk passed to [onStream] is truthy, whatever the
    frames of the stream carry and whatever the outcome. *)
Theorem onStream_gets_truthy_chunks (text : jsstring) (options : SummarizeOptions U)
    (st : State W U) :
  opt_onStream options = Some onStream ->
  exists effs,
    trace (snd (summarize P net settings keydown text options st)) = trace st ++ effs
    /\ forallb truthy (streamed effs) = true.
Proof.
  intros Ho.
  exact (rs_summarize W U truthyChunks truthyChunks_refl truthyChunks_trans
           P net settings keydown onStream
           truthyChunks_fetch truthyChunks_notice truthyChunks_key truthyChunks_call
           text options Ho st).
Qed.

End TruthyChunks.

(* ================================================================== *)
(** * Further runs *)
(* ================================================================== *)

Module MoreRuns.

Import Sample.
Import MoreSample.

Lemma countWords_joined_witness :
  (lit " " <> [] /\ isBlank (lit " ") = true)
  /\ countWords (lit "hello" ++ lit " " ++ lit "world")
     = countWords (lit "hello") + countWords (lit "world").
Proof.
  assert (H1 : lit " " <> []) by discriminate.
  assert (H2 : isBlank (lit " ") = true) by reflexivity.
  exact (conj (conj H1 H2) (countWords_joined (lit "hello") (lit " ") (lit "world") H1 H2)).
Defined.

Lemma countWords_zero_witness :
  isBlank (lit "  ") = true /\ countWords (lit "  ") = 0.
Proof.
  assert (H : isBlank (lit "  ") = true) by reflexivity.
  exact (conj H (proj2 (countWords_zero_iff_blank (lit "  ")) H)).
Defined.

Lemma extractFirstUrl_sound_witness :
  extractFirstUrl platform tweetText = Some linkUrl
  /\ (exists pre post, tweetText = pre ++ linkUrl ++ post)
  /\ (startsWith (lit "https://") linkUrl = true
      \/ startsWith (lit "http://") linkUrl = true)
  /\ dropEndWhile isTrailingPunct linkUrl = linkUrl
  /\ (exists parsed, URL_parse platform linkUrl = Some parsed)
  /\ matchesSkipPattern linkUrl = false
  /\ needsJsRendering platform linkUrl = false.
Proof.
  assert (H : extractFirstUrl platform tweetText = Some linkUrl)
    by (vm_compute; reflexivity).
  exact (conj H (extractFirstUrl_sound platform tweetText linkUrl H)).
Defined.

Lemma extractFromUrl_wordCount_witness :
  extractFromUrl platform tweetNet tweetUrl (start tt)
    = (Return tweet, snd (extractFromUrl platform tweetNet tweetUrl (start tt)))
  /\ wordCount tweet = countWords (content tweet).
Proof.
  assert (H : extractFromUrl platform tweetNet tweetUrl (start tt)
              = (Return tweet, snd (extractFromUrl platform tweetNet tweetUrl (start tt))))
    by (vm_compute; reflexivity).
  exact (conj H (extractFromUrl_wordCount nat unit tweetNet platform tweetUrl
                   (start tt) _ tweet (or_introl H))).
Defined.


Lemma fallback_exhausted_witness :
  (freeModelRank (settings [modelA; modelB]) <> []
   /\ forall param w, exists response w',
        net_requestUrl busyNet param w = (Return response, w')
        /\ q_status response = 429%N)
  /\ exists w',
       completionWithAutoFree platform busyNet (settings [modelA; modelB]) noKeys
         (lit "prompt") None (start tt)
       = (Throw (newError
                   (lit "All ranked free models are rate limited. Last error: "
                      ++ rateLimitMessage modelB)),
          mkState w' tt
            (exhaustedTrace platform (settings [modelA; modelB]) (lit "prompt")
               [modelA; modelB])).
Proof.
  assert (H1 : freeModelRank (settings [modelA; modelB]) <> []) by discriminate.
  assert (H2 : forall param w, exists response w',
             net_requestUrl busyNet param w = (Return response, w')
             /\ q_status response = 429%N).
  { intros param w. exists rateLimitedResponse, (S w). split; reflexivity. }
  exact (conj (conj H1 H2)
           (fallback_exhausted platform nat unit busyNet (settings [modelA; modelB])
              noKeys (lit "prompt") (start tt) H1 H2)).
Defined.

Lemma body_mentioning_429_witness :
  (net_requestUrl overloadedNet
     (completionRequest platform (settings [modelA; modelB]) modelA (lit "prompt")) 0
     = (Return overloadedResponse, 1)
   /\ q_status overloadedResponse <> 429%N
   /\ q_status overloadedResponse <> 200%N
   /\ includes (lit "429") (q_text overloadedResponse) = true)
  /\ autoFreeLoop platform overloadedNet (settings [modelA; modelB]) noKeys
       (lit "prompt") None [modelA; modelB] None (start tt)
     = autoFreeLoop platform overloadedNet (settings [modelA; modelB]) noKeys
         (lit "prompt") None [modelB]
         (Some (newError (lit "OpenRouter API error: " ++ q_text overloadedResponse)))
         (noticed (rateLimitedNotice (settings [modelA; modelB]) modelA)
            (requested
               (completionRequest platform (settings [modelA; modelB]) modelA (lit "prompt"))
               1 (start tt))).
Proof.
  assert (H1 : net_requestUrl overloadedNet
                 (completionRequest platform (settings [modelA; modelB]) modelA
                    (lit "prompt")) (world (start tt))
               = (Return overloadedResponse, 1)) by reflexivity.
  assert (H2 : q_status overloadedResponse <> 429%N) by discriminate.
  assert (H3 : q_status overloadedResponse <> 200%N) by discriminate.
  assert (H4 : includes (lit "429") (q_text overloadedResponse) = true)
    by (vm_compute; reflexivity).
  exact (conj (conj H1 (conj H2 (conj H3 H4)))
           (body_mentioning_429_is_rate_limit platform nat unit overloadedNet
              (settings [modelA; modelB]) noKeys (lit "prompt") modelA [modelB] None
              (start tt) overloadedResponse 1 H1 H2 H3 H4)).
Defined.

Lemma streamCompletion_content_witness :
  streamCompletion platform (streamNet echoingStream) streamSettings noKeys
    (lit "test/model") (lit "prompt") quiet (start tt)
  = (Return (mkLLMResponse (VStr (lit "Hello")) (VStr (lit "test/model")) VUndefined),
     snd (streamCompletion platform (streamNet echoingStream) streamSettings noKeys
            (lit "test/model") (lit "prompt") quiet (start tt)))
  /\ exists effs,
       trace (snd (streamCompletion platform (streamNet echoingStream) streamSettings
                     noKeys (lit "test/model") (lit "prompt") quiet (start tt)))
       = [] ++ effs
       /\ VStr (lit "Hello") = VStr (flat_map (ToString platform) (streamed effs)).
Proof.
  assert (H : streamCompletion platform (streamNet echoingStream) streamSettings noKeys
                (lit "test/model") (lit "prompt") quiet (start tt)
              = (Return (mkLLMResponse (VStr (lit "Hello")) (VStr (lit "test/model"))
                           VUndefined),
                 snd (streamCompletion platform (streamNet echoingStream) streamSettings
                        noKeys (lit "test/model") (lit "prompt") quiet (start tt))))
    by (vm_compute; reflexivity).
  exact (conj H (streamCompletion_content platform nat unit (streamNet echoingStream)
                   streamSettings noKeys (lit "test/model") (lit "prompt") quiet
                   (start tt) _ _ H)).
Defined.

Lemma prompt_fills_template_witness :
  (str_or (lit "Sum up in {{wordCount}} words: {{content}}")
          (str_or (customPrompt (settings [])) DEFAULT_PROMPT)
   = lit "Sum up in " ++ lit "{{wordCount}}" ++ lit " words: " ++ lit "{{content}}" ++ []
   /\ noOpenBrace (lit "Sum up in ") = true
   /\ noOpenBrace (lit " words: ") = true
   /\ noOpenBrace [] = true
   /\ noOpenBrace (lit "hello") = true
   /\ noDollar (lit "hello") = true)
  /\ buildSummarizationPrompt (settings []) (lit "hello") short None
       (Some (lit "Sum up in {{wordCount}} words: {{content}}"))
     = lit "Sum up in " ++ decimal (LENGTH_WORD_COUNTS short) ++ lit " words: "
         ++ lit "hello" ++ [].
Proof.
  assert (H0 : str_or (lit "Sum up in {{wordCount}} words: {{content}}")
                 (str_or (customPrompt (settings [])) DEFAULT_PROMPT)
               = lit "Sum up in " ++ lit "{{wordCount}}" ++ lit " words: "
                   ++ lit "{{content}}" ++ []) by reflexivity.
  assert (H1 : noOpenBrace (lit "Sum up in ") = true) by reflexivity.
  assert (H2 : noOpenBrace (lit " words: ") = true) by reflexivity.
  assert (H3 : noOpenBrace [] = true) by reflexivity.
  assert (H4 : noOpenBrace (lit "hello") = true) by reflexivity.
  assert (H5 : noDollar (lit "hello") = true) by reflexivity.
  exact (conj (conj H0 (conj H1 (conj H2 (conj H3 (conj H4 H5)))))
           (prompt_fills_template (settings []) (lit "hello") (lit "Sum up in ")
              (lit " words: ") [] short None
              (Some (lit "Sum up in {{wordCount}} words: {{content}}"))
              H0 H1 H2 H3 H4 H5)).
Defined.

Lemma default_prompt_witness :
  (customPrompt (settings []) = []
   /\ noOpenBrace (lit "hello") = true
   /\ noDollar (lit "hello") = true)
  /\ buildSummarizationPrompt (settings []) (lit "hello") medium (Some (lit "German")) None
     = lit "Summarize the following content in approximately "
         ++ decimal (LENGTH_WORD_COUNTS medium) ++ defaultPromptRules ++ lit "hello".
Proof.
  assert (H1 : customPrompt (settings []) = []) by reflexivity.
  assert (H2 : noOpenBrace (lit "hello") = true) by reflexivity.
  assert (H3 : noDollar (lit "hello") = true) by reflexivity.
  exact (conj (conj H1 (conj H2 H3))
           (default_prompt_ignores_language (settings []) (lit "hello") medium
              (Some (lit "German")) H1 H2 H3)).
Defined.

Lemma prompt_without_placeholder_witness :
  (lit "Summarise." <> []
   /\ includes (lit "{{content}}") (lit "Summarise.") = false
   /\ includes (lit "{{wordCount}}") (lit "Summarise.") = false
   /\ includes (lit "{{language}}") (lit "Summarise.") = false)
  /\ buildSummarizationPrompt (settings []) (lit "hello") medium None
       (Some (lit "Summarise."))
     = lit "Summarise.".
Proof.
  assert (H0 : lit "Summarise." <> []) by discriminate.
  assert (H1 : includes (lit "{{content}}") (lit "Summarise.") = false) by reflexivity.
  assert (H2 : includes (lit "{{wordCount}}") (lit "Summarise.") = false) by reflexivity.
  assert (H3 : includes (lit "{{language}}") (lit "Summarise.") = false) by reflexivity.
  exact (conj (conj H0 (conj H1 (conj H2 H3)))
           (prompt_without_placeholder (settings []) (lit "hello") (lit "Summarise.")
              medium None H0 H1 H2 H3)).
Defined.

Lemma handleStreamChunk_position_witness :
  (noLineFeed (indent midStream) = true /\ currentContent midStream <> [])
  /\ replaced (editor (snd (handleStreamChunk (VStr (lit "c")) midStream)))
     = [(lit "c", mkPos 5 1)]
  /\ length (lastLine (writtenText (indent midStream) (currentContent midStream))) = 2.
Proof.
  assert (H1 : noLineFeed (indent midStream) = true) by reflexivity.
  assert (H2 : currentContent midStream <> []) by discriminate.
  destruct (handleStreamChunk_position (lit "c") midStream) as [Hrun Hend].
  refine (conj (conj H1 H2) (conj _ _)).
  - rewrite Hrun. reflexivity.
  - rewrite (Hend H1 H2). reflexivity.
Defined.

Lemma extractUrls_sound_witness :
  In linkUrl (extractUrls platform selectionText)
  /\ NoDup (extractUrls platform selectionText)
  /\ (exists parsed, URL_parse platform linkUrl = Some parsed)
  /\ (exists pre post, selectionText = pre ++ linkUrl ++ post)
  /\ (startsWith (lit "https://") linkUrl = true
      \/ startsWith (lit "http://") linkUrl = true).
Proof.
  assert (H : In linkUrl (extractUrls platform selectionText))
    by (vm_compute; left; reflexivity).
  destruct (extractUrls_sound platform selectionText) as [Hnd Hall].
  exact (conj H (conj Hnd (Hall linkUrl H))).
Defined.

Lemma extractSingleUrl_sound_witness :
  extractSingleUrl platform (lit " https://example.com/a ") = Some linkUrl
  /\ (exists parsed, URL_parse platform linkUrl = Some parsed)
  /\ (exists pre post, lit " https://example.com/a " = pre ++ linkUrl ++ post)
  /\ (startsWith (lit "https://") linkUrl = true
      \/ startsWith (lit "http://") linkUrl = true)
  /\ (isBareUrl (trim (lit " https://example.com/a ")) = true ->
      linkUrl = trim (lit " https://example.com/a ")).
Proof.
  assert (H : extractSingleUrl platform (lit " https://example.com/a ") = Some linkUrl)
    by (vm_compute; reflexivity).
  exact (conj H (extractSingleUrl_sound platform (lit " https://example.com/a ")
                   linkUrl H)).
Defined.

Lemma insertSummary_no_blank_run_witness :
  noLineFeed (getLine listEditor 3) = true
  /\ exists inserted,
       replaced (insertSummaryBelow (lit "a" ++ [LF; LF; LF] ++ lit "b") listEditor)
       = replaced listEditor ++ [(LF :: inserted, mkPos 3 6)]
       /\ has_newline_run3 (LF :: inserted) = false.
Proof.
  assert (H : noLineFeed (getLine listEditor 3) = true) by reflexivity.
  exact (conj H (insertSummary_no_blank_run (lit "a" ++ [LF; LF; LF] ++ lit "b")
                   listEditor H)).
Defined.

Lemma cli_fallback_exhausted_witness :
  (forall init w, exists response w',
      net_fetch busyFetchNet init w = (Return response, w')
      /\ r_status response = 429%N
      /\ r_text response = Return (lit "slow down"))
  /\ getFreeModelRank None <> []
  /\ exists w',
       cli_summarize platform busyFetchNet (lit "key") None (lit "text") None None None
         (start tt)
       = (Throw (newError
                   (lit "All free models rate limited. Last error: "
                      ++ lit "OpenRouter API error: 429 - " ++ lit "slow down")),
          mkState w' tt
            ([] ++ map (fun modelId =>
                          EFetch (cli_completionRequest platform (lit "key") modelId
                                    (cli_buildPrompt (lit "text") medium [])))
                       (getFreeModelRank None))).
Proof.
  assert (H : forall init w, exists response w',
            net_fetch busyFetchNet init w = (Return response, w')
            /\ r_status response = 429%N
            /\ r_text response = Return (lit "slow down")).
  { intros init w. eexists. exists (S w). repeat split. }
  destruct (cli_fallback_exhausted platform nat unit busyFetchNet (lit "key") None
              (lit "text") (lit "slow down") None None (start tt) H)
    as (Hne & _ & Hrun).
  exact (conj H (conj Hne Hrun)).
Defined.

Lemma unparsable_url_witness :
  URL_parse platform (lit "not a url") = None
  /\ trace (snd (extractFromUrl platform deadNet (lit "not a url") (start tt)))
     = [ERequestUrl (mkRequest (lit "not a url") None htmlHeaders None None)]
  /\ trace (snd (cli_extractFromUrl platform deadNet (lit "not a url") true (start tt)))
     = [EFetch (mkFetch (lit "not a url") None None htmlHeaders None)].
Proof.
  assert (H : URL_parse platform (lit "not a url") = None) by reflexivity.
  destruct (unparsable_url_goes_generic platform nat unit deadNet (lit "not a url")
              true (start tt) H) as (_ & H1 & _ & H2).
  exact (conj H (conj H1 H2)).
Defined.

Lemma result_names_requested_url_witness :
  extractFromUrl platform tweetNet tweetUrl (start tt)
    = (Return tweet, snd (extractFromUrl platform tweetNet tweetUrl (start tt)))
  /\ (url tweet = tweetUrl \/ isRawTextUrl platform (url tweet) = true).
Proof.
  assert (H : extractFromUrl platform tweetNet tweetUrl (start tt)
              = (Return tweet, snd (extractFromUrl platform tweetNet tweetUrl (start tt))))
    by (vm_compute; reflexivity).
  exact (conj H (result_names_requested_url platform nat unit tweetNet tweetUrl false
                   (start tt) _ tweet (or_introl H))).
Defined.

Lemma titles_witness :
  match_heading (lit "# Notes  ") <> None
  /\ title (fromRawText (lit "# Notes  ") (mkURL (lit "h") (lit "/f.md")) (lit "u"))
     = lit "Notes"
  /\ forallb notLineTerminator
       (title (fromRawText (lit "# Notes  ") (mkURL (lit "h") (lit "/f.md")) (lit "u")))
     = true
  /\ is_trimmed
       (title (fromRawText (lit "# Notes  ") (mkURL (lit "h") (lit "/f.md")) (lit "u")))
     = true.
Proof.
  assert (H : match_heading (lit "# Notes  ") <> None) by (vm_compute; discriminate).
  destruct (titles_are_single_lines platform (lit "# Notes  ") (lit "u")
              (mkURL (lit "h") (lit "/f.md"))) as [_ Hraw].
  refine (conj H (conj _ (Hraw H))). vm_compute. reflexivity.
Defined.

Lemma setupStreamingInsert_indent_witness :
  noLineFeed (getLine listEditor 3) = true
  /\ indent (setupStreamingInsert listEditor) = [9%N]
  /\ noLineFeed (indent (setupStreamingInsert listEditor)) = true.
Proof.
  assert (H : noLineFeed (getLine listEditor 3) = true) by reflexivity.
  destruct (setupStreamingInsert_indent listEditor) as (_ & _ & Hn).
  refine (conj H (conj _ (Hn H))). reflexivity.
Defined.

Lemma onStream_gets_truthy_chunks_witness :
  opt_onStream (mkOptions None None None None (Some quiet)) = Some quiet
  /\ exists effs,
       trace (snd (summarize platform (streamNet echoingStream) streamSettings noKeys
                     (lit "text") (mkOptions None None None None (Some quiet))
                     (start tt)))
       = [] ++ effs
       /\ forallb truthy (streamed effs) = true.
Proof.
  assert (H : opt_onStream (mkOptions None None None None (Some quiet)) = Some quiet)
    by reflexivity.
  exact (conj H (onStream_gets_truthy_chunks platform nat unit (streamNet echoingStream)
                   streamSettings noKeys quiet (lit "text")
                   (mkOptions None None None None (Some quiet)) (start tt) H)).
Defined.

End MoreRuns.
